(** * buggd: the recording daemon of the Bugg acoustic sensor node

    A shallow embedding of the parts of the daemon that its specification
    makes claims about:

    - [Leds]: the RGB LED driver of [drivers/leds.py];
    - [Py]: the strings and the text files of Python that the daemon uses;
    - [Factory]: the factory self-test of [apps/buggd/factorytest.py];
    - [Buggd]: the upload loops and the error-blink routine of
      [apps/buggd/main.py];
    - [Daemon]: the display at boot and the exit handler of
      [apps/buggd/main.py];
    - [Soundcard]: the gain and phantom power control of
      [drivers/soundcard.py].

    Python objects are modelled by records, dictionaries with a fixed key set
    by records together with their [items] view, the filesystem by a finite
    map from paths to file contents (a text is kept as its UTF-8 encoding),
    exceptions by sum types, and the long-running loops by step functions on
    an explicit machine state.  What the environment decides (whether a call
    on a socket, a file or a device returns or raises) is an input of the
    model. *)

From Stdlib Require Import ZArith QArith Lia Bool List String Ascii.
From stdpp Require Import base option list gmap strings.

Open Scope string_scope.
Open Scope list_scope.
Open Scope Z_scope.

(** * drivers/leds.py *)

Module Leds.

(** [class Colour(Enum)]; [OFF] is an alias of [BLACK]. *)
Inductive Colour : Set :=
| RED | GREEN | BLUE | YELLOW | CYAN | MAGENTA | WHITE | BLACK.

Definition OFF : Colour := BLACK.

(** [COLOUR_THEORY]: the RGB triple of each colour, as Python ints. *)
Definition COLOUR_THEORY (c : Colour) : Z * Z * Z :=
  match c with
  | RED => (1, 0, 0)
  | GREEN => (0, 1, 0)
  | BLUE => (0, 0, 1)
  | YELLOW => (1, 1, 0)
  | CYAN => (0, 1, 1)
  | MAGENTA => (1, 0, 1)
  | WHITE => (1, 1, 1)
  | BLACK => (0, 0, 0)
  end.

(** The triple as the indexable tuple [col]. *)
Definition tuple3 (col : Z * Z * Z) : list Z :=
  let '(r, g, b) := col in [r; g; b].

(** A channel of an LED is either a pin number of the IO expander (an
    [int]) or, when it is stuck in hardware, a [bool]. *)
Inductive Channel : Set :=
| Pin (n : Z)
| HardWired (b : bool).

(** The value of a channel used as an index: a [bool] is the int 0 or 1. *)
Definition channel_int (ch : Channel) : Z :=
  match ch with Pin n => n | HardWired b => Z.b2z b end.

(** [class Driver]: the port of the PCF8574 IO expander, one level per
    pin. *)
Definition Driver : Type := list bool.

(** Python truth value of an int. *)
Definition truthy (v : Z) : bool := negb (v =? 0).

(** [Driver.set]: [self.io_expander.port[channel] = not value].  The
    port refuses a pin outside [range(8)] with an [AssertionError], which
    [Driver.set] swallows: the port is then left as it was. *)
Definition Driver_set (channel : Channel) (value : Z) (drv : Driver) : Driver :=
  let pin := channel_int channel in
  if (0 <=? pin) && (pin <? 8)
  then <[Z.to_nat pin := negb (truthy value)]> drv
  else drv.


(** [class LED]: [self.channels] is a dictionary with the three keys
    ["red"], ["green"], ["blue"], inserted in this order. *)
Record LED : Type := mkLED {
  ch_r : Channel;
  ch_g : Channel;
  ch_b : Channel;
  stay_on_at_exit : bool
}.

Definition LED_new (r g b : Channel) : LED := mkLED r g b false.

(** [self.channels.items()] *)
Definition channels_items (led : LED) : list (string * Channel) :=
  [("red", ch_r led); ("green", ch_g led); ("blue", ch_b led)].

(** The [ValueError] raised by [LED.set]: the colour ([inv_map.get(col)]),
    the name of the stuck channel and the value it is wired to. *)
Record ValueError : Type := mkValueError {
  err_colour : option Colour;
  err_channel : string;
  err_wired : bool
}.

(** [inv_map = {v: k for k, v in COLOUR_THEORY.items()}] followed by
    [inv_map.get(col)]: the triples of the eight colours are pairwise
    distinct, so the inverse map sends a triple to its colour. *)
Definition inv_map_get (col : Z * Z * Z) : option Colour :=
  let '(r, g, b) := col in
  let eq3 (c : Colour) :=
    let '(r', g', b') := COLOUR_THEORY c in (r =? r') && (g =? g') && (b =? b') in
  List.find eq3 [RED; GREEN; BLUE; YELLOW; CYAN; MAGENTA; WHITE; BLACK].

(** [element[1] == col[index]] for a [bool] on the left and an [int] on the
    right. *)
Definition bool_eq_int (b : bool) (n : Z) : bool := Z.b2z b =? n.

(** The loop [for index, element in enumerate(self.channels.items())]:
    returns the first channel that is a [bool] ([isinstance(element[1],
    bool)]) other than the colour's component at its index. *)
Fixpoint stuck_channel (index : nat) (elements : list (string * Channel))
    (col : list Z) : option (string * bool) :=
  match elements with
  | [] => None
  | (name, ch) :: rest =>
      match ch with
      | HardWired b =>
          if negb (bool_eq_int b (nth index col 0))
          then Some (name, b)
          else stuck_channel (S index) rest col
      | Pin _ => stuck_channel (S index) rest col
      end
  end.

(** [LED.set]: the state of the driver afterwards, and either the raised
    error or [()]. *)
Definition LED_set (led : LED) (colour : Colour) (drv : Driver)
    : Driver * (ValueError + unit) :=
  let col := COLOUR_THEORY colour in
  let '(r, g, b) := col in
  match stuck_channel 0 (channels_items led) (tuple3 col) with
  | Some (name, wired) => (drv, inl (mkValueError (inv_map_get col) name wired))
  | None =>
      let drv := Driver_set (ch_r led) r drv in
      let drv := Driver_set (ch_g led) g drv in
      let drv := Driver_set (ch_b led) b drv in
      (drv, inr tt)
  end.

(** [class LEDs]: the three user-facing LEDs share one driver. *)
Record LEDs : Type := mkLEDs {
  driver : Driver;
  top : LED;
  middle : LED;
  bottom : LED
}.

(** The port after power-up: every pin high, that is every LED channel
    off (the channels are active low). *)
Definition port_reset : Driver := repeat true 8.

Definition LEDs_new : LEDs :=
  {| driver := port_reset;
     top := LED_new (Pin 7) (Pin 6) (Pin 5);
     middle := LED_new (Pin 4) (Pin 3) (Pin 2);
     bottom := mkLED (HardWired true) (Pin 1) (Pin 0) true |}.

(** The colour an LED shows: its three pins read back (a lit channel is a
    low pin). *)
Definition pin_lit (ch : Channel) (drv : Driver) : option Z :=
  match ch with
  | HardWired b => Some (Z.b2z b)
  | Pin n => if (0 <=? n) then (fun level => Z.b2z (negb level)) <$> drv !! Z.to_nat n else None
  end.

Definition LED_shows (led : LED) (drv : Driver) : option Colour :=
  match pin_lit (ch_r led) drv, pin_lit (ch_g led) drv, pin_lit (ch_b led) drv with
  | Some r, Some g, Some b => inv_map_get (r, g, b)
  | _, _, _ => None
  end.


(** ** The three LEDs together *)

(** A statement on the LEDs: the LEDs afterwards, and either the raised
    error or [()]. *)
Definition LedsStmt : Type := LEDs -> LEDs * (ValueError + unit).

(** [self.<which>.set(colour)]: the three LEDs write to the one driver. *)
Definition LEDs_set (which : LEDs -> LED) (colour : Colour) : LedsStmt :=
  fun l =>
    let '(d, r) := LED_set (which l) colour (driver l) in
    (mkLEDs d (top l) (middle l) (bottom l), r).

(** One statement after the other; an error ends the sequence. *)
Definition LEDs_seq (a b : LedsStmt) : LedsStmt :=
  fun l => match a l with
           | (l', inr _) => b l'
           | (l', inl e) => (l', inl e)
           end.

Definition LEDs_skip : LedsStmt := fun l => (l, inr tt).

(** [LEDs.all_off] *)
Definition LEDs_all_off : LedsStmt :=
  LEDs_seq (LEDs_set top OFF) (LEDs_seq (LEDs_set middle OFF) (LEDs_set bottom RED)).

(** [LEDs.at_exit] *)
Definition LEDs_at_exit : LedsStmt :=
  fun l =>
    LEDs_seq (if stay_on_at_exit (top l) then LEDs_skip else LEDs_set top OFF)
      (LEDs_seq (if stay_on_at_exit (middle l) then LEDs_skip else LEDs_set middle OFF)
         (if stay_on_at_exit (bottom l) then LEDs_skip else LEDs_set bottom RED)) l.

(** [leds.<which>.stay_on_at_exit = True] *)
Definition stay_on (led : LED) : LED := mkLED (ch_r led) (ch_g led) (ch_b led) true.

(** The three LEDs by position. *)
Inductive Position : Set := Top | Middle | Bottom.

Definition led_at (p : Position) (l : LEDs) : LED :=
  match p with Top => top l | Middle => middle l | Bottom => bottom l end.

Definition which (p : Position) : LEDs -> LED := led_at p.

(** The three channels of an LED. *)
Definition channels (led : LED) : Channel * Channel * Channel :=
  (ch_r led, ch_g led, ch_b led).

(** The LEDs are wired as [LEDs.__init__] wires them, on a port of eight
    pins; the flags [stay_on_at_exit] are left open. *)
Definition wired_as_LEDs (l : LEDs) : Prop :=
  channels (top l) = (Pin 7, Pin 6, Pin 5)
  /\ channels (middle l) = (Pin 4, Pin 3, Pin 2)
  /\ channels (bottom l) = (HardWired true, Pin 1, Pin 0)
  /\ length (driver l) = 8%nat.

(** The colour the LED at a position shows. *)
Definition shown (p : Position) (l : LEDs) : option Colour :=
  LED_shows (led_at p l) (driver l).

(** The red component of a colour. *)
Definition red_of (colour : Colour) : Z := fst (fst (COLOUR_THEORY colour)).

(** The pins of the port an LED is wired to. *)
Definition pins_of (led : LED) : list nat :=
  omap (fun ch => match ch with
                  | Pin n => if (0 <=? n) then Some (Z.to_nat n) else None
                  | HardWired _ => None
                  end)
       [ch_r led; ch_g led; ch_b led].

End Leds.

(** * Python strings and text files *)

Module Py.

(** The outcome of a call: it raises or returns. *)
Inductive Outcome (A : Type) : Type :=
| Raise
| Return (a : A).
Arguments Raise {A}.
Arguments Return {A} a.

Definition LF : ascii := "010"%char.
Definition CR : ascii := "013"%char.
Definition nl : string := String LF EmptyString.

(** [str(b)] for a [bool]. *)
Definition str_bool (b : bool) : string := if b then "True" else "False".

(** [s.startswith(p)] *)
Fixpoint startswith (p s : string) : bool :=
  match p, s with
  | EmptyString, _ => true
  | String a p', String b s' => Ascii.eqb a b && startswith p' s'
  | String _ _, EmptyString => false
  end.

(** [p in s]: [p] occurs in [s] as a substring. *)
Fixpoint contains (p s : string) : bool :=
  match s with
  | EmptyString => startswith p EmptyString
  | String _ s' => startswith p s || contains p s'
  end.

(** [s.endswith(suffix)] *)
Definition endswith (s suffix : string) : bool :=
  let n := String.length s in
  let m := String.length suffix in
  (m <=? n)%nat && String.eqb (substring (n - m) m s) suffix.

(** [sep.join(parts)] *)
Fixpoint join (sep : string) (parts : list string) : string :=
  match parts with
  | [] => EmptyString
  | [p] => p
  | p :: rest => p +:+ sep +:+ join sep rest
  end.

(** [s.split(sep)] for a separator of one character. *)
Fixpoint split (sep : ascii) (s : string) : list string :=
  match s with
  | EmptyString => [EmptyString]
  | String c s' =>
      if Ascii.eqb c sep then EmptyString :: split sep s'
      else match split sep s' with
           | part :: parts => String c part :: parts
           | [] => [String c EmptyString]
           end
  end.

(** [c.isspace()] on the ASCII range. *)
Definition isspace (c : ascii) : bool :=
  let n := nat_of_ascii c in
  ((9 <=? n) && (n <=? 13) || (28 <=? n) && (n <=? 32))%nat.

(** The string of the bytes with the given values. *)
Definition bytes (values : list nat) : string :=
  fold_right (fun n s => String (ascii_of_nat n) s) EmptyString values.

(** A text is kept as its UTF-8 encoding.  These are the encodings of the
    code points outside ASCII for which [isspace()] holds: U+0085, U+00A0,
    U+1680, U+2000 to U+200A, U+2028, U+2029, U+202F, U+205F and U+3000. *)
Definition wide_spaces : list string :=
  map bytes
    [ [194; 133]; [194; 160]; [225; 154; 128];
      [226; 128; 128]; [226; 128; 129]; [226; 128; 130]; [226; 128; 131];
      [226; 128; 132]; [226; 128; 133]; [226; 128; 134]; [226; 128; 135];
      [226; 128; 136]; [226; 128; 137]; [226; 128; 138];
      [226; 128; 168]; [226; 128; 169]; [226; 128; 175];
      [226; 129; 159]; [227; 128; 128] ]%nat.

(** [s] without its last [k] bytes. *)
Definition drop_last (k : nat) (s : string) : string :=
  substring 0 (String.length s - k) s.

(** The text after the whitespace code point [s] starts with, if it starts
    with one. *)
Definition space_at_start (s : string) : option string :=
  match s with
  | EmptyString => None
  | String c s' =>
      if isspace c then Some s'
      else match List.find (fun sp => startswith sp s) wide_spaces with
           | Some sp => Some (substring (String.length sp)
                                (String.length s - String.length sp) s)
           | None => None
           end
  end.

(** The text before the whitespace code point [s] ends with, if it ends
    with one. *)
Definition space_at_end (s : string) : option string :=
  if (1 <=? String.length s)%nat
     && match String.get (String.length s - 1) s with
        | Some c => isspace c
        | None => false
        end
  then Some (drop_last 1 s)
  else match List.find (fun sp => endswith s sp) wide_spaces with
       | Some sp => Some (drop_last (String.length sp) s)
       | None => None
       end.

Fixpoint strip_while (space : string -> option string) (fuel : nat) (s : string)
    : string :=
  match fuel with
  | O => s
  | S fuel' =>
      match space s with
      | Some rest => strip_while space fuel' rest
      | None => s
      end
  end.

Definition lstrip (s : string) : string :=
  strip_while space_at_start (String.length s) s.

Definition rstrip (s : string) : string :=
  strip_while space_at_end (String.length s) s.

(** [s.strip()] *)
Definition strip (s : string) : string := rstrip (lstrip s).

Definition lower_char (c : ascii) : ascii :=
  let n := nat_of_ascii c in
  if ((65 <=? n) && (n <=? 90))%nat then ascii_of_nat (n + 32) else c.

(** [s.lower()] on the ASCII range. *)
Fixpoint lower (s : string) : string :=
  match s with
  | EmptyString => EmptyString
  | String c s' => String (lower_char c) (lower s')
  end.

(** Reading a file opened in text mode translates line ends: a carriage
    return, alone or followed by a line feed, reads as one line feed.
    [pending_cr] tells that the previous character was a carriage
    return. *)
Fixpoint translate_newlines (pending_cr : bool) (s : string) : string :=
  match s with
  | EmptyString => EmptyString
  | String c s' =>
      if Ascii.eqb c CR then String LF (translate_newlines true s')
      else if Ascii.eqb c LF then
        if pending_cr then translate_newlines false s'
        else String LF (translate_newlines false s')
      else String c (translate_newlines false s')
  end.

(** The lines of a text, each with its line feed. *)
Fixpoint keepends (s : string) : list string :=
  match s with
  | EmptyString => []
  | String c s' =>
      if Ascii.eqb c LF then nl :: keepends s'
      else match keepends s' with
           | [] => [String c EmptyString]
           | line :: lines => String c line :: lines
           end
  end.

(** The lines of a text that is decoded, end to end. *)
Definition file_lines (content : string) : list string :=
  keepends (translate_newlines false content).

(** ** Decoding

    The state of the UTF-8 decoder between two bytes: no code point is
    begun, or one is, and the next byte must lie between [lo] and [hi] and
    be followed by [more] continuation bytes. *)
Inductive Utf8 : Set :=
| Whole
| Begun (more lo hi : nat).

(** The decoder on one byte: [None] when the byte cannot follow, which is
    where Python raises [UnicodeDecodeError] (overlong forms, surrogates and
    code points above U+10FFFF are refused at their second byte). *)
Definition utf8_step (st : Utf8) (c : ascii) : option Utf8 :=
  let n := nat_of_ascii c in
  match st with
  | Whole =>
      if (n <=? 127)%nat then Some Whole
      else if ((194 <=? n) && (n <=? 223))%nat then Some (Begun 0 128 191)
      else if (n =? 224)%nat then Some (Begun 1 160 191)
      else if ((225 <=? n) && (n <=? 236) || (238 <=? n) && (n <=? 239))%nat
           then Some (Begun 1 128 191)
      else if (n =? 237)%nat then Some (Begun 1 128 159)
      else if (n =? 240)%nat then Some (Begun 2 144 191)
      else if ((241 <=? n) && (n <=? 243))%nat then Some (Begun 2 128 191)
      else if (n =? 244)%nat then Some (Begun 2 128 143)
      else None
  | Begun more lo hi =>
      if ((lo <=? n) && (n <=? hi))%nat
      then Some (match more with O => Whole | S m => Begun m 128 191 end)
      else None
  end.

(** The decoder on a string, from state [st]: the state at its end, or the
    index of the byte it raises at ([index] is the index of the first byte
    of [s]). *)
Fixpoint utf8_run (st : Utf8) (s : string) (index : nat) : Utf8 + nat :=
  match s with
  | EmptyString => inl st
  | String c s' =>
      match utf8_step st c with
      | Some st' => utf8_run st' s' (S index)
      | None => inr index
      end
  end.

(** [s] is the encoding of a text. *)
Definition utf8_text (s : string) : bool :=
  match utf8_run Whole s 0 with
  | inl Whole => true
  | _ => false
  end.

(** What the reader has made available of the bytes [s] it has taken in,
    when they decode without error: the code points that are whole, but for
    a carriage return at the end, which the reader keeps back until it
    sees the next character. *)
Definition withheld (s : string) : string :=
  let whole :=
    if utf8_text s then s
    else if utf8_text (drop_last 1 s) then drop_last 1 s
    else if utf8_text (drop_last 2 s) then drop_last 2 s
    else drop_last 3 s in
  if endswith whole (String CR EmptyString) then drop_last 1 whole else whole.

(** The number of bytes CPython reads a text file by
    ([TextIOWrapper._CHUNK_SIZE]). *)
Definition CHUNK_SIZE : nat := 8192.

(** The lines of a text that end with a line feed. *)
Definition complete_lines (text : string) : list string :=
  List.filter (fun line => endswith line nl) (keepends text).

(** [for line in file] over a file opened with
    [open(path, 'r', encoding='utf-8')]: the lines it yields, and whether
    it then reaches the end of the file ([true]) or raises
    [UnicodeDecodeError] ([false]).  The reader takes the file in by reads
    of [chunk] bytes and decodes each read as a whole before it yields the
    lines that the read completes: a file that decodes yields its lines; a
    file that does not yields the lines completed by the reads before the
    one that holds the byte the decoder raises at, and a file that ends
    within a code point yields its complete lines and raises at its end. *)
Definition read_text_lines (chunk : nat) (content : string) : list string * bool :=
  match utf8_run Whole content 0 with
  | inl Whole => (file_lines content, true)
  | inl (Begun _ _ _) =>
      (complete_lines (translate_newlines false (withheld content)), false)
  | inr index =>
      let taken := substring 0 (index / chunk * chunk)%nat content in
      (complete_lines (translate_newlines false (withheld taken)), false)
  end.

(** [c in s] for a character. *)
Fixpoint char_in (c : ascii) (s : string) : bool :=
  match s with
  | EmptyString => false
  | String a s' => Ascii.eqb a c || char_in c s'
  end.

(** [os.path.join(a, b)] on a POSIX system. *)
Definition path_join (a b : string) : string :=
  if startswith "/" b then b
  else if String.eqb a EmptyString || endswith a "/" then a +:+ b
  else a +:+ "/" +:+ b.

End Py.

(** * apps/buggd/factorytest.py *)

Module Factory.
Import Leds.
Import Py(Outcome, Raise, Return).

(** ** The result dictionary

    [self.results] is created with nine keys and only ever assigned at
    these keys, so it is a record; [items] is its view as the ordered
    dictionary the code iterates over. *)
Record Results : Type := mkResults {
  modem_enumerates : bool;
  modem_responsive : bool;
  modem_sim_readable : bool;
  modem_towers_found : bool;
  i2s_bridge_responding : bool;
  rtc_responding : bool;
  led_controller_responding : bool;
  internal_microphone_recording : bool;
  external_microphone_recording : bool
}.

Definition results_init : Results :=
  mkResults false false false false false false false false false.

(** [self.results.items()] *)
Definition items (r : Results) : list (string * bool) :=
  [ ("modem_enumerates", modem_enumerates r);
    ("modem_responsive", modem_responsive r);
    ("modem_sim_readable", modem_sim_readable r);
    ("modem_towers_found", modem_towers_found r);
    ("i2s_bridge_responding", i2s_bridge_responding r);
    ("rtc_responding", rtc_responding r);
    ("led_controller_responding", led_controller_responding r);
    ("internal_microphone_recording", internal_microphone_recording r);
    ("external_microphone_recording", external_microphone_recording r) ].

(** [self.results.values()] *)
Definition values (r : Results) : list bool := map snd (items r).

(** Python's [all]. *)
Definition all (l : list bool) : bool := forallb id l.

(** ** The world the self-test runs in *)

(** The [FactoryTest] object ([results], [all_passed], [leds]), the
    filesystem, and the seconds spent in [time.sleep]. *)
Record World : Type := mkWorld {
  results : Results;
  all_passed : bool;
  leds : LEDs;
  fs : gmap string string;
  slept : Z
}.

Definition results_file : string := "/home/bugg/factory_test_results.txt".

(** [FactoryTest.__init__] *)
Definition FactoryTest_new (l : LEDs) (files : gmap string string) : World :=
  mkWorld results_init false l files 0.

Definition set_results (f : Results -> Results) (w : World) : World :=
  mkWorld (f (results w)) (all_passed w) (leds w) (fs w) (slept w).
Definition set_all_passed (b : bool) (w : World) : World :=
  mkWorld (results w) b (leds w) (fs w) (slept w).
Definition set_driver (d : Driver) (w : World) : World :=
  mkWorld (results w) (all_passed w)
          (mkLEDs d (top (leds w)) (middle (leds w)) (bottom (leds w)))
          (fs w) (slept w).
Definition set_fs (files : gmap string string) (w : World) : World :=
  mkWorld (results w) (all_passed w) (leds w) files (slept w).
Definition add_slept (s : Z) (w : World) : World :=
  mkWorld (results w) (all_passed w) (leds w) (fs w) (slept w + s).

(** Statements that read and write the world and may raise. *)
Definition M (A : Type) : Type := World -> World * Outcome A.

Definition ret {A} (a : A) : M A := fun w => (w, Return a).
Definition raise {A} : M A := fun w => (w, Raise).
Definition bind {A B} (m : M A) (k : A -> M B) : M B :=
  fun w => match m w with
           | (w', Return a) => k a w'
           | (w', Raise) => (w', Raise)
           end.
Definition get : M World := fun w => (w, Return w).
Definition modify (f : World -> World) : M unit := fun w => (f w, Return tt).
(** The result of a call to a collaborator. *)
Definition call {A} (o : Outcome A) : M A := fun w => (w, o).
(** [try: body  except Exception: handler] *)
Definition try_except {A} (body handler : M A) : M A :=
  fun w => match body w with
           | (w', Raise) => handler w'
           | r => r
           end.

Notation "x <- m ;; k" := (bind m (fun x => k))
  (at level 100, m at next level, right associativity).
Notation "m ;; k" := (bind m (fun _ => k))
  (at level 100, right associativity).

(** [time.sleep(s)] *)
Definition sleep (s : Z) : M unit := modify (add_slept s).

(** [self.leds.<which>.set(colour)] *)
Definition leds_set (which : LEDs -> LED) (colour : Colour) : M unit :=
  fun w =>
    let '(d, r) := LED_set (which (leds w)) colour (driver (leds w)) in
    (set_driver d w, match r with inl _ => Raise | inr _ => Return tt end).

(** ** The collaborators

    The modem driver, the I2S bridge driver, the I2C bus and the
    recording are outside this module: each call of the self-test to them
    is given by its outcome. *)

(** The files of the soundcard driver and of its test recording: the lock
    file, the state file, and the two channels [arecord] separates. *)
Definition LOCK_FILE : string := "/tmp/soundcard.lock".
Definition STATE_FILE : string := "/tmp/soundcard_state.json".
Definition RAW_INTERNAL : string := "/tmp/soundcard_test.raw.0".
Definition RAW_EXTERNAL : string := "/tmp/soundcard_test.raw.1".
Definition soundcard_files : list string :=
  [LOCK_FILE; STATE_FILE; RAW_INTERNAL; RAW_EXTERNAL].

(** What a call leaves of a file. *)
Inductive Left : Type :=
| Untouched
| Removed
| Written (content : string).

(** The files after a call that leaves [left] of the files of the
    soundcard. *)
Definition leave (left : string -> Left) (files : gmap string string)
    : gmap string string :=
  fold_right
    (fun path files =>
       match left path with
       | Untouched => files
       | Removed => delete path files
       | Written content => <[path := content]> files
       end)
    files soundcard_files.

(** A call into the soundcard driver: its outcome, and what it leaves of
    the files of the soundcard, given the files it finds. *)
Record SoundcardCall (A : Type) : Type := mkSoundcardCall {
  outcome : Outcome A;
  leaves : gmap string string -> string -> Left
}.
Arguments mkSoundcardCall {A} outcome leaves.
Arguments outcome {A} s.
Arguments leaves {A} s files path.

Definition call_soundcard {A} (c : SoundcardCall A) : M A :=
  fun w => (set_fs (leave (leaves c (fs w)) (fs w)) w, outcome c).

(** What happens to the results file in [write_results_to_disk]: it is
    written; [open] raises, and the file is as it was; the write raises
    after [open] has emptied the file, and the file holds the first [kept]
    characters of the text; [os.chmod] raises after the file is written. *)
Inductive DiskWrite : Set :=
| WriteOk
| OpenRaises
| WriteRaises (kept : nat)
| ChmodRaises.

(** A read of one byte on the I2C bus. *)
Inductive BusRead : Set :=
| ReadOk
| ReadOSError (errno : Z)
| ReadOtherError.

Record Hardware : Type := mkHardware {
  (** [subprocess.run(["sudo", "systemctl", "stop", "ModemManager"], check=True)] *)
  stop_ModemManager : Outcome unit;
  Modem_new : Outcome unit;
  power_off : Outcome bool;
  power_on : Outcome bool;
  is_enumerated : Outcome bool;
  is_responding : Outcome bool;
  sim_present : Outcome bool;
  (** the n-th call of [modem.get_rssi()], counted from 0 *)
  get_rssi : nat -> Outcome (option Z);
  power_off_final : Outcome bool;
  PCMD3180_new : Outcome unit;
  pcmd_power_on : Outcome unit;
  read_byte : Z -> BusRead;
  pcmd_power_off : Outcome unit;
  pcmd_close : Outcome unit;
  (** [Soundcard()], which takes the lock and may write the state file *)
  Soundcard_new : SoundcardCall unit;
  (** the four channel switches before the measurement, the last of which
      writes the state file *)
  soundcard_channels : SoundcardCall unit;
  (** [soundcard.measure_variance()], which records into the two raw
      files: [None], or the internal and the external variance *)
  measure_variance : SoundcardCall (option (Q * Q));
  soundcard_close : SoundcardCall unit;
  (** what becomes of the write of the results file *)
  results_write : DiskWrite
}.

(** ** The self-test *)

Section SelfTest.

Variable hw : Hardware.
(** the value of [discover_serial()] *)
Variable serial : string.
(** the number of bytes a text file is read by: [Py.CHUNK_SIZE] in CPython *)
Variable chunk_size : nat.

(** [bool(rssi)] for a reading that is [None] or an [int]. *)
Definition reading_truthy (rssi : option Z) : bool :=
  match rssi with None => false | Some v => truthy v end.

(** [rssi != 99] *)
Definition reading_ne (rssi : option Z) (v : Z) : bool :=
  match rssi with None => true | Some r => negb (r =? v) end.

(** [rssi is not None] *)
Definition is_not_None (rssi : option Z) : bool :=
  match rssi with None => false | Some _ => true end.

(** The loop [while tries > 0] of [test_modem].  [n] counts the calls of
    [get_rssi] made so far, and [rssi] is the variable of that name,
    [None] as long as nothing was assigned to it. *)
Fixpoint poll_rssi (tries : nat) (n : nat) (rssi : option (option Z))
    : M (option (option Z)) :=
  match tries with
  | O => ret rssi
  | S tries' =>
      r <- call (get_rssi hw n) ;;
      sleep 1 ;;
      if reading_truthy r && reading_ne r 99
      then ret (Some r)
      else poll_rssi tries' (S n) (Some r)
  end.

(** The part of [test_modem] after ModemManager is stopped. *)
Definition test_modem_tests : M bool :=
  call (Modem_new hw) ;;
  off <- call (power_off hw) ;;
  enumerates <- (if off
                 then on <- call (power_on hw) ;;
                      if on then call (is_enumerated hw) else ret on
                 else ret off) ;;
  modify (set_results (fun r =>
    mkResults enumerates (modem_responsive r) (modem_sim_readable r)
      (modem_towers_found r) (i2s_bridge_responding r) (rtc_responding r)
      (led_controller_responding r) (internal_microphone_recording r)
      (external_microphone_recording r))) ;;
  responsive <- call (is_responding hw) ;;
  modify (set_results (fun r =>
    mkResults (modem_enumerates r) responsive (modem_sim_readable r)
      (modem_towers_found r) (i2s_bridge_responding r) (rtc_responding r)
      (led_controller_responding r) (internal_microphone_recording r)
      (external_microphone_recording r))) ;;
  sim <- call (sim_present hw) ;;
  modify (set_results (fun r =>
    mkResults (modem_enumerates r) (modem_responsive r) sim
      (modem_towers_found r) (i2s_bridge_responding r) (rtc_responding r)
      (led_controller_responding r) (internal_microphone_recording r)
      (external_microphone_recording r))) ;;
  last <- poll_rssi 6 0 None ;;
  rssi <- (match last with Some r => ret r | None => raise end) ;;
  modify (set_results (fun r =>
    mkResults (modem_enumerates r) (modem_responsive r) (modem_sim_readable r)
      (is_not_None rssi && reading_ne rssi 99)
      (i2s_bridge_responding r) (rtc_responding r)
      (led_controller_responding r) (internal_microphone_recording r)
      (external_microphone_recording r))) ;;
  call (power_off_final hw) ;;
  ret true.

(** [FactoryTest.test_modem] *)
Definition test_modem : M bool :=
  try_except
    (stopped <- try_except (call (stop_ModemManager hw) ;; ret true) (ret false) ;;
     if stopped then test_modem_tests else ret false)
    (ret false).

(** [i2c_device_present(addr)] *)
Definition i2c_device_present (addr : Z) : bool :=
  match read_byte hw addr with
  | ReadOk => true
  | ReadOSError errno => errno =? 16
  | ReadOtherError => false
  end.

Definition pcf8574_addr : Z := 35.
Definition pcmd3180_addr : Z := 76.
Definition ds3231_addr : Z := 104.

(** [FactoryTest.test_i2c_devices] *)
Definition test_i2c_devices : M bool :=
  try_except
    (call (PCMD3180_new hw) ;;
     call (pcmd_power_on hw) ;;
     modify (set_results (fun r =>
       mkResults (modem_enumerates r) (modem_responsive r) (modem_sim_readable r)
         (modem_towers_found r) (i2c_device_present pcmd3180_addr)
         (rtc_responding r) (led_controller_responding r)
         (internal_microphone_recording r) (external_microphone_recording r))) ;;
     modify (set_results (fun r =>
       mkResults (modem_enumerates r) (modem_responsive r) (modem_sim_readable r)
         (modem_towers_found r) (i2s_bridge_responding r)
         (i2c_device_present ds3231_addr) (led_controller_responding r)
         (internal_microphone_recording r) (external_microphone_recording r))) ;;
     modify (set_results (fun r =>
       mkResults (modem_enumerates r) (modem_responsive r) (modem_sim_readable r)
         (modem_towers_found r) (i2s_bridge_responding r) (rtc_responding r)
         (i2c_device_present pcf8574_addr)
         (internal_microphone_recording r) (external_microphone_recording r))) ;;
     call (pcmd_power_off hw) ;;
     call (pcmd_close hw) ;;
     ret true)
    (ret false).

(** [variance > 100] *)
Definition above_100 (variance : Q) : bool := negb (Qle_bool variance (100 # 1)).

(** [FactoryTest.test_recording] *)
Definition test_recording : M bool :=
  try_except
    (call_soundcard (Soundcard_new hw) ;;
     call_soundcard (soundcard_channels hw) ;;
     variances <- call_soundcard (measure_variance hw) ;;
     match variances with
     | None => ret false
     | Some (internal, external) =>
         modify (set_results (fun r =>
           mkResults (modem_enumerates r) (modem_responsive r) (modem_sim_readable r)
             (modem_towers_found r) (i2s_bridge_responding r) (rtc_responding r)
             (led_controller_responding r) (above_100 internal)
             (external_microphone_recording r))) ;;
         modify (set_results (fun r =>
           mkResults (modem_enumerates r) (modem_responsive r) (modem_sim_readable r)
             (modem_towers_found r) (i2s_bridge_responding r) (rtc_responding r)
             (led_controller_responding r) (internal_microphone_recording r)
             (above_100 external))) ;;
         call_soundcard (soundcard_close hw) ;;
         ret true
     end)
    (ret false).

(** [FactoryTest.test_passed] *)
Definition test_passed (w : World) : bool := all_passed w.

(** [FactoryTest.get_results_string] *)
Definition get_results_string (w : World) : string :=
  Py.nl +:+ "Factory Self-Test Results:" +:+ Py.nl
  +:+ "--------------------------" +:+ Py.nl
  +:+ "Device Serial: " +:+ serial +:+ Py.nl
  +:+ Py.join Py.nl
        (map (fun kv => fst kv +:+ ": " +:+ Py.str_bool (snd kv)) (items (results w)))
  +:+ Py.nl +:+ "all_tests_passed: " +:+ Py.str_bool (test_passed w)
  +:+ Py.nl
  +:+ "-----------------------" +:+ Py.nl
  +:+ (if test_passed w then "Factory Self-Test PASS!" else "Factory Self-Test FAIL!")
  +:+ Py.nl +:+ Py.nl.

(** The two parts of the results string around the device serial: what
    comes before it, and what comes after the line feed that ends its
    line. *)
Definition results_header : string :=
  Py.nl +:+ "Factory Self-Test Results:" +:+ Py.nl
  +:+ "--------------------------" +:+ Py.nl
  +:+ "Device Serial: ".

Definition results_lines (w : World) : string :=
  Py.join Py.nl
    (map (fun kv => fst kv +:+ ": " +:+ Py.str_bool (snd kv)) (items (results w)))
  +:+ Py.nl +:+ "all_tests_passed: " +:+ Py.str_bool (test_passed w)
  +:+ Py.nl
  +:+ "-----------------------" +:+ Py.nl
  +:+ (if test_passed w then "Factory Self-Test PASS!" else "Factory Self-Test FAIL!")
  +:+ Py.nl +:+ Py.nl.

(** The files after the [try] block of [write_results_to_disk] on the
    text [text]. *)
Definition written (how : DiskWrite) (text : string) (files : gmap string string)
    : gmap string string :=
  match how with
  | WriteOk | ChmodRaises => <[results_file := text]> files
  | OpenRaises => files
  | WriteRaises kept => <[results_file := substring 0 kept text]> files
  end.

(** [FactoryTest.write_results_to_disk]: the file is replaced by the
    results string, unless [open], the write or [os.chmod] raises; the
    exception is logged and the function returns in every case. *)
Definition write_results_to_disk : M unit :=
  modify (fun w =>
    set_fs (written (results_write hw) (get_results_string w) (fs w)) w).

(** The body of the loop of [passed_at_factory] on a line that holds
    ['all_tests_passed']: the unpacking of the split raises unless it has
    two parts. *)
Definition parse_passed (line : string) : Outcome bool :=
  match Py.split ":" line with
  | [_; value] => Return (String.eqb (Py.lower (Py.strip value)) "true")
  | _ => Raise
  end.

(** [for line in file] of [passed_at_factory] on the lines the file
    yields: [None] is the loop coming to its end. *)
Fixpoint scan_results (lines : list string) : Outcome (option bool) :=
  match lines with
  | [] => Return None
  | line :: rest =>
      if Py.contains "all_tests_passed" line
      then match parse_passed line with
           | Return passed => Return (Some passed)
           | Raise => Raise
           end
      else scan_results rest
  end.

(** [FactoryTest.passed_at_factory]: a missing file raises
    [FileNotFoundError]; both handlers return [False].  A loop that comes
    to its end because the file does makes the function fall off its end,
    which returns Python's [None]; a loop that ends in [UnicodeDecodeError]
    returns [False], as does a line that does not unpack. *)
Definition passed_at_factory (w : World) : option bool :=
  match fs w !! results_file with
  | None => Some false
  | Some content =>
      let '(lines, at_end) := Py.read_text_lines chunk_size content in
      match scan_results lines with
      | Return (Some passed) => Some passed
      | Return None => if at_end then None else Some false
      | Raise => Some false
      end
  end.

(** [{k: v for k, v in results.items() if category in k}] followed by
    [[k for k, v in ... if not v]]. *)
Definition failures (category : string) (r : Results) : list string :=
  map fst
    (List.filter (fun kv => negb (snd kv))
       (List.filter (fun kv => Py.contains category (fst kv)) (items r))).

(** [bool(l)] for a list. *)
Definition nonempty {A} (l : list A) : bool :=
  match l with [] => false | _ :: _ => true end.

(** [l[0]] *)
Definition first (l : list string) : M string :=
  match l with x :: _ => ret x | [] => raise end.

(** [match subject: case k: self.leds.middle.set(colour) ...], without
    a default case. *)
Definition match_middle (subject : string) (cases : list (string * Colour)) : M unit :=
  match List.find (fun c => String.eqb subject (fst c)) cases with
  | Some (_, colour) => leds_set middle colour
  | None => ret tt
  end.

Definition modem_cases : list (string * Colour) :=
  [ ("modem_enumerates", RED); ("modem_responsive", MAGENTA);
    ("modem_sim_readable", BLUE); ("modem_towers_found", YELLOW) ].
Definition i2c_cases : list (string * Colour) :=
  [ ("i2s_bridge_responding", RED); ("rtc_responding", CYAN);
    ("led_controller_responding", MAGENTA) ].
Definition recording_cases : list (string * Colour) :=
  [ ("internal_microphone_recording", RED);
    ("external_microphone_recording", YELLOW) ].

(** One of the three branches for a single failing category. *)
Definition show_category (colour : Colour) (failed : list string)
    (cases : list (string * Colour)) : M unit :=
  leds_set top colour ;;
  if (1 <? Z.of_nat (length failed))
  then leds_set middle WHITE
  else (k <- first failed ;; match_middle k cases).

(** [FactoryTest.display_results_on_leds] *)
Definition display_results_on_leds : M unit :=
  w <- get ;;
  if test_passed w then
    leds_set top GREEN ;;
    leds_set middle BLACK
  else
    let modem_failures := failures "modem" (results w) in
    let i2c_failures := failures "responding" (results w) in
    let recording_failures := failures "recording" (results w) in
    if (1 <? fold_right Z.add 0
               (map (fun l => Z.b2z (nonempty l))
                  [modem_failures; i2c_failures; recording_failures]))
    then
      leds_set top WHITE ;;
      leds_set middle BLACK
    else if nonempty modem_failures then
      show_category YELLOW modem_failures modem_cases
    else if nonempty i2c_failures then
      show_category RED i2c_failures i2c_cases
    else if nonempty recording_failures then
      show_category BLUE recording_failures recording_cases
    else ret tt.

(** The list [completed] of [run]: whether each of the three groups of
    tests ran to its end. *)
Definition run_tests : M (list bool) :=
  c1 <- test_modem ;;
  c2 <- test_i2c_devices ;;
  c3 <- test_recording ;;
  ret [c1; c2; c3].

(** [FactoryTest.run] *)
Definition run : M bool :=
  leds_set top MAGENTA ;;
  leds_set middle BLACK ;;
  completed <- run_tests ;;
  if all completed then
    modify (fun w => set_all_passed (all (values (results w))) w) ;;
    display_results_on_leds ;;
    write_results_to_disk ;;
    ret true
  else
    leds_set top MAGENTA ;;
    leds_set middle RED ;;
    ret false.

End SelfTest.

(** ** The encoding of a result set on the LEDs, in the words of the
    specification *)

(** The three categories of tests. *)
Inductive Category : Set := Modem | Bus | Recording.

(** The tests of a category, with their results. *)
Definition tests_of (c : Category) (r : Results) : list (string * bool) :=
  match c with
  | Modem =>
      [ ("modem_enumerates", modem_enumerates r);
        ("modem_responsive", modem_responsive r);
        ("modem_sim_readable", modem_sim_readable r);
        ("modem_towers_found", modem_towers_found r) ]
  | Bus =>
      [ ("i2s_bridge_responding", i2s_bridge_responding r);
        ("rtc_responding", rtc_responding r);
        ("led_controller_responding", led_controller_responding r) ]
  | Recording =>
      [ ("internal_microphone_recording", internal_microphone_recording r);
        ("external_microphone_recording", external_microphone_recording r) ]
  end.

(** The tests of a category that failed. *)
Definition failed_tests (c : Category) (r : Results) : list string :=
  map fst (List.filter (fun kv => negb (snd kv)) (tests_of c r)).

Definition fails (c : Category) (r : Results) : Prop := failed_tests c r <> [].

Definition category_colour (c : Category) : Colour :=
  match c with Modem => YELLOW | Bus => RED | Recording => BLUE end.

(** The colour of the middle LED that tells which single test failed. *)
Definition test_colour (test : string) : option Colour :=
  snd <$> List.find (fun c => String.eqb test (fst c))
            (modem_cases ++ i2c_cases ++ recording_cases).

(** What the top and the middle LED are to show for a result set: GREEN
    when nothing failed, WHITE when more than one category has failures,
    and for a single category its colour on the top LED and, on the middle
    LED, the colour of the failed test or WHITE when several tests of the
    category failed. *)
Definition encoding (r : Results) : option Colour * option Colour :=
  let single (c : Category) :=
    (Some (category_colour c),
     match failed_tests c r with [t] => test_colour t | _ => Some WHITE end) in
  match nonempty (failed_tests Modem r), nonempty (failed_tests Bus r),
        nonempty (failed_tests Recording r) with
  | false, false, false => (Some GREEN, Some BLACK)
  | true, false, false => single Modem
  | false, true, false => single Bus
  | false, false, true => single Recording
  | _, _, _ => (Some WHITE, Some BLACK)
  end.

(** The result set with the one failure [rtc_responding]. *)
Definition only_rtc_fails : Results :=
  mkResults true true true true true false true true true.

(** The world of a self-test whose verdict has just been taken: [run]
    assigns [all_passed] right before it shows the results. *)
Definition judged (r : Results) (port : Driver) (files : gmap string string)
    (s : Z) : World :=
  mkWorld r (all (values r))
          (mkLEDs port (top LEDs_new) (middle LEDs_new) (bottom LEDs_new)) files s.

(** ** Frame conditions *)

(** A statement that leaves the verdict and the LEDs alone, and every
    file but those of the soundcard. *)
Definition keeps {A} (m : M A) : Prop :=
  forall w, all_passed (fst (m w)) = all_passed w
            /\ leds (fst (m w)) = leds w
            /\ forall path, path ∉ soundcard_files ->
                            fs (fst (m w)) !! path = fs w !! path.

(** A statement that leaves every file alone. *)
Definition keeps_files {A} (m : M A) : Prop :=
  forall w, fs (fst (m w)) = fs w.

(** A statement that always returns. *)
Definition returns {A} (m : M A) : Prop :=
  forall w, exists a, snd (m w) = Return a.

(** The top and the middle LED are those of [LEDs]: all their channels
    are pins. *)
Definition wired (w : World) : Prop :=
  top (leds w) = top LEDs_new /\ middle (leds w) = middle LEDs_new.

(** Two worlds that differ by the port of the LED driver at most. *)
Definition led_only (w w' : World) : Prop :=
  results w' = results w /\ all_passed w' = all_passed w /\ fs w' = fs w
  /\ wired w'.

(** A statement on the top and the middle LED: it returns and changes
    the port of the driver at most. *)
Definition led_statement (m : M unit) : Prop :=
  forall w, wired w -> exists w', m w = (w', Return tt) /\ led_only w w'.

(** A statement that leaves the entries of a category of tests alone. *)
Definition spares (c : Category) {A} (m : M A) : Prop :=
  forall w, tests_of c (results (fst (m w))) = tests_of c (results w).

(** ** Sample hardware *)

(** The text [json.dump] writes for the state of a soundcard at gain 0
    without phantom power. *)
Definition state_json : string :=
  let q := String (ascii_of_nat 34) EmptyString in
  "{" +:+ q +:+ "gain" +:+ q +:+ ": 0, " +:+ q +:+ "phantom" +:+ q +:+ ": 0}".

(** A soundcard whose calls all return.  [Soundcard()] takes the lock and
    writes the state file if there is none. *)
Definition soundcard_starts : SoundcardCall unit :=
  mkSoundcardCall (Return tt)
    (fun files path =>
       if String.eqb path LOCK_FILE then Written EmptyString
       else if String.eqb path STATE_FILE
            then match files !! STATE_FILE with
                 | None => Written state_json
                 | Some _ => Untouched
                 end
            else Untouched).

(** The channel switches write the state file. *)
Definition soundcard_switches : SoundcardCall unit :=
  mkSoundcardCall (Return tt)
    (fun _ path => if String.eqb path STATE_FILE then Written state_json else Untouched).

(** The measurement gives [variances]; when it gives any, it has recorded
    the two channels. *)
Definition soundcard_records (variances : option (Q * Q))
    : SoundcardCall (option (Q * Q)) :=
  mkSoundcardCall (Return variances)
    (fun _ path =>
       match variances with
       | Some _ =>
           if String.eqb path RAW_INTERNAL || String.eqb path RAW_EXTERNAL
           then Written (Py.bytes [52; 0; 205; 255; 49; 0; 207; 255]%nat)
           else Untouched
       | None => Untouched
       end).

(** [close()] releases the lock. *)
Definition soundcard_closes : SoundcardCall unit :=
  mkSoundcardCall (Return tt)
    (fun _ path => if String.eqb path LOCK_FILE then Removed else Untouched).

(** A unit on which every call succeeds and every test passes. *)
Definition good_unit : Hardware :=
  {| stop_ModemManager := Return tt;
     Modem_new := Return tt;
     power_off := Return true;
     power_on := Return true;
     is_enumerated := Return true;
     is_responding := Return true;
     sim_present := Return true;
     get_rssi := fun _ => Return (Some 20);
     power_off_final := Return true;
     PCMD3180_new := Return tt;
     pcmd_power_on := Return tt;
     read_byte := fun _ => ReadOk;
     pcmd_power_off := Return tt;
     pcmd_close := Return tt;
     Soundcard_new := soundcard_starts;
     soundcard_channels := soundcard_switches;
     measure_variance := soundcard_records (Some (2500 # 1, 1800 # 1)%Q);
     soundcard_close := soundcard_closes;
     results_write := WriteOk |}.

(** The same unit at the edge of coverage: the first reading of the
    signal strength is 0, the lowest strength the modem reports, and the
    five readings after it are 99, "not known". *)
Definition weak_signal_unit : Hardware :=
  {| stop_ModemManager := Return tt;
     Modem_new := Return tt;
     power_off := Return true;
     power_on := Return true;
     is_enumerated := Return true;
     is_responding := Return true;
     sim_present := Return true;
     get_rssi := fun n => Return (Some (match n with O => 0 | _ => 99 end));
     power_off_final := Return true;
     PCMD3180_new := Return tt;
     pcmd_power_on := Return tt;
     read_byte := fun _ => ReadOk;
     pcmd_power_off := Return tt;
     pcmd_close := Return tt;
     Soundcard_new := soundcard_starts;
     soundcard_channels := soundcard_switches;
     measure_variance := soundcard_records (Some (2500 # 1, 1800 # 1)%Q);
     soundcard_close := soundcard_closes;
     results_write := WriteOk |}.



End Factory.

(** * apps/buggd/main.py *)

Module Buggd.
Import Py(Outcome, Raise, Return).

Definition REBOOT_ALLOWED : bool := true.
Definition ERROR_WAIT_REBOOT_S : Z := 300.
Definition REC_LED_CHS : list Z := [7; 6; 5].
Definition DATA_LED_CHS : list Z := [4; 3; 2].
Definition DATA_LED_UPLOADING : Z * Z * Z := (0, 1, 1).
Definition DATA_LED_CONN : Z * Z * Z := (0, 0, 1).
Definition LED_ALL_ON : Z * Z * Z := (1, 1, 1).
Definition LED_ALL_OFF : Z * Z * Z := (0, 0, 0).

(** The filesystem: the content of every file, by path. *)
Abbreviation Files := (gmap string string).

(** [open(path, 'rb').read()]: raises when there is no such file, and
    when the file is there but cannot be read ([read_ok] is false). *)
Definition read_file (read_ok : bool) (path : string) (files : Files)
    : Outcome string :=
  match files !! path with
  | Some data => if read_ok then Return data else Raise
  | None => Raise
  end.

(** [os.remove(path)]: raises when there is no such file, and when the
    file is there but cannot be removed ([remove_ok] is false). *)
Definition os_remove (remove_ok : bool) (path : string) (files : Files)
    : Outcome Files :=
  match files !! path with
  | Some _ => if remove_ok then Return (delete path files) else Raise
  | None => Raise
  end.

(** What an upload attempt did, for the log. *)
Inductive Attempt : Set :=
| Sent (path : string)          (* the send returned *)
| SendFailed (path : string)    (* the send raised *)
| NotSent (path : string).      (* the file could not be read: nothing sent *)

#[global] Instance Attempt_eq_dec : EqDecision Attempt.
Proof. solve_decision. Defined.

(** The file was on disk before and is no longer there. *)
Definition removed (path : string) (before after : Files) : Prop :=
  is_Some (before !! path) /\ after !! path = None.

(** ** The uploader of the WebSocketSafe mode *)

(** The body of the inner loop of [ws_uploader] for the path taken off
    the queue; [read_ok], [send_ok] and [remove_ok] tell whether the read of
    the file, [ws.send_binary(data)] and [os.remove(filepath)] return.
    Every exception is caught and logged. *)
Definition ws_upload_file (read_ok send_ok remove_ok : bool) (filepath : string)
    (files : Files) : Files * Attempt :=
  match read_file read_ok filepath files with
  | Raise => (files, NotSent filepath)
  | Return data =>
      if send_ok then
        match os_remove remove_ok filepath files with
        | Return files' => (files', Sent filepath)
        | Raise => (files, Sent filepath)
        end
      else (files, SendFailed filepath)
  end.

(** The same for [ws_uploader_continuous]: the item is the data itself and
    no file is involved. *)
Definition ws_upload_data (read_ok send_ok remove_ok : bool) (data : string)
    (files : Files) : Files * Attempt :=
  (files, if send_ok then Sent data else SendFailed data).

(** ** The sync pass of the HttpPolling mode *)

Section HttpSync.

(** The state of the network and of the server. *)
Variable Net : Type.
(** [requests.post(upload_url, files={'file': (name, f)}, data=...)]:
    raises, or returns a response with its status code. *)
Variable post : Net -> string -> string -> string -> Net * Outcome Z.
(** Whether, in this state, the file at a path can be read, and whether it
    can be removed. *)
Variable readable : Net -> string -> bool.
Variable removable : Net -> string -> bool.

(** [response.raise_for_status()] *)
Definition raise_for_status (status : Z) : Outcome unit :=
  if (400 <=? status) && (status <? 600) then Raise else Return tt.

(** The body of [for local_f in files]. *)
Definition sync_file (upload_url root local_f : string)
    (st : Net * Files * list Attempt) : Net * Files * list Attempt :=
  let '(net, files, log) := st in
  let local_path := Py.path_join root local_f in
  if Py.endswith local_f ".log" then st
  else
    match read_file (readable net local_path) local_path files with
    | Raise => (net, files, log ++ [NotSent local_path])
    | Return data =>
        match post net upload_url local_f data with
        | (net', Raise) => (net', files, log ++ [SendFailed local_path])
        | (net', Return status) =>
            match raise_for_status status with
            | Raise => (net', files, log ++ [SendFailed local_path])
            | Return _ =>
                match os_remove (removable net' local_path) local_path files with
                | Return files' => (net', files', log ++ [Sent local_path])
                | Raise => (net', files, log ++ [Sent local_path])
                end
            end
        end
    end.

(** [for root, subdirs, files in os.walk(upload_dir): for local_f in
    files: ...], on the directories and file names the walk yields. *)
Definition sync_pass (server_url : string) (walk : list (string * list string))
    (st : Net * Files * list Attempt) : Net * Files * list Attempt :=
  let upload_url := server_url +:+ "/api/bugg/upload" in
  fold_left
    (fun st dir =>
       fold_left (fun st local_f => sync_file upload_url (fst dir) local_f st)
                 (snd dir) st)
    walk st.


(** What holds between the files at the start of a sync pass and a state
    of the pass: every file is as it was, or it is gone and its send
    returned. *)
Definition in_sync (files0 : gmap string string)
    (st : Net * gmap string string * list Attempt) : Prop :=
  forall path,
    snd (fst st) !! path = files0 !! path
    \/ (snd (fst st) !! path = None /\ Sent path ∈ snd st).

End HttpSync.

(** ** The uploader threads as machines

    [ws_uploader] and [ws_uploader_continuous] are the same two nested
    loops around a different loop body.  A thread is at one of the
    following places. *)
Inductive Pc : Set :=
| AtOuterCheck                (* [while not stop_event.is_set()], outer *)
| AtConnect                   (* [websocket.create_connection(...)] *)
| AtInnerCheck                (* [while not stop_event.is_set()], inner *)
| AtGet                       (* [q.get()] *)
| AtSend (item : string)      (* the [try] of the loop body *)
| AtClose                     (* [ws.close()] *)
| AtSleep                     (* [time.sleep(5)] of the handler *)
| AtExit.                     (* the function has returned *)

Inductive Event : Set :=
| EvLed (cols : Z * Z * Z)          (* [set_led(led_driver, data_led_ch, cols)] *)
| EvConnect (t : nat) (ok : bool)   (* a call of [create_connection] at time [t] *)
| EvRetry (t : nat)                 (* the handler "Connection error" entered at [t] *)
| EvAttempt (a : Attempt)
| EvClosed.

(** The thread, the queue and the stop event it shares with the other
    threads, the filesystem, the time in seconds, and the log, latest
    event first. *)
Record Thread : Type := mkThread {
  pc : Pc;
  queue : list string;
  stop_event : bool;
  files : Files;
  clock : nat;
  log : list Event
}.

(** What the rest of the system does during one step of the thread:
    whether the calls on the socket and on the files return, whether a
    producer puts an item on the queue, whether the main thread sets the
    stop event, and how long the step takes. *)
Record Input : Type := mkInput {
  connect_ok : bool;
  read_ok : bool;
  send_ok : bool;
  remove_ok : bool;
  close_ok : bool;
  put : option string;
  set_stop : bool;
  elapsed : nat
}.

Section Uploader.

(** The body of the inner loop. *)
Variable upload : bool -> bool -> bool -> string -> Files -> Files * Attempt.
(** [maxsize] of the queue: a producer blocks while the queue is full. *)
Variable maxsize : nat.

Definition others_step (i : Input) (u : Thread) : Thread :=
  mkThread (pc u)
    (match put i with
     | Some x => if (length (queue u) <? maxsize)%nat then queue u ++ [x] else queue u
     | None => queue u
     end)
    (stop_event u || set_stop i)
    (files u)
    (clock u + elapsed i)%nat
    (log u).

Definition goto (p : Pc) (u : Thread) : Thread :=
  mkThread p (queue u) (stop_event u) (files u) (clock u) (log u).
Definition emit (e : Event) (u : Thread) : Thread :=
  mkThread (pc u) (queue u) (stop_event u) (files u) (clock u) (e :: log u).

Definition thread_step (i : Input) (u : Thread) : Thread :=
  match pc u with
  | AtOuterCheck =>
      if stop_event u
      then goto AtExit (emit (EvLed DATA_LED_CONN) u)
      else goto AtConnect u
  | AtConnect =>
      if connect_ok i
      then goto AtInnerCheck (emit (EvConnect (clock u) true) u)
      else goto AtSleep (emit (EvRetry (clock u)) (emit (EvConnect (clock u) false) u))
  | AtInnerCheck =>
      if stop_event u then goto AtClose u else goto AtGet u
  | AtGet =>
      match queue u with
      | [] => u
      | item :: rest =>
          mkThread (AtSend item) rest (stop_event u) (files u) (clock u) (log u)
      end
  | AtSend item =>
      let '(files', a) :=
        upload (read_ok i) (send_ok i) (remove_ok i) item (files u) in
      mkThread AtInnerCheck (queue u) (stop_event u) files' (clock u)
               (EvAttempt a :: log u)
  | AtClose =>
      if close_ok i
      then goto AtOuterCheck (emit EvClosed u)
      else goto AtSleep (emit (EvRetry (clock u)) u)
  | AtSleep =>
      mkThread AtOuterCheck (queue u) (stop_event u) (files u) (clock u + 5)%nat (log u)
  | AtExit => u
  end.

Definition step (u : Thread) (i : Input) : Thread :=
  thread_step i (others_step i u).

Definition run (inputs : list Input) (u : Thread) : Thread :=
  fold_left step inputs u.

(** The thread when the function is entered: the LED is set to
    "uploading" and the outer loop is about to test the stop event. *)
Definition start (q : list string) (stop : bool) (fs : Files) (now : nat) : Thread :=
  mkThread AtOuterCheck q stop fs now [EvLed DATA_LED_UPLOADING].

End Uploader.

(** [ws_uploader], with the queue of depth 20 of [record_websocket_safe]. *)
Definition ws_uploader := run ws_upload_file 20.
(** [ws_uploader_continuous], with the queue of depth 50 of
    [record_continuous_stream]. *)
Definition ws_uploader_continuous := run ws_upload_data 50.

(** ** Properties of a run, in the words of the specification *)

(** Every connect attempt that follows an entry of the handler
    "Connection error, retrying in 5s" is made at least five seconds after
    that entry.  The log has the latest event first. *)
Fixpoint spaced (log : list Event) : Prop :=
  match log with
  | [] => True
  | EvConnect t _ :: older =>
      (forall t0, EvRetry t0 ∈ older -> (t0 + 5 <= t)%nat) /\ spaced older
  | _ :: older => spaced older
  end.

(** How long ago every entry of the handler must be: any time while the
    thread sleeps after it, five seconds once the sleep is over. *)
Definition rested (u : Thread) : Prop :=
  forall t0, EvRetry t0 ∈ log u ->
             (t0 + match pc u with AtSleep => 0 | _ => 5 end <= clock u)%nat.

(** The number of upload attempts in a log. *)
Fixpoint attempts (log : list Event) : nat :=
  match log with
  | [] => O
  | EvAttempt _ :: older => S (attempts older)
  | _ :: older => attempts older
  end.

(** The number of steps a thread needs at most to return once the stop
    event is set and it is not blocked on the queue. *)
Definition distance (p : Pc) : nat :=
  match p with
  | AtExit => 0
  | AtOuterCheck => 1
  | AtSleep => 2
  | AtClose => 3
  | AtInnerCheck => 4
  | AtConnect => 5
  | AtSend _ => 5
  | AtGet => 6
  end.

(** The items a thread may still handle once the stop event is set: the
    one it holds or is about to take, none otherwise. *)
Definition in_flight (p : Pc) : nat :=
  match p with
  | AtSend _ | AtGet => 1
  | _ => 0
  end.

(** The same input without the producer putting anything on the queue. *)
Definition quiet (i : Input) : Input :=
  mkInput (connect_ok i) (read_ok i) (send_ok i) (remove_ok i) (close_ok i) None
          (set_stop i) (elapsed i).

(** Inputs of a step: every call succeeds and nothing else happens; the
    same with the send failing; the same with the main thread setting the
    stop event. *)
Definition calm : Input := mkInput true true true true true None false 0.
Definition send_fails : Input := mkInput true true false true true None false 0.
Definition halt : Input := mkInput true true true true true None true 0.

(** The same input with the send raising and the stop event left alone;
    the file can be read. *)
Definition failing (i : Input) : Input :=
  mkInput (connect_ok i) true false (remove_ok i) (close_ok i) (put i) false (elapsed i).

(** The places of the inner loop: the thread holds a connection. *)
Definition connected (p : Pc) : Prop :=
  match p with
  | AtInnerCheck | AtGet | AtSend _ => True
  | _ => False
  end.

(** The calls of [create_connection] in a log. *)
Fixpoint connects (log : list Event) : list Event :=
  match log with
  | [] => []
  | EvConnect t ok :: older => EvConnect t ok :: connects older
  | _ :: older => connects older
  end.

(** A log without an entry of the handler of connection errors, without a
    closed connection and without a send that returned. *)
Definition unbroken (log : list Event) : Prop :=
  forall e, e ∈ log ->
            match e with
            | EvRetry _ | EvClosed | EvAttempt (Sent _) => False
            | _ => True
            end.

(** The time the steps of a run take without any sleep of the thread. *)
Definition total_elapsed (inputs : list Input) : nat :=
  fold_right (fun i t => (elapsed i + t)%nat) O inputs.

(** ** The error blink *)

Inductive Action : Set :=
| SetLed (chs : list Z) (cols : Z * Z * Z)   (* [set_led(led_driver, chs, cols)] *)
| Sleep (s : Z)                              (* [time.sleep(s)] *)
| CmdLine (cmd : string).                    (* [call_cmd_line(cmd)] *)

(** Where a computation is after a number of steps: it has returned, or
    it is still running. *)
Inductive Progress (A : Type) : Type :=
| Returned (a : A)
| Running (a : A).
Arguments Returned {A} a.
Arguments Running {A} a.

(** A [while] loop run for at most [fuel] tests of its condition, with the
    state it has reached. *)
Fixpoint while {St : Type} (fuel : nat) (cond : St -> bool) (body : St -> St) (s : St)
    : Progress St :=
  match fuel with
  | O => Running s
  | S fuel' => if cond s then while fuel' cond body (body s) else Returned s
  end.

(** The local variables of [blink_error_leds] and what it did so far. *)
Record Blink : Type := mkBlink {
  running_t : Z;
  state : bool;
  did : list Action
}.

Definition blink_once (b : Blink) : Blink :=
  let led_cols := if state b then LED_ALL_ON else LED_ALL_OFF in
  mkBlink (running_t b + 1) (negb (state b))
          (did b ++ [SetLed REC_LED_CHS led_cols; SetLed DATA_LED_CHS led_cols; Sleep 1]).

(** The body of [while True: time.sleep(60)]. *)
Definition sleep_once (b : Blink) : Blink :=
  mkBlink (running_t b) (state b) (did b ++ [Sleep 60]).

(** [blink_error_leds(led_driver, error_e, dur)], with the module constant
    [REBOOT_ALLOWED] as a parameter: what the function did, and whether it
    has returned after [fuel] tests of the condition of its loop. *)
Definition blink_error_leds (reboot_allowed : bool) (dur : option Z) (fuel : nat)
    : Progress (list Action) :=
  let b0 := mkBlink 0 true [] in
  let loop :=
    match dur with
    | Some d => while fuel (fun b => running_t b <? d) blink_once b0
    | None => while fuel (fun _ => true) sleep_once b0
    end in
  match loop with
  | Returned b =>
      Returned (if reboot_allowed then did b ++ [CmdLine "sudo reboot"] else did b)
  | Running b => Running (did b)
  end.

(** ** The items of a run *)

(** The item of an attempt. *)
Definition item_of (a : Attempt) : string :=
  match a with Sent p | SendFailed p | NotSent p => p end.

(** The items a thread has handled, in the order it handled them (the log
    has the latest event first). *)
Fixpoint handled (log : list Event) : list string :=
  match log with
  | [] => []
  | EvAttempt a :: older => handled older ++ [item_of a]
  | _ :: older => handled older
  end.

(** The item a thread holds. *)
Definition held (p : Pc) : list string :=
  match p with AtSend item => [item] | _ => [] end.

(** The item the queue takes during a step: the one a producer puts, when
    the queue is not full. *)
Definition arrival (maxsize : nat) (i : Input) (u : Thread) : list string :=
  match put i with
  | Some x => if (length (queue u) <? maxsize)%nat then [x] else []
  | None => []
  end.

(** The items the queue takes during a run, in order. *)
Fixpoint arrivals (upload : bool -> bool -> bool -> string -> Files -> Files * Attempt)
    (maxsize : nat)
    (inputs : list Input) (u : Thread) : list string :=
  match inputs with
  | [] => []
  | i :: rest =>
      arrival maxsize i u ++ arrivals upload maxsize rest (step upload maxsize u i)
  end.



(** The upload attempts of a log. *)
Fixpoint attempted (log : list Event) : list Attempt :=
  match log with
  | [] => []
  | EvAttempt a :: older => a :: attempted older
  | _ :: older => attempted older
  end.

(** The paths a sync pass is to upload: the files the walk yields, without
    the log files, in the order of the walk. *)
Definition uploadable (walk : list (string * list string)) : list string :=
  flat_map
    (fun dir =>
       map (Py.path_join (fst dir))
           (List.filter (fun local_f => negb (Py.endswith local_f ".log")) (snd dir)))
    walk.

(** ** The directories of the daemon *)

(** The three paths [auto_sys_config] returns: the working directory, the
    upload directory and the data directory.  [proj_id] and [conf_id] are the
    identifiers of the configuration file as [format] prints them (both are
    ['na'] without a configuration file), and [cpu_id] is the value of
    [discover_serial()]. *)
Definition auto_sys_config (sd_mnt_dir : string) (use_sd_card : bool)
    (proj_id conf_id cpu_id : string) : string * string * string :=
  let working_dir_name := "rpi-ecosystem-monitoring_tmp" in
  let upload_dir_name := "audio" in
  let working_dir := Py.path_join "/tmp" working_dir_name in
  let upload_dir_local := upload_dir_name in
  let upload_dir :=
    if use_sd_card then Py.path_join sd_mnt_dir upload_dir_name else upload_dir_local in
  let proj_dir := Py.path_join upload_dir ("proj_" +:+ proj_id) in
  let device_dir := Py.path_join proj_dir ("bugg_" +:+ cpu_id) in
  let data_dir := Py.path_join device_dir ("conf_" +:+ conf_id) in
  (working_dir, upload_dir, data_dir).

Definition SD_MNT_LOC : string := "/mnt/sd/".

(** [n] rounds of the blink: both status LEDs set all on or all off, in
    turn, and a sleep of one second after each. *)
Fixpoint blink_rounds (n : nat) (on : bool) : list Action :=
  match n with
  | O => []
  | S n' =>
      let led_cols := if on then LED_ALL_ON else LED_ALL_OFF in
      SetLed REC_LED_CHS led_cols :: SetLed DATA_LED_CHS led_cols :: Sleep 1
      :: blink_rounds n' (negb on)
  end.

End Buggd.

(** * apps/buggd/main.py: start and exit of the daemon *)

Module Daemon.
Import Leds.
Import Py(Outcome, Raise, Return).
Import Factory.

(** A statement on the LEDs as a statement on the world: the LEDs object of
    the daemon is the one the self-test holds. *)
Definition on_leds (s : LedsStmt) : M unit :=
  fun w =>
    let '(l, r) := s (leds w) in
    (mkWorld (results w) (all_passed w) l (fs w) (slept w),
     match r with inl _ => Raise | inr _ => Return tt end).


(** The part of [main] that shows the outcome of the factory test at boot,
    up to the sleep of four seconds; [chunk_size] is the number of bytes a
    text file is read by. *)
Definition boot_status (chunk_size : nat) : M unit :=
  on_leds (LEDs_set top MAGENTA) ;;
  on_leds (LEDs_set bottom RED) ;;
  w <- get ;;
  match passed_at_factory chunk_size w with
  | Some true => on_leds (LEDs_set middle GREEN)
  | _ => on_leds (LEDs_set middle RED)
  end.

(** The same part with the sleep and what follows it:
    [time.sleep(4); leds.all_off()]. *)
Definition boot_status_display (chunk_size : nat) : M unit :=
  boot_status chunk_size ;;
  sleep 4 ;;
  on_leds LEDs_all_off.

End Daemon.

(** * drivers/soundcard.py *)

Module Soundcard.
Import Py(Outcome, Raise, Return).

Definition EXT_MIC_EN : Z := 12.

(** The phantom power modes. *)
Definition NONE : string := "NONE".
Definition PIP : string := "PIP".
Definition P3V3 : string := "P3V3".
Definition P48 : string := "P48".

(** A value of the state: an [int], or a value that is not one (a float,
    a string, a list, a dict or [None]), as [json.load] may give it. *)
Inductive Value : Type :=
| Int (z : Z)
| NotInt.

(** The dict [{'gain': ..., 'phantom': ...}] that the class keeps in
    [self.state] and dumps to the state file. *)
Record State : Type := mkState {
  st_gain : Value;
  st_phantom : Value
}.

(** The state file [/tmp/soundcard_state.json]: a JSON object with the
    entries ['gain'] and ['phantom']; a text on which [json.load] raises
    [JSONDecodeError]; or a file the state cannot be taken from, because
    its bytes are not UTF-8 ([UnicodeDecodeError]) or because it is a JSON
    document other than an object with both entries ([KeyError],
    [TypeError]). *)
Inductive StateFile : Type :=
| Dumped (s : State)
| NotJson
| NoState.

(** What the class acts on: the transfers made on the SPI bus, oldest
    first, the level last written to the pin [EXT_MIC_EN] ([None] before the
    first write), and the state file ([None] when it does not exist). *)
Record Board : Type := mkBoard {
  spi : list (list Z);
  ext_mic_en : option Z;
  state_file : option StateFile
}.

(** The fields of a [Soundcard] object. *)
Record Soundcard : Type := mkSoundcard {
  gain : Value;
  zc_gain : Z;
  zc_gpo : Z;
  phantom_mode : Value;
  state : State
}.

Definition Card : Type := Soundcard * Board.

(** [Soundcard.store_state] *)
Definition store_state (c : Card) : Card :=
  let '(sc, b) := c in
  (sc, mkBoard (spi b) (ext_mic_en b) (Some (Dumped (state sc)))).

(** [Soundcard.load_state]: [JSONDecodeError] is caught and the state is
    then the one the object has; every other exception of [json.load] and
    of the two lookups in the loaded state is raised. *)
Definition load_state (c : Card) : Outcome Card :=
  let '(sc, b) := c in
  match state_file b with
  | Some NoState => Raise
  | Some file =>
      let loaded := match file with Dumped s => s | _ => state sc end in
      Return (mkSoundcard (st_gain loaded) (zc_gain sc) (zc_gpo sc) (st_phantom loaded)
                          loaded, b)
  | None =>
      Return (store_state
                (mkSoundcard (Int 0) (zc_gain sc) (zc_gpo sc) (Int 0) (state sc), b))
  end.

(** [Soundcard.__init__]: [lock_acquired] tells whether [Lock] returns;
    when it raises [RuntimeError], so does the constructor.  The I2S
    bridge, the GPIO and the SPI bus are taken to be there. *)
Definition Soundcard_new (lock_acquired : bool) (b : Board) : Outcome Card :=
  if lock_acquired
  then load_state (mkSoundcard (Int 0) 1 1 (Int 0) (mkState (Int 0) (Int 0)), b)
  else Raise.

(** [Soundcard.write_state]: [tx[0] |= self.gain] and
    [tx[1] |= self.phantom_mode] raise [TypeError] on a value that is not
    an [int], before anything is transferred. *)
Definition write_state (c : Card) : Card * Outcome unit :=
  let '(sc, b) := c in
  match gain sc, phantom_mode sc with
  | Int g, Int p =>
      let tx0 := Z.lor 0 g in
      let tx1 := Z.lor (Z.lor (Z.lor 0 (Z.shiftl (zc_gpo sc) 5)) (Z.shiftl (zc_gain sc) 4))
                       p in
      let b' := mkBoard (spi b ++ [[tx0; tx1]]) (ext_mic_en b) (state_file b) in
      (store_state
         (mkSoundcard (gain sc) (zc_gain sc) (zc_gpo sc) (phantom_mode sc)
            (mkState (gain sc) (phantom_mode sc)), b'),
       Return tt)
  | _, _ => (c, Raise)
  end.

(** [Soundcard.set_gain] *)
Definition set_gain (g : Z) (c : Card) : Card * Outcome unit :=
  let '(sc, b) := c in
  if (g <? 0) || (g >? 20) then (c, Raise)
  else write_state
         (mkSoundcard (Int g) (zc_gain sc) (zc_gpo sc) (phantom_mode sc) (state sc), b).

(** The [match mode] of [Soundcard.set_phantom]. *)
Definition phantom_code (mode : string) : option Z :=
  if String.eqb mode NONE then Some 0
  else if String.eqb mode PIP then Some 1
  else if String.eqb mode P3V3 then Some 2
  else if String.eqb mode P48 then Some 4
  else None.

(** [Soundcard.set_phantom] *)
Definition set_phantom (mode : string) (c : Card) : Card * Outcome unit :=
  let '(sc, b) := c in
  match phantom_code mode with
  | Some code =>
      write_state
        (mkSoundcard (gain sc) (zc_gain sc) (zc_gpo sc) (Int code) (state sc), b)
  | None => (c, Raise)
  end.

(** [GPIO.setup(EXT_MIC_EN, GPIO.OUT); GPIO.output(EXT_MIC_EN, level)] *)
Definition output_ext_mic_en (level : Z) (c : Card) : Card :=
  let '(sc, b) := c in (sc, mkBoard (spi b) (Some level) (state_file b)).

(** [Soundcard.enable_external_channel] *)
Definition enable_external_channel (c : Card) : Card * Outcome unit :=
  let c1 := output_ext_mic_en 1 c in
  match set_gain 0 c1 with
  | (c2, Raise) => (c2, Raise)
  | (c2, Return _) =>
      match set_phantom NONE c2 with
      | (c3, Raise) => (c3, Raise)
      | (c3, Return _) => write_state c3
      end
  end.

(** [Soundcard.disable_external_channel] *)
Definition disable_external_channel (c : Card) : Card :=
  output_ext_mic_en 0 c.


(** A call on a soundcard, as [soundcardctl] and the self-test make them;
    [NewInstance] is a later process that builds its own object on the same
    board, and takes the lock or not. *)
Inductive Call : Type :=
| SetGain (g : Z)
| SetPhantom (mode : string)
| EnableExternal
| DisableExternal
| NewInstance (lock_acquired : bool).

(** The card after a call, whether the call returned or raised; a
    constructor that raises leaves the object that was there. *)
Definition after (c : Card) (call : Call) : Card :=
  match call with
  | SetGain g => fst (set_gain g c)
  | SetPhantom mode => fst (set_phantom mode c)
  | EnableExternal => fst (enable_external_channel c)
  | DisableExternal => disable_external_channel c
  | NewInstance lock_acquired =>
      match Soundcard_new lock_acquired (snd c) with
      | Return c' => c'
      | Raise => c
      end
  end.







(** ** [read_16bit_signed_pcm] *)

(** [int.from_bytes(bs, 'little')] *)
Fixpoint from_bytes_little (bs : list Byte.byte) : Z :=
  match bs with
  | [] => 0
  | b :: rest => Z.of_N (Byte.to_N b) + 256 * from_bytes_little rest
  end.

(** [int.from_bytes(bs, 'little', signed=True)] *)
Definition from_bytes_little_signed (bs : list Byte.byte) : Z :=
  let u := from_bytes_little bs in
  let bits := 8 * Z.of_nat (length bs) in
  if (0 <? bits) && (2 ^ (bits - 1) <=? u) then u - 2 ^ bits else u.

(** [[int.from_bytes(content[i:i+2], 'little', signed=True)
      for i in range(0, len(content), 2)]] *)
Fixpoint samples_of (content : list Byte.byte) : list Z :=
  match content with
  | [] => []
  | [b] => [from_bytes_little_signed [b]]
  | b0 :: b1 :: rest => from_bytes_little_signed [b0; b1] :: samples_of rest
  end.

(** [read_16bit_signed_pcm(file_path)]: opening a file that does not exist
    raises [FileNotFoundError]. *)
Definition read_16bit_signed_pcm (file_path : string)
    (files : gmap string (list Byte.byte)) : Outcome (list Z) :=
  match files !! file_path with
  | None => Raise
  | Some content => Return (samples_of content)
  end.

End Soundcard.

(** * Facts about the LED driver *)

Module LedsFacts.
Import Leds.





End LedsFacts.

(** * Facts about strings and text files *)

Module PyFacts.
Import Py.

Lemma append_cons (c : ascii) (s t : string) :
  String c s +:+ t = String c (s +:+ t).
Proof. reflexivity. Qed.

Lemma append_nil (t : string) : EmptyString +:+ t = t.
Proof. reflexivity. Qed.

Lemma append_assoc (s t v : string) : (s +:+ t) +:+ v = s +:+ (t +:+ v).
Proof.
  induction s as [|c s IH]; [reflexivity|].
  rewrite !append_cons, IH. reflexivity.
Qed.

(** ** Characters of a string *)

Lemma char_in_app (c : ascii) (s t : string) :
  char_in c (s +:+ t) = char_in c s || char_in c t.
Proof.
  induction s as [|a s IH]; [reflexivity|].
  rewrite append_cons. cbn [char_in]. rewrite IH. apply orb_assoc.
Qed.

Lemma startswith_char_in (c : ascii) (p : string) :
  forall s : string, startswith p s = true -> char_in c p = true -> char_in c s = true.
Proof.
  induction p as [|a p IH]; intros s Hp Hc; simpl in *; [discriminate|].
  destruct s as [|b s]; [discriminate|].
  apply andb_true_iff in Hp as [Hab Hp].
  apply Ascii.eqb_eq in Hab. subst b. simpl.
  apply orb_true_iff in Hc as [Hc|Hc].
  - rewrite Hc. reflexivity.
  - rewrite (IH s Hp Hc). apply orb_true_r.
Qed.

(** A string that holds [p] holds every character of [p]. *)
Lemma contains_char_in (c : ascii) (p s : string) :
  contains p s = true -> char_in c p = true -> char_in c s = true.
Proof.
  induction s as [|b s IH]; intros Hp Hc.
  - simpl in Hp. eapply startswith_char_in; eauto.
  - cbn [contains] in Hp. apply orb_true_iff in Hp as [Hp|Hp].
    + eapply startswith_char_in; eauto.
    + simpl. rewrite (IH Hp Hc). apply orb_true_r.
Qed.

Lemma contains_single (c : ascii) (s : string) :
  contains (String c EmptyString) s = char_in c s.
Proof.
  induction s as [|b s IH]; [reflexivity|].
  cbn [contains startswith char_in]. rewrite IH.
  destruct s; rewrite ?andb_true_r; rewrite Ascii.eqb_sym; reflexivity.
Qed.


(** ** Line ends *)

Section BeforeLineFeed.

(** a character other than the line feed and a text after a line feed *)
Variable u : ascii.
Hypothesis u_not_LF : Ascii.eqb LF u = false.
Variable rest : string.

(** Translating the line ends of a text followed by a line feed:
    whatever the text is, the translation of what follows the line feed
    starts afresh, and no character is introduced but line feeds. *)
Lemma translate_before_LF (s : string) :
  char_in u s = false ->
  (exists X, char_in u X = false
     /\ translate_newlines false (s +:+ String LF rest)
        = X +:+ String LF (translate_newlines false rest))
  /\ (s <> EmptyString ->
      exists Y, char_in u Y = false
        /\ translate_newlines true (s +:+ String LF rest)
           = Y +:+ String LF (translate_newlines false rest)).
Proof.
  induction s as [|c s IH]; intros Hu.
  - split; [|congruence]. exists EmptyString. split; reflexivity.
  - cbn [char_in] in Hu. apply orb_false_iff in Hu as [Hc Hu].
    destruct (IH Hu) as [[X [HX EX]] IHtrue].
    assert (Hcr : exists Y, char_in u Y = false
              /\ String LF (translate_newlines true (s +:+ String LF rest))
                 = Y +:+ String LF (translate_newlines false rest)).
    { destruct s as [|d s'].
      - exists EmptyString. split; [reflexivity|]. reflexivity.
      - destruct IHtrue as [Y [HY EY]]; [congruence|].
        exists (String LF Y). split.
        + cbn [char_in]. rewrite u_not_LF. exact HY.
        + rewrite EY. reflexivity. }
    assert (Hother : exists Y, char_in u Y = false
              /\ String c (translate_newlines false (s +:+ String LF rest))
                 = Y +:+ String LF (translate_newlines false rest)).
    { exists (String c X). split.
      - cbn [char_in]. rewrite Hc. exact HX.
      - rewrite EX. reflexivity. }
    assert (Hlf : exists Y, char_in u Y = false
              /\ String LF (translate_newlines false (s +:+ String LF rest))
                 = Y +:+ String LF (translate_newlines false rest)).
    { exists (String LF X). split.
      - cbn [char_in]. rewrite u_not_LF. exact HX.
      - rewrite EX. reflexivity. }
    split; [|intros _]; rewrite append_cons; cbn [translate_newlines];
      destruct (Ascii.eqb c CR); try exact Hcr;
      destruct (Ascii.eqb c LF); try exact Hlf; try exact Hother.
    exists X. split; [exact HX | exact EX].
Qed.

(** The lines of a text followed by a line feed and more text: those
    of the text, made of its characters and of line feeds, then the lines
    of what follows. *)
Lemma keepends_before_LF (X : string) :
  char_in u X = false ->
  exists L : list string,
    L <> [] /\ keepends (X +:+ String LF rest) = L ++ keepends rest
    /\ Forall (fun line => char_in u line = false) L.
Proof.
  induction X as [|c X IH]; intros Hu.
  - exists [nl]. split; [discriminate|]. split; [reflexivity|].
    constructor; [|constructor]. cbn [nl char_in]. rewrite u_not_LF. reflexivity.
  - cbn [char_in] in Hu. apply orb_false_iff in Hu as [Hc Hu].
    destruct (IH Hu) as [L [HL [EL FL]]].
    rewrite append_cons. cbn [keepends]. rewrite EL.
    destruct (Ascii.eqb c LF).
    + exists (nl :: L). split; [discriminate|]. split; [reflexivity|].
      constructor; [|exact FL]. cbn [nl char_in]. rewrite u_not_LF. reflexivity.
    + destruct L as [|line L]; [congruence|].
      exists (String c line :: L). split; [discriminate|]. split; [reflexivity|].
      inversion FL; subst. constructor; [|assumption].
      cbn [char_in]. rewrite Hc. assumption.
Qed.

End BeforeLineFeed.

(** ** Decoding *)

(** Where the decoder ends on a text does not depend on the index the text
    starts at. *)
Lemma utf8_run_index (s : string) :
  forall (st st' : Utf8) (i j : nat),
    utf8_run st s i = inl st' -> utf8_run st s j = inl st'.
Proof.
  induction s as [|c s IH]; intros st st' i j H; [exact H|].
  cbn [utf8_run] in *. destruct (utf8_step st c); [|discriminate].
  eapply IH; eauto.
Qed.

Lemma utf8_run_app (a b : string) :
  forall (st st' : Utf8) (i : nat),
    utf8_run st a i = inl st' ->
    utf8_run st (a +:+ b) i = utf8_run st' b (i + String.length a).
Proof.
  induction a as [|c a IH]; intros st st' i H.
  - cbn in H. injection H as ->. rewrite append_nil. cbn [String.length].
    rewrite Nat.add_0_r. reflexivity.
  - rewrite append_cons. cbn [utf8_run String.length] in *.
    destruct (utf8_step st c) as [st1|]; [|discriminate].
    rewrite (IH st1 st' (S i) H). f_equal. lia.
Qed.

(** A text after a text is a text. *)
Lemma utf8_text_app (a b : string) :
  utf8_text a = true -> utf8_text b = true -> utf8_text (a +:+ b) = true.
Proof.
  unfold utf8_text. intros Ha Hb.
  destruct (utf8_run Whole a 0) as [[|]|] eqn:Ea; try discriminate.
  rewrite (utf8_run_app a b _ _ _ Ea).
  destruct (utf8_run Whole b 0) as [[|]|] eqn:Eb; try discriminate.
  rewrite (utf8_run_index b _ _ _ _ Eb). reflexivity.
Qed.

(** A file that is a text is read line by line to its end, however it is
    read in. *)
Lemma read_text_lines_text (chunk : nat) (content : string) :
  utf8_text content = true -> read_text_lines chunk content = (file_lines content, true).
Proof.
  unfold utf8_text, read_text_lines.
  destruct (utf8_run Whole content 0) as [[|]|]; try discriminate. reflexivity.
Qed.

End PyFacts.

(** * Facts about the factory self-test *)

Module FactoryFacts.
Import Leds Py PyFacts Factory.

(** ** The results file *)

Lemma get_results_string_split (serial : string) (w : World) :
  get_results_string serial w
  = (results_header +:+ serial) +:+ String LF (results_lines w).
Proof.
  unfold get_results_string, results_header, results_lines, nl.
  rewrite !append_assoc. reflexivity.
Qed.

(** The lines after the serial are read back as they were written: the
    first of them that holds the key is the line of [all_tests_passed]. *)
Lemma scan_results_lines (w : World) :
  scan_results (file_lines (results_lines w)) = Return (Some (all_passed w)).
Proof.
  unfold results_lines, test_passed, items.
  destruct w as [[e r s t i c l m x] p ? ? ?]. cbn [results all_passed Factory.modem_enumerates
    Factory.modem_responsive Factory.modem_sim_readable Factory.modem_towers_found
    Factory.i2s_bridge_responding Factory.rtc_responding Factory.led_controller_responding
    Factory.internal_microphone_recording Factory.external_microphone_recording].
  destruct e, r, s, t, i, c, l, m, x, p; vm_compute; reflexivity.
Qed.

(** The lines after the serial are text. *)
Lemma results_lines_text (w : World) : utf8_text (results_lines w) = true.
Proof.
  unfold results_lines, test_passed, items.
  destruct w as [[e r s t i c l m x] p ? ? ?]. cbn [results all_passed Factory.modem_enumerates
    Factory.modem_responsive Factory.modem_sim_readable Factory.modem_towers_found
    Factory.i2s_bridge_responding Factory.rtc_responding Factory.led_controller_responding
    Factory.internal_microphone_recording Factory.external_microphone_recording].
  destruct e, r, s, t, i, c, l, m, x, p; vm_compute; reflexivity.
Qed.

(** The results string of a serial that is text is text. *)
Lemma get_results_string_text (serial : string) (w : World) :
  utf8_text serial = true -> utf8_text (get_results_string serial w) = true.
Proof.
  intros Hserial. rewrite get_results_string_split.
  apply utf8_text_app; [apply utf8_text_app; [reflexivity | exact Hserial]|].
  change (String LF (results_lines w)) with (nl +:+ results_lines w).
  apply utf8_text_app; [reflexivity | apply results_lines_text].
Qed.

(** Lines without an underscore are skipped by the scan. *)
Lemma scan_results_skip (L rest : list string) :
  Forall (fun line => char_in "_" line = false) L ->
  scan_results (L ++ rest) = scan_results rest.
Proof.
  induction 1 as [|line L Hline _ IH]; [reflexivity|].
  cbn [app scan_results].
  destruct (contains "all_tests_passed" line) eqn:Hc; [|exact IH].
  rewrite (contains_char_in "_" _ _ Hc eq_refl) in Hline. discriminate.
Qed.

(** What [passed_at_factory] makes of a results file that holds the
    results string of the world [w0]. *)
Lemma passed_at_factory_reads (chunk : nat) (serial : string) (w w0 : World) :
  utf8_text serial = true ->
  contains "_" serial = false ->
  fs w !! results_file = Some (get_results_string serial w0) ->
  passed_at_factory chunk w = Some (all_passed w0).
Proof.
  intros Htext Hserial Hfile. rewrite contains_single in Hserial.
  unfold passed_at_factory. rewrite Hfile.
  rewrite (read_text_lines_text _ _ (get_results_string_text serial w0 Htext)).
  rewrite get_results_string_split. unfold file_lines.
  assert (Hhead : char_in "_" (results_header +:+ serial) = false).
  { rewrite char_in_app, Hserial. reflexivity. }
  destruct (translate_before_LF "_" eq_refl (results_lines w0) _ Hhead)
    as [[X [HX ->]] _].
  destruct (keepends_before_LF "_" eq_refl (translate_newlines false (results_lines w0)) X HX)
    as [L [_ [-> HL]]].
  rewrite (scan_results_skip _ _ HL).
  fold (file_lines (results_lines w0)). rewrite scan_results_lines. reflexivity.
Qed.

(** C6: the results file that [write_results_to_disk] writes, parsed by
    [passed_at_factory] on a new [FactoryTest] object (as the daemon does at
    the next boot), gives the value of [all_tests_passed] that was written,
    whether it is [True] or [False]: for a write that does not fail, a
    device serial that is text and holds no underscore, and whatever the
    number of bytes the file is read by. *)
Theorem write_then_passed_at_factory (hw : Hardware) (serial : string) (chunk : nat)
    (w : World) (l : LEDs) :
  results_write hw = WriteOk \/ results_write hw = ChmodRaises ->
  utf8_text serial = true ->
  contains "_" serial = false ->
  passed_at_factory chunk
    (FactoryTest_new l (fs (fst (write_results_to_disk hw serial w))))
  = Some (all_passed w).
Proof.
  intros Hwrite Htext Hserial.
  apply (passed_at_factory_reads chunk serial _ w Htext Hserial).
  unfold write_results_to_disk, modify, FactoryTest_new. cbn [fst set_fs fs].
  destruct Hwrite as [-> | ->]; apply lookup_insert_eq.
Qed.

Lemma write_then_passed_at_factory_witness :
  passed_at_factory CHUNK_SIZE
    (FactoryTest_new LEDs_new
       (fs (fst (write_results_to_disk good_unit "10000000a1b2c3d4"
                   (mkWorld (mkResults true true true true true true true true true) true
                            LEDs_new ∅ 0)))))
  = Some true.
Proof.
  apply (write_then_passed_at_factory good_unit "10000000a1b2c3d4" CHUNK_SIZE
           (mkWorld (mkResults true true true true true true true true true) true
                    LEDs_new ∅ 0) LEDs_new);
    [left; reflexivity | reflexivity | reflexivity].
Defined.

(** C10: without a results file, [passed_at_factory] returns [False]. *)
Theorem passed_at_factory_no_file (chunk : nat) (w : World) :
  fs w !! results_file = None -> passed_at_factory chunk w = Some false.
Proof. intros H. unfold passed_at_factory. rewrite H. reflexivity. Qed.

Lemma passed_at_factory_no_file_witness :
  passed_at_factory CHUNK_SIZE (FactoryTest_new LEDs_new ∅) = Some false.
Proof. apply passed_at_factory_no_file. reflexivity. Defined.


(** ** The results on the LEDs *)

Lemma display_results_on_leds_shows (r : Results) (port : Driver)
    (files : gmap string string) (s : Z) :
  length port = 8%nat ->
  let w' := fst (display_results_on_leds (judged r port files s)) in
  (LED_shows (top (leds w')) (driver (leds w')),
   LED_shows (middle (leds w')) (driver (leds w'))) = encoding r.
Proof.
  intros Hport.
  do 9 (destruct port as [|? port]; try discriminate Hport). clear Hport.
  destruct r as [[] [] [] [] [] [] [] [] []]; vm_compute; reflexivity.
Qed.


Lemma fails_nonempty (c : Category) (r : Results) :
  fails c r <-> nonempty (failed_tests c r) = true.
Proof.
  unfold fails. destruct (failed_tests c r); simpl; split; congruence.
Qed.

(** C4: for a result set with failures in more than one category the top
    LED is set to WHITE; with failures in exactly one category the top LED
    is set to the colour of the category and the middle LED to the colour
    of the failed test when it is the only one, to WHITE otherwise.  With
    the one failure [rtc_responding] the top LED is RED and the middle LED
    CYAN; when every test passed the top LED is GREEN. *)
Theorem display_results_on_leds_encoding (r : Results) (port : Driver)
    (files : gmap string string) (s : Z) :
  length port = 8%nat ->
  let w' := fst (display_results_on_leds (judged r port files s)) in
  let shown_top := LED_shows (top (leds w')) (driver (leds w')) in
  let shown_middle := LED_shows (middle (leds w')) (driver (leds w')) in
  ((exists c1 c2, c1 <> c2 /\ fails c1 r /\ fails c2 r) -> shown_top = Some WHITE)
  /\ (forall c, fails c r -> (forall c', fails c' r -> c' = c) ->
        shown_top = Some (category_colour c)
        /\ shown_middle = match failed_tests c r with
                          | [t] => test_colour t
                          | _ => Some WHITE
                          end)
  /\ (r = only_rtc_fails -> shown_top = Some RED /\ shown_middle = Some CYAN)
  /\ (all (values r) = true -> shown_top = Some GREEN).
Proof.
  intros Hport w' shown_top shown_middle.
  pose proof (display_results_on_leds_shows r port files s Hport) as Hshown.
  cbv zeta in Hshown. fold w' in Hshown. fold shown_top shown_middle in Hshown.
  assert (Htop : shown_top = fst (encoding r)) by (rewrite <- Hshown; reflexivity).
  assert (Hmid : shown_middle = snd (encoding r)) by (rewrite <- Hshown; reflexivity).
  clearbody shown_top shown_middle. clear Hshown. subst shown_top shown_middle.
  unfold encoding.
  pose proof (fails_nonempty Modem r) as Hm.
  pose proof (fails_nonempty Bus r) as Hb.
  pose proof (fails_nonempty Recording r) as Hr.
  repeat split.
  - intros (c1 & c2 & Hne & H1 & H2).
    apply fails_nonempty in H1, H2.
    destruct c1, c2; try congruence; rewrite H1, H2;
      repeat match goal with |- context [nonempty ?l] => destruct (nonempty l) end;
      reflexivity.
  - pose proof (H0 Modem) as Om. pose proof (H0 Bus) as Ob. pose proof (H0 Recording) as Or.
    rewrite Hm in Om. rewrite Hb in Ob. rewrite Hr in Or.
    apply fails_nonempty in H.
    destruct c;
      destruct (nonempty (failed_tests Modem r)), (nonempty (failed_tests Bus r)),
        (nonempty (failed_tests Recording r));
      try discriminate H;
      try (specialize (Om eq_refl); discriminate Om);
      try (specialize (Ob eq_refl); discriminate Ob);
      try (specialize (Or eq_refl); discriminate Or);
      reflexivity.
  - pose proof (H0 Modem) as Om. pose proof (H0 Bus) as Ob. pose proof (H0 Recording) as Or.
    rewrite Hm in Om. rewrite Hb in Ob. rewrite Hr in Or.
    apply fails_nonempty in H.
    destruct c;
      destruct (nonempty (failed_tests Modem r)), (nonempty (failed_tests Bus r)),
        (nonempty (failed_tests Recording r));
      try discriminate H;
      try (specialize (Om eq_refl); discriminate Om);
      try (specialize (Ob eq_refl); discriminate Ob);
      try (specialize (Or eq_refl); discriminate Or);
      reflexivity.
  - subst r. reflexivity.
  - subst r. reflexivity.
  - intros Hall. destruct r as [[] [] [] [] [] [] [] [] []];
      first [reflexivity | cbv in Hall; discriminate Hall].
Qed.

Lemma display_results_on_leds_encoding_witness :
  let w' := fst (display_results_on_leds (judged only_rtc_fails port_reset ∅ 0)) in
  LED_shows (top (leds w')) (driver (leds w')) = Some RED
  /\ LED_shows (middle (leds w')) (driver (leds w')) = Some CYAN.
Proof.
  apply (display_results_on_leds_encoding only_rtc_fails port_reset ∅ 0 eq_refl).
  reflexivity.
Defined.


(** ** The run *)

Lemma keeps_ret {A} (a : A) : keeps (ret a).
Proof. intros w. auto. Qed.

Lemma keeps_raise {A} : keeps (@raise A).
Proof. intros w. auto. Qed.

Lemma keeps_call {A} (o : Outcome A) : keeps (call o).
Proof. intros w. auto. Qed.

Lemma keeps_set_results (f : Results -> Results) : keeps (modify (set_results f)).
Proof. intros w. auto. Qed.

Lemma keeps_sleep (s : Z) : keeps (sleep s).
Proof. intros w. auto. Qed.

(** A call into the soundcard driver leaves every other file alone. *)
Lemma leave_outside (how : string -> Left) (files : gmap string string) (path : string) :
  path ∉ soundcard_files -> leave how files !! path = files !! path.
Proof.
  unfold leave. generalize soundcard_files as paths.
  induction paths as [|p paths IH]; intros Hp; cbn [fold_right]; [reflexivity|].
  apply not_elem_of_cons in Hp as [Hne Hp].
  destruct (how p);
    [ | rewrite lookup_delete_ne by congruence | rewrite lookup_insert_ne by congruence ];
    apply IH, Hp.
Qed.

Lemma keeps_call_soundcard {A} (c : SoundcardCall A) : keeps (call_soundcard c).
Proof.
  intros w. unfold call_soundcard. cbn [fst set_fs all_passed leds fs].
  split; [reflexivity|]. split; [reflexivity|]. apply leave_outside.
Qed.

Lemma keeps_bind {A B} (m : M A) (k : A -> M B) :
  keeps m -> (forall a, keeps (k a)) -> keeps (bind m k).
Proof.
  intros Hm Hk w. unfold bind.
  destruct (Hm w) as (H1 & H2 & H3).
  destruct (m w) as [w1 [|a]]; cbn [fst] in *; [auto|].
  destruct (Hk a w1) as (K1 & K2 & K3).
  rewrite K1, K2. split; [auto|]. split; [auto|].
  intros path Hp. rewrite K3, H3; auto.
Qed.

Lemma keeps_try_except {A} (body handler : M A) :
  keeps body -> keeps handler -> keeps (try_except body handler).
Proof.
  intros Hb Hh w. unfold try_except.
  destruct (Hb w) as (H1 & H2 & H3).
  destruct (body w) as [w1 [|a]]; cbn [fst] in *; [|auto].
  destruct (Hh w1) as (K1 & K2 & K3).
  rewrite K1, K2. split; [auto|]. split; [auto|].
  intros path Hp. rewrite K3, H3; auto.
Qed.

Lemma returns_try_except_ret {A} (body : M A) (a : A) :
  returns (try_except body (ret a)).
Proof.
  intros w. unfold try_except. destruct (body w) as [w1 [|b]]; cbn; eauto.
Qed.

Ltac keeps_step :=
  first
    [ apply keeps_ret | apply keeps_raise | apply keeps_call
    | apply keeps_call_soundcard
    | apply keeps_set_results | apply keeps_sleep
    | apply keeps_try_except
    | apply keeps_bind; [|intros ?]
    | match goal with
      | |- keeps (if ?b then _ else _) => destruct b
      | |- keeps (match ?x with _ => _ end) => destruct x
      end ].

Lemma keeps_poll_rssi (hw : Hardware) (tries : nat) :
  forall n rssi, keeps (poll_rssi hw tries n rssi).
Proof.
  induction tries as [|tries IH]; intros n rssi; cbn [poll_rssi].
  - apply keeps_ret.
  - repeat keeps_step. apply IH.
Qed.

Lemma keeps_test_modem (hw : Hardware) : keeps (test_modem hw).
Proof.
  unfold test_modem, test_modem_tests.
  repeat first [apply keeps_poll_rssi | keeps_step].
Qed.

Lemma keeps_test_i2c_devices (hw : Hardware) : keeps (test_i2c_devices hw).
Proof. unfold test_i2c_devices. repeat keeps_step. Qed.

Lemma keeps_test_recording (hw : Hardware) : keeps (test_recording hw).
Proof. unfold test_recording. repeat keeps_step. Qed.

Lemma returns_test_modem (hw : Hardware) : returns (test_modem hw).
Proof. apply returns_try_except_ret. Qed.

Lemma returns_test_i2c_devices (hw : Hardware) : returns (test_i2c_devices hw).
Proof. apply returns_try_except_ret. Qed.

Lemma returns_test_recording (hw : Hardware) : returns (test_recording hw).
Proof. apply returns_try_except_ret. Qed.

Lemma keeps_returns {A} (m : M A) (w : World) :
  keeps m -> returns m ->
  exists w1 a, m w = (w1, Return a)
               /\ all_passed w1 = all_passed w /\ leds w1 = leds w
               /\ forall path, path ∉ soundcard_files -> fs w1 !! path = fs w !! path.
Proof.
  intros Hk Hr. destruct (Hr w) as [a Ha]. destruct (Hk w) as (H1 & H2 & H3).
  destruct (m w) as [w1 o]. cbn [fst snd] in *. subst o. eauto 6.
Qed.

(** The three groups of tests always return, and touch only the results,
    the time slept and the files of the soundcard. *)
Lemma run_tests_returns (hw : Hardware) (w : World) :
  exists w1 completed,
    run_tests hw w = (w1, Return completed)
    /\ all_passed w1 = all_passed w /\ leds w1 = leds w
    /\ forall path, path ∉ soundcard_files -> fs w1 !! path = fs w !! path.
Proof.
  unfold run_tests, bind.
  destruct (keeps_returns _ w (keeps_test_modem hw) (returns_test_modem hw))
    as (w1 & c1 & -> & A1 & A2 & A3).
  destruct (keeps_returns _ w1 (keeps_test_i2c_devices hw) (returns_test_i2c_devices hw))
    as (w2 & c2 & -> & B1 & B2 & B3).
  destruct (keeps_returns _ w2 (keeps_test_recording hw) (returns_test_recording hw))
    as (w3 & c3 & -> & C1 & C2 & C3).
  exists w3, [c1; c2; c3]. cbn [ret].
  split; [reflexivity|]. split; [congruence|]. split; [congruence|].
  intros path Hp. rewrite C3, B3, A3; auto.
Qed.

(** Setting the top or the middle LED never raises. *)
Lemma leds_set_top (colour : Colour) (w : World) :
  wired w -> exists w', leds_set top colour w = (w', Return tt) /\ led_only w w'.
Proof.
  intros [Ht Hm]. unfold leds_set. rewrite Ht.
  destruct colour; cbn; eexists; (split; [reflexivity|]);
    repeat split; assumption.
Qed.

Lemma leds_set_middle (colour : Colour) (w : World) :
  wired w -> exists w', leds_set middle colour w = (w', Return tt) /\ led_only w w'.
Proof.
  intros [Ht Hm]. unfold leds_set. rewrite Hm.
  destruct colour; cbn; eexists; (split; [reflexivity|]);
    repeat split; assumption.
Qed.

Lemma led_only_trans (w1 w2 w3 : World) :
  led_only w1 w2 -> led_only w2 w3 -> led_only w1 w3.
Proof.
  intros (A1 & A2 & A3 & A4) (B1 & B2 & B3 & B4).
  repeat split; try congruence; apply B4.
Qed.

Lemma led_only_refl (w : World) : wired w -> led_only w w.
Proof. intros H. repeat split; auto; apply H. Qed.


Lemma led_statement_ret : led_statement (ret tt).
Proof. intros w Hw. exists w. split; [reflexivity | apply led_only_refl, Hw]. Qed.

Lemma led_statement_seq (m k : M unit) :
  led_statement m -> led_statement k -> led_statement (m ;; k).
Proof.
  intros Hm Hk w Hw. unfold bind.
  destruct (Hm w Hw) as (w1 & -> & H1).
  destruct (Hk w1 ltac:(apply H1)) as (w2 & -> & H2).
  exists w2. split; [reflexivity | eapply led_only_trans; eauto].
Qed.

Lemma led_statement_top (colour : Colour) : led_statement (leds_set top colour).
Proof. intros w Hw. apply leds_set_top, Hw. Qed.

Lemma led_statement_middle (colour : Colour) : led_statement (leds_set middle colour).
Proof. intros w Hw. apply leds_set_middle, Hw. Qed.

Lemma led_statement_match_middle (subject : string) (cases : list (string * Colour)) :
  led_statement (match_middle subject cases).
Proof.
  unfold match_middle.
  destruct (List.find _ cases) as [[? colour]|];
    [apply led_statement_middle | apply led_statement_ret].
Qed.

Lemma led_statement_show_category (colour : Colour) (failed : list string)
    (cases : list (string * Colour)) :
  nonempty failed = true -> led_statement (show_category colour failed cases).
Proof.
  intros Hne. unfold show_category.
  apply led_statement_seq; [apply led_statement_top|].
  destruct (1 <? Z.of_nat (length failed)); [apply led_statement_middle|].
  destruct failed as [|k failed]; [discriminate|].
  intros w Hw. unfold bind, first, ret.
  apply led_statement_match_middle, Hw.
Qed.

Lemma led_statement_display_results_on_leds : led_statement display_results_on_leds.
Proof.
  intros w Hw. unfold display_results_on_leds, bind at 1, get.
  destruct (test_passed w).
  { apply led_statement_seq; [apply led_statement_top | apply led_statement_middle | exact Hw]. }
  destruct (1 <? _).
  { apply led_statement_seq; [apply led_statement_top | apply led_statement_middle | exact Hw]. }
  destruct (nonempty (failures "modem" (results w))) eqn:Em;
    [apply led_statement_show_category; assumption|].
  destruct (nonempty (failures "responding" (results w))) eqn:Ei;
    [apply led_statement_show_category; assumption|].
  destruct (nonempty (failures "recording" (results w))) eqn:Er;
    [apply led_statement_show_category; assumption|].
  apply led_statement_ret, Hw.
Qed.

Lemma bind_Return {A B} (m : M A) (k : A -> M B) (w w1 : World) (a : A) :
  m w = (w1, Return a) -> bind m k w = k a w1.
Proof. intros E. unfold bind. rewrite E. reflexivity. Qed.

Lemma results_file_apart : results_file ∉ soundcard_files.
Proof.
  intros H. unfold soundcard_files in H.
  repeat (apply elem_of_cons in H as [H|H]; [discriminate H|]).
  apply elem_of_nil in H. exact H.
Qed.

(** What [write_results_to_disk] leaves at the path of the results file,
    and that it leaves every other file alone. *)
Lemma written_results_file (how : DiskWrite) (text : string) (files : gmap string string) :
  written how text files !! results_file
  = match how with
    | WriteOk | ChmodRaises => Some text
    | OpenRaises => files !! results_file
    | WriteRaises kept => Some (substring 0 kept text)
    end.
Proof. destruct how; cbn [written]; rewrite ?lookup_insert_eq; reflexivity. Qed.


(** The run from the end of the three groups of tests on. *)
Lemma run_from_tests (hw : Hardware) (serial : string) (files : gmap string string) :
  exists (w_start w_tests : World) (completed : list bool),
    (leds_set top MAGENTA ;; leds_set middle BLACK) (FactoryTest_new LEDs_new files)
      = (w_start, Return tt)
    /\ run_tests hw w_start = (w_tests, Return completed)
    /\ wired w_tests
    /\ all_passed w_tests = false
    /\ (forall path, path ∉ soundcard_files -> fs w_tests !! path = files !! path)
    /\ run hw serial (FactoryTest_new LEDs_new files)
       = (if all completed
          then (modify (fun w => set_all_passed (all (values (results w))) w) ;;
                display_results_on_leds ;;
                write_results_to_disk hw serial ;;
                ret true)
          else (leds_set top MAGENTA ;; leds_set middle RED ;; ret false)) w_tests.
Proof.
  set (w0 := FactoryTest_new LEDs_new files).
  assert (Hw0 : wired w0) by (split; reflexivity).
  destruct (leds_set_top MAGENTA w0 Hw0) as (wa & Ea & (Ra & Pa & Fa & Wa)).
  destruct (leds_set_middle BLACK wa Wa) as (wb & Eb & (Rb & Pb & Fb & Wb)).
  destruct (run_tests_returns hw wb) as (w2 & completed & E2 & P2 & L2 & F2).
  exists wb, w2, completed.
  split; [rewrite (bind_Return _ _ _ _ _ Ea); exact Eb|].
  split; [exact E2|].
  split; [unfold wired; rewrite L2; exact Wb|].
  split; [rewrite P2, Pb, Pa; reflexivity|].
  split; [intros path Hp; rewrite (F2 path Hp), Fb, Fa; reflexivity|].
  unfold run.
  rewrite (bind_Return _ _ _ _ _ Ea); cbv beta.
  rewrite (bind_Return _ _ _ _ _ Eb); cbv beta.
  rewrite (bind_Return _ _ _ _ _ E2); cbv beta. reflexivity.
Qed.

(** The run, once all the groups of tests have run to their end. *)
Lemma run_completed (hw : Hardware) (serial : string) (w2 : World) :
  wired w2 ->
  exists w4 : World,
    (modify (fun w => set_all_passed (all (values (results w))) w) ;;
     display_results_on_leds ;;
     write_results_to_disk hw serial ;;
     ret true) w2
    = (set_fs (written (results_write hw) (get_results_string serial w4) (fs w2)) w4,
       Return true)
    /\ results w4 = results w2
    /\ all_passed w4 = all (values (results w2)).
Proof.
  intros W2.
  set (w3 := set_all_passed (all (values (results w2))) w2).
  destruct (led_statement_display_results_on_leds w3 W2) as (w4 & E4 & (R4 & P4 & F4 & W4)).
  exists w4.
  rewrite (bind_Return (modify (fun w => set_all_passed (all (values (results w))) w))
             _ w2 w3 tt eq_refl); cbv beta.
  rewrite (bind_Return _ _ _ _ _ E4); cbv beta.
  rewrite (bind_Return (write_results_to_disk hw serial) _ w4
             (set_fs (written (results_write hw) (get_results_string serial w4) (fs w4)) w4)
             tt eq_refl); cbv beta.
  rewrite F4. cbn [w3 set_all_passed fs ret].
  split; [reflexivity|]. split; [exact R4 | exact P4].
Qed.

(** The run, when a group of tests has not run to its end. *)
Lemma run_incomplete (w2 : World) :
  wired w2 ->
  exists wd : World,
    (leds_set top MAGENTA ;; leds_set middle RED ;; ret false) w2 = (wd, Return false)
    /\ results wd = results w2 /\ all_passed wd = all_passed w2 /\ fs wd = fs w2.
Proof.
  intros W2.
  destruct (leds_set_top MAGENTA w2 W2) as (wc & Ec & (Rc & Pc & Fc & Wc)).
  destruct (leds_set_middle RED wc Wc) as (wd & Ed & (Rd & Pd & Fd & Wd)).
  exists wd.
  rewrite (bind_Return _ _ _ _ _ Ec); cbv beta.
  rewrite (bind_Return _ _ _ _ _ Ed); cbv beta.
  split; [reflexivity|]. repeat split; congruence.
Qed.



(** ** The modem test *)

(** A reading the poll loop ends with was returned by one of its polls. *)
Lemma poll_rssi_reading (hw : Hardware) (tries : nat) :
  forall (n : nat) (last : option (option Z)) (w w' : World) (r : option Z),
    poll_rssi hw tries n last w = (w', Return (Some r)) ->
    last = Some r
    \/ exists m, (n <= m < n + tries)%nat /\ get_rssi hw m = Return r.
Proof.
  induction tries as [|tries IH]; intros n last w w' r H.
  - left. unfold poll_rssi, ret in H. congruence.
  - right. cbn [poll_rssi] in H. unfold bind, call, sleep, modify in H.
    destruct (get_rssi hw n) as [|r0] eqn:E; [discriminate|].
    destruct (reading_truthy r0 && reading_ne r0 99).
    + cbn in H. injection H as _ <-. exists n. split; [lia | exact E].
    + apply IH in H. destruct H as [H|(m & Hm & Em)].
      * injection H as <-. exists n. split; [lia | exact E].
      * exists m. split; [lia | exact Em].
Qed.

(** The poll loop polls at most [tries] times and sleeps one second after
    each poll. *)
Lemma poll_rssi_slept (hw : Hardware) (tries : nat) :
  forall (n : nat) (last : option (option Z)) (w : World),
    slept w <= slept (fst (poll_rssi hw tries n last w)) <= slept w + Z.of_nat tries.
Proof.
  induction tries as [|tries IH]; intros n last w.
  - cbn. lia.
  - cbn [poll_rssi]. unfold bind, call, sleep, modify.
    destruct (get_rssi hw n) as [|r0]; [cbn; lia|].
    destruct (reading_truthy r0 && reading_ne r0 99).
    + cbn. lia.
    + specialize (IH (S n) (Some r0) (add_slept 1 w)). cbn [slept add_slept] in IH. lia.
Qed.

Lemma poll_rssi_results (hw : Hardware) (tries : nat) :
  forall (n : nat) (last : option (option Z)) (w : World),
    results (fst (poll_rssi hw tries n last w)) = results w.
Proof.
  induction tries as [|tries IH]; intros n last w; [reflexivity|].
  cbn [poll_rssi]. unfold bind, call, sleep, modify.
  destruct (get_rssi hw n) as [|r0]; [reflexivity|].
  destruct (reading_truthy r0 && reading_ne r0 99); [reflexivity|].
  rewrite IH. reflexivity.
Qed.

(** X9: When the modem test records [modem_towers_found] as [True], one of the
    at most six polls returned a reading that is neither [None] nor 99. *)
Lemma towers_found_reading (hw : Hardware) (w : World) :
  modem_towers_found (results w) = false ->
  modem_towers_found (results (fst (test_modem hw w))) = true ->
  exists (m : nat) (v : Z),
    (m < 6)%nat /\ get_rssi hw m = Return (Some v) /\ v <> 99.
Proof.
  intros Hbefore.
  unfold test_modem, test_modem_tests, try_except, bind, call, ret, raise, modify.
  repeat match goal with
    | |- context [match ?o with Raise => _ | Return _ => _ end] =>
        lazymatch o with
        | context [poll_rssi] => fail
        | _ => destruct o as [|[]]
        end
    end; cbn [fst snd results set_results modem_towers_found]; try congruence.

  all: match goal with
       | |- context [poll_rssi ?h 6 0 None ?w1] =>
           pose proof (poll_rssi_results h 6 0 None w1) as Hres;
           pose proof (poll_rssi_reading h 6 0 None w1) as Hread;
           destruct (poll_rssi h 6 0 None w1) as [w2 [|[r|]]]
       end; cbn [fst snd results set_results modem_towers_found] in *;
    try (rewrite Hres; cbn [results set_results modem_towers_found]; congruence).
  all: destruct (Hread w2 r eq_refl) as [Hlast|(m & Hm & Em)]; [discriminate|].
  all: destruct (power_off_final hw) as [|[]];
    cbn [fst snd results set_results modem_towers_found]; intros Hfound;
    apply andb_true_iff in Hfound as [Hsome Hne];
    (destruct r as [v|]; [|discriminate]);
    exists m, v; (split; [lia|]); (split; [exact Em|]);
    cbn in Hne; apply negb_true_iff, Z.eqb_neq in Hne; exact Hne.
Qed.

(** C7 fails on a unit whose first reading of the signal strength is 0
    and whose other readings are 99: the reading 0 is neither [None] nor 99,
    the test runs to its end after six polls of one second each, and
    [modem_towers_found] is recorded [False]. *)
Theorem test_modem_misses_zero_reading :
  let '(w', r) := test_modem weak_signal_unit (FactoryTest_new LEDs_new ∅) in
  get_rssi weak_signal_unit 0 = Return (Some 0)
  /\ is_not_None (Some 0) && reading_ne (Some 0) 99 = true
  /\ r = Return true
  /\ slept w' = 6
  /\ modem_towers_found (results w') = false.
Proof. vm_compute. repeat split; reflexivity. Qed.

End FactoryFacts.

(** * Facts about the upload loops and the error blink *)

Module BuggdFacts.
Import Py Buggd.

(** ** Upload attempts *)

(** The loop body of [ws_uploader] removes the file exactly when the file
    is there and the read, the send and the removal all return; otherwise
    it leaves the files as they were. *)
Lemma ws_upload_file_spec (read_ok send_ok remove_ok : bool) (filepath : string)
    (files : gmap string string) :
  let files' := fst (ws_upload_file read_ok send_ok remove_ok filepath files) in
  (removed filepath files files'
   <-> is_Some (files !! filepath)
       /\ read_ok = true /\ send_ok = true /\ remove_ok = true)
  /\ (~ removed filepath files files' -> files' = files).
Proof.
  unfold ws_upload_file, read_file, os_remove, removed.
  destruct (files !! filepath) as [data|] eqn:E.
  - destruct read_ok, send_ok, remove_ok; cbn [fst]; rewrite ?E, ?lookup_delete_eq;
      (split; [split|]); try (intros (_ & ? & ? & ?); discriminate);
      try (intros [_ ?]; discriminate); try reflexivity; eauto.
    intros Hn. exfalso. apply Hn. eauto.
  - cbn [fst]. rewrite E. split; [split|]; [| |reflexivity].
    + intros [[? ?] _]. discriminate.
    + intros [[? ?] _]. discriminate.
Qed.

Section HttpSyncFacts.

Variable Net : Type.
Variable post : Net -> string -> string -> string -> Net * Outcome Z.
Variable readable : Net -> string -> bool.
Variable removable : Net -> string -> bool.

(** The body of the loop of a sync pass removes the file exactly when it
    is not a log file, it is there and can be read, the post returns with a
    status that [raise_for_status] accepts, and the removal returns;
    otherwise it leaves the files as they were. *)
Lemma sync_file_spec (upload_url root local_f : string) (net : Net)
    (files : gmap string string) (log : list Attempt) :
  let local_path := path_join root local_f in
  let '(net', files', _) :=
    sync_file Net post readable removable upload_url root local_f (net, files, log) in
  (removed local_path files files'
   <-> endswith local_f ".log" = false
       /\ exists (data : string) (status : Z),
            files !! local_path = Some data
            /\ readable net local_path = true
            /\ post net upload_url local_f data = (net', Return status)
            /\ raise_for_status status = Return tt
            /\ removable net' local_path = true)
  /\ (~ removed local_path files files' -> files' = files).
Proof.
  cbv zeta. unfold sync_file, read_file, os_remove, removed.
  destruct (endswith local_f ".log") eqn:Elog.
  { split; [split|reflexivity].
    - intros [[x Hx] Hn]. congruence.
    - intros [? _]. discriminate. }
  destruct (files !! path_join root local_f) as [data|] eqn:E.
  2:{ split; [split|reflexivity].
      - intros [[x Hx] _]. discriminate.
      - intros (_ & d & st & ? & _). discriminate. }
  destruct (readable net (path_join root local_f)) eqn:Eread.
  2:{ split; [split|reflexivity].
      - intros [_ Hn]. congruence.
      - intros (_ & d & st & _ & ? & _). discriminate. }
  destruct (post net upload_url local_f data) as [net' [|status]] eqn:Epost.
  { split; [split|reflexivity].
    - intros [_ Hn]. congruence.
    - intros (_ & d & st & Hd & _ & Hp & _). injection Hd as <-.
      rewrite Epost in Hp. discriminate. }
  destruct (raise_for_status status) as [|[]] eqn:Estatus.
  { split; [split|reflexivity].
    - intros [_ Hn]. congruence.
    - intros (_ & d & st & Hd & _ & Hp & Hs & _). injection Hd as <-.
      rewrite Epost in Hp. injection Hp as <-. congruence. }
  destruct (removable net' (path_join root local_f)) eqn:Eremove.
  - rewrite lookup_delete_eq. split; [split|].
    + intros _. split; [reflexivity|]. exists data, status. auto.
    + intros _. eauto.
    + intros Hn. exfalso. apply Hn. eauto.
  - split; [split|reflexivity].
    + intros [_ Hn]. congruence.
    + intros (_ & d & st & _ & _ & _ & _ & Hr). congruence.
Qed.

Lemma in_sync_log (files0 files : gmap string string) (net net' : Net)
    (log : list Attempt) (a : Attempt) :
  in_sync Net files0 (net, files, log) -> in_sync Net files0 (net', files, log ++ [a]).
Proof.
  intros H path. destruct (H path) as [H1|[H1 H2]]; cbn [fst snd] in *; [left; exact H1|].
  right. split; [exact H1|]. apply elem_of_app. left. exact H2.
Qed.

Lemma in_sync_sent (files0 files : gmap string string) (net net' : Net)
    (log : list Attempt) (p : string) :
  in_sync Net files0 (net, files, log) ->
  in_sync Net files0 (net', delete p files, log ++ [Sent p]).
Proof.
  intros H path. cbn [fst snd].
  destruct (decide (path = p)) as [->|Hne].
  - right. split; [apply lookup_delete_eq|].
    apply elem_of_app. right. apply list_elem_of_singleton. reflexivity.
  - rewrite lookup_delete_ne by congruence.
    destruct (H path) as [H1|[H1 H2]]; cbn [fst snd] in *; [left; exact H1|].
    right. split; [exact H1|]. apply elem_of_app. left. exact H2.
Qed.

Lemma sync_file_in_sync (files0 : gmap string string) (upload_url root local_f : string)
    (st : Net * gmap string string * list Attempt) :
  in_sync Net files0 st ->
  in_sync Net files0 (sync_file Net post readable removable upload_url root local_f st).
Proof.
  intros H. destruct st as [[net files] log]. unfold sync_file.
  destruct (endswith local_f ".log"); [exact H|].
  unfold read_file, os_remove.
  destruct (files !! path_join root local_f) as [data|] eqn:E.
  - destruct (readable net (path_join root local_f));
      [|apply (in_sync_log _ _ net); exact H].
    destruct (post net upload_url local_f data) as [net' [|status]].
    + apply (in_sync_log _ _ net); exact H.
    + destruct (raise_for_status status).
      * apply (in_sync_log _ _ net); exact H.
      * destruct (removable net' (path_join root local_f)).
        -- apply (in_sync_sent _ _ net); exact H.
        -- apply (in_sync_log _ _ net); exact H.
  - apply (in_sync_log _ _ net); exact H.
Qed.

Lemma sync_pass_in_sync (files0 : gmap string string) (server_url : string)
    (walk : list (string * list string)) :
  forall st, in_sync Net files0 st ->
             in_sync Net files0 (sync_pass Net post readable removable server_url walk st).
Proof.
  unfold sync_pass. induction walk as [|[root names] walk IH]; intros st H; [exact H|].
  cbn [fold_left fst snd]. apply IH. clear IH.
  revert st H. induction names as [|local_f names IHn]; intros st H; [exact H|].
  cbn [fold_left]. apply IHn. apply sync_file_in_sync, H.
Qed.

Lemma in_sync_start (files : gmap string string) (net : Net) :
  in_sync Net files (net, files, []).
Proof. intros path. left. reflexivity. Qed.

End HttpSyncFacts.

(** C1 as the specification words it fails when the send returns and the
    removal of the file raises ([os.remove] is inside the same [try]): the
    send was confirmed, and the file is still on disk.  In the uploader of
    the WebSocketSafe mode, and in a sync pass whose post returns the
    status 200. *)
Lemma remove_error_keeps_sent_file :
  ws_upload_file true true false "/audio/a.mp3" {["/audio/a.mp3" := "A"]}
  = ({["/audio/a.mp3" := "A"]}, Sent "/audio/a.mp3")
  /\ sync_file unit (fun net _ _ _ => (net, Return 200)) (fun _ _ => true)
       (fun _ _ => false) "http://server/api/bugg/upload" "/audio" "a.mp3"
       (tt, {["/audio/a.mp3" := "A"]}, [])
     = (tt, {["/audio/a.mp3" := "A"]}, [Sent "/audio/a.mp3"]).
Proof. split; reflexivity. Qed.

(** C1, as the code has it: in the loop body of the uploader of the
    WebSocketSafe mode and in the loop body of a sync pass of the
    HttpPolling mode, the file is deleted if and only if it could be read,
    its send returned without error ([ws.send_binary] returned; [post]
    returned a response whose status [raise_for_status] accepts) and
    [os.remove] returned.  In every other case, in particular when the send
    raises, the files are left as they were. *)
Theorem file_deleted_iff_sent_and_removed :
  (forall (read_ok send_ok remove_ok : bool) (filepath : string)
          (files : gmap string string),
      let files' := fst (ws_upload_file read_ok send_ok remove_ok filepath files) in
      (removed filepath files files'
       <-> is_Some (files !! filepath)
           /\ read_ok = true /\ send_ok = true /\ remove_ok = true)
      /\ (send_ok = false -> files' = files)
      /\ (~ removed filepath files files' -> files' = files))
  /\ (forall (Net : Type) (post : Net -> string -> string -> string -> Net * Outcome Z)
             (readable removable : Net -> string -> bool)
             (upload_url root local_f : string) (net : Net)
             (files : gmap string string) (log : list Attempt),
         let local_path := path_join root local_f in
         let '(net', files', _) :=
           sync_file Net post readable removable upload_url root local_f
                     (net, files, log) in
         (removed local_path files files'
          <-> endswith local_f ".log" = false
              /\ exists (data : string) (status : Z),
                   files !! local_path = Some data
                   /\ readable net local_path = true
                   /\ post net upload_url local_f data = (net', Return status)
                   /\ raise_for_status status = Return tt
                   /\ removable net' local_path = true)
         /\ (forall data : string,
                files !! local_path = Some data ->
                (forall status : Z,
                    post net upload_url local_f data = (net', Return status) ->
                    raise_for_status status = Raise) ->
                files' = files)
         /\ (~ removed local_path files files' -> files' = files)).
Proof.
  split.
  - intros read_ok send_ok remove_ok filepath files.
    destruct (ws_upload_file_spec read_ok send_ok remove_ok filepath files) as [H1 H2].
    cbv zeta. split; [exact H1|]. split; [|exact H2].
    intros Hsend. apply H2. intros Hr. apply H1 in Hr as (_ & _ & Hs & _). congruence.
  - intros Net post readable removable upload_url root local_f net files log.
    pose proof (sync_file_spec Net post readable removable upload_url root local_f
                  net files log) as H.
    cbv zeta in *.
    destruct (sync_file Net post readable removable upload_url root local_f
                (net, files, log)) as [[net' files'] log'].
    destruct H as [H1 H2]. split; [exact H1|]. split; [|exact H2].
    intros data Hdata Hraise. apply H2. intros Hr.
    apply H1 in Hr as (_ & d & status & Hd & _ & Hp & Hs & _).
    rewrite Hdata in Hd. injection Hd as <-.
    rewrite (Hraise status Hp) in Hs. discriminate.
Qed.


(** ** The uploader threads *)

Section UploaderFacts.

Variable upload :
  bool -> bool -> bool -> string -> gmap string string -> gmap string string * Attempt.
Variable maxsize : nat.

Lemma run_app (inputs1 inputs2 : list Input) (u : Thread) :
  run upload maxsize (inputs1 ++ inputs2) u
  = run upload maxsize inputs2 (run upload maxsize inputs1 u).
Proof. unfold run. apply fold_left_app. Qed.

(** *** Blocked on the queue *)

Lemma blocked_step (i : Input) (u : Thread) :
  pc u = AtGet -> queue u = [] ->
  pc (step upload maxsize u (quiet i)) = AtGet
  /\ queue (step upload maxsize u (quiet i)) = [].
Proof.
  destruct u as [p q st fs t l]. cbn [pc queue]. intros -> ->.
  split; reflexivity.
Qed.

Lemma blocked_forever (inputs : list Input) :
  forall u, pc u = AtGet -> queue u = [] ->
            pc (run upload maxsize (map quiet inputs) u) = AtGet.
Proof.
  induction inputs as [|i inputs IH]; intros u Hpc Hq; [exact Hpc|].
  cbn [map]. unfold run. cbn [fold_left]. fold (run upload maxsize).
  destruct (blocked_step i u Hpc Hq) as [Hpc' Hq']. apply IH; assumption.
Qed.

(** *** The stop event *)

Lemma stop_event_step (u : Thread) (i : Input) :
  stop_event (step upload maxsize u i) = stop_event u || set_stop i.
Proof.
  destruct u as [p q st fs t l]. unfold step, thread_step, others_step.
  cbn [pc queue stop_event files clock log].
  destruct p; cbn -[orb];
    try (destruct (st || set_stop i); reflexivity);
    try reflexivity.
  - destruct (connect_ok i); reflexivity.
  - destruct (match put i with Some x => _ | None => _ end); reflexivity.
  - destruct (upload (read_ok i) (send_ok i) (remove_ok i) item fs); reflexivity.
  - destruct (close_ok i); reflexivity.
Qed.

Lemma stop_event_run (inputs : list Input) :
  forall u, stop_event (run upload maxsize inputs u)
            = stop_event u || existsb set_stop inputs.
Proof.
  induction inputs as [|i inputs IH]; intros u; cbn.
  - rewrite orb_false_r. reflexivity.
  - unfold run in *. rewrite IH, stop_event_step. rewrite orb_assoc. reflexivity.
Qed.

(** The thread returns only with the stop event set. *)
Lemma exit_step (u : Thread) (i : Input) :
  (pc u = AtExit -> stop_event u = true) ->
  pc (step upload maxsize u i) = AtExit -> stop_event (step upload maxsize u i) = true.
Proof.
  intros Hu. rewrite stop_event_step.
  destruct u as [p q st fs t l]. unfold step, thread_step, others_step.
  cbn [pc queue stop_event files clock log] in *.
  destruct p; cbn -[orb].
  - destruct (st || set_stop i); cbn; [reflexivity | discriminate].
  - destruct (connect_ok i); discriminate.
  - destruct (st || set_stop i); discriminate.
  - destruct (match put i with Some x => _ | None => _ end); discriminate.
  - destruct (upload (read_ok i) (send_ok i) (remove_ok i) item fs); discriminate.
  - destruct (close_ok i); discriminate.
  - discriminate.
  - intros _. rewrite (Hu eq_refl). reflexivity.
Qed.

Lemma exit_run (inputs : list Input) :
  forall u, (pc u = AtExit -> stop_event u = true) ->
            pc (run upload maxsize inputs u) = AtExit ->
            stop_event (run upload maxsize inputs u) = true.
Proof.
  induction inputs as [|i inputs IH]; intros u Hu; [exact Hu|].
  unfold run. cbn [fold_left]. fold (run upload maxsize).
  apply IH. apply exit_step, Hu.
Qed.


(** *** The delay before a reconnect *)

Lemma spaced_step (u : Thread) (i : Input) :
  spaced (log u) /\ rested u ->
  spaced (log (step upload maxsize u i)) /\ rested (step upload maxsize u i).
Proof.
  destruct u as [p q st fs t l]. unfold rested, step, thread_step, others_step.
  cbn [pc queue stop_event files clock log]. intros [Hs Hr].
  destruct p; cbn -[orb].
  - destruct (st || set_stop i); cbn; (split; [exact Hs|]).
    + intros t0 Hin. apply elem_of_cons in Hin as [Hin|Hin]; [discriminate|].
      specialize (Hr t0 Hin). lia.
    + intros t0 Hin. specialize (Hr t0 Hin). lia.
  - destruct (connect_ok i); cbn.
    + split.
      * split; [|exact Hs]. intros t0 Hin. specialize (Hr t0 Hin). lia.
      * intros t0 Hin. apply elem_of_cons in Hin as [Hin|Hin]; [discriminate|].
        specialize (Hr t0 Hin). lia.
    + split.
      * split; [|exact Hs]. intros t0 Hin. specialize (Hr t0 Hin). lia.
      * intros t0 Hin. apply elem_of_cons in Hin as [Hin|Hin].
        -- injection Hin as ->. lia.
        -- apply elem_of_cons in Hin as [Hin|Hin]; [discriminate|].
           specialize (Hr t0 Hin). lia.
  - destruct (st || set_stop i); cbn; (split; [exact Hs|]);
      intros t0 Hin; specialize (Hr t0 Hin); lia.
  - destruct (match put i with Some x => _ | None => _ end); cbn; (split; [exact Hs|]);
      intros t0 Hin; specialize (Hr t0 Hin); lia.
  - destruct (upload (read_ok i) (send_ok i) (remove_ok i) item fs); cbn. split; [exact Hs|].
    intros t0 Hin. apply elem_of_cons in Hin as [Hin|Hin]; [discriminate|].
    specialize (Hr t0 Hin). lia.
  - destruct (close_ok i); cbn; (split; [exact Hs|]).
    + intros t0 Hin. apply elem_of_cons in Hin as [Hin|Hin]; [discriminate|].
      specialize (Hr t0 Hin). lia.
    + intros t0 Hin. apply elem_of_cons in Hin as [Hin|Hin].
      * injection Hin as ->. lia.
      * specialize (Hr t0 Hin). lia.
  - split; [exact Hs|]. intros t0 Hin. specialize (Hr t0 Hin). lia.
  - split; [exact Hs|]. intros t0 Hin. specialize (Hr t0 Hin). lia.
Qed.

Lemma spaced_run (inputs : list Input) :
  forall u, spaced (log u) /\ rested u ->
            spaced (log (run upload maxsize inputs u)).
Proof.
  induction inputs as [|i inputs IH]; intros u Hu; [apply Hu|].
  unfold run. cbn [fold_left]. fold (run upload maxsize).
  apply IH, spaced_step, Hu.
Qed.

Lemma spaced_start (q : list string) (stop : bool) (fs : gmap string string) (now : nat) :
  spaced (log (start q stop fs now)) /\ rested (start q stop fs now).
Proof.
  split; [exact I|]. intros t0 Hin. cbn in Hin.
  apply elem_of_cons in Hin as [Hin|Hin]; [discriminate|].
  apply elem_of_nil in Hin. destruct Hin.
Qed.

(** *** After the stop event *)

(** Once the stop event is set, a thread that is not blocked on an empty
    queue gets closer to its return with every step, and handles no other
    item than the one in flight. *)
Lemma stopping_step (u : Thread) (i : Input) :
  stop_event u = true ->
  pc u <> AtGet \/ queue u <> [] ->
  let u' := step upload maxsize u i in
  (distance (pc u') < distance (pc u) \/ pc u' = AtExit)%nat
  /\ (pc u' <> AtGet \/ queue u' <> [])
  /\ (attempts (log u') + in_flight (pc u') <= attempts (log u) + in_flight (pc u))%nat.
Proof.
  destruct u as [p q st fs t l]. unfold step, thread_step, others_step.
  cbn [pc queue stop_event files clock log]. intros -> Hq.
  destruct p; cbn -[Nat.ltb length].
  - split; [right; reflexivity|]. split; [left; discriminate | lia].
  - destruct (connect_ok i); cbn; (split; [left; lia|]); (split; [left; discriminate | lia]).
  - split; [left; lia|]. split; [left; discriminate | lia].
  - destruct Hq as [Hq|Hq]; [congruence|].
    destruct q as [|item q]; [congruence|].
    destruct (put i) as [x|]; [destruct (length (item :: q) <? maxsize)%nat|];
      cbn [app pc log distance in_flight attempts];
      (split; [left; lia|]); (split; [left; discriminate | lia]).
  - destruct (upload (read_ok i) (send_ok i) (remove_ok i) item fs); cbn.
    split; [left; lia|]. split; [left; discriminate | lia].
  - destruct (close_ok i); cbn; (split; [left; lia|]); (split; [left; discriminate | lia]).
  - split; [left; lia|]. split; [left; discriminate | lia].
  - split; [right; reflexivity|]. split; [left; discriminate | lia].
Qed.

Lemma stopping_run (inputs : list Input) :
  forall u, stop_event u = true ->
            pc u <> AtGet \/ queue u <> [] ->
            let u' := run upload maxsize inputs u in
            (distance (pc u') + length inputs <= distance (pc u) \/ pc u' = AtExit)%nat
            /\ (attempts (log u') <= attempts (log u) + in_flight (pc u))%nat.
Proof.
  induction inputs as [|i inputs IH]; intros u Hstop Hq; cbn zeta.
  - cbn. split; [left|]; lia.
  - unfold run. cbn [fold_left length]. fold (run upload maxsize).
    pose proof (stopping_step u i Hstop Hq) as Hstep. cbv zeta in Hstep.
    destruct Hstep as (Hd & Hq' & Ha).
    assert (Hstop' : stop_event (step upload maxsize u i) = true)
      by (rewrite stop_event_step, Hstop; reflexivity).
    pose proof (IH _ Hstop' Hq') as Hrun. cbv zeta in Hrun. unfold run in Hrun.
    destruct Hrun as [Hd' Ha']. split; [|lia].
    destruct Hd' as [Hd'|Hd']; [|right; exact Hd'].
    destruct Hd as [Hd|Hd]; [left; lia|].
    rewrite Hd in Hd'. cbn in Hd'.
    destruct inputs; cbn in *; [right; exact Hd | lia].
Qed.


(** X14: Once the stop event is set, a thread that is not blocked on an empty
    queue returns within six steps, and handles at most the item in
    flight. *)
Lemma stop_then_return (inputs : list Input) (u : Thread) :
  stop_event u = true ->
  pc u <> AtGet \/ queue u <> [] ->
  (6 <= length inputs)%nat ->
  pc (run upload maxsize inputs u) = AtExit
  /\ (attempts (log (run upload maxsize inputs u)) <= attempts (log u) + 1)%nat.
Proof.
  intros Hstop Hq Hlen.
  pose proof (stopping_run inputs u Hstop Hq) as H. cbv zeta in H.
  destruct H as [Hd Ha]. split.
  - destruct Hd as [Hd|Hd]; [|exact Hd].
    assert (Hmax : (distance (pc u) <= 6)%nat) by (destruct (pc u); cbn; lia).
    destruct (pc (run upload maxsize inputs u)); cbn in Hd; try lia. reflexivity.
  - assert (Hmax : (in_flight (pc u) <= 1)%nat) by (destruct (pc u); cbn; lia). lia.
Qed.

(** A failed connect is followed, unless the stop event is set, by a new
    connect attempt three steps and at least five seconds later. *)
Lemma retry_after_failure (u : Thread) (i1 i2 i3 : Input) :
  pc u = AtConnect ->
  connect_ok i1 = false ->
  stop_event u = false ->
  set_stop i1 = false -> set_stop i2 = false -> set_stop i3 = false ->
  let u' := run upload maxsize [i1; i2; i3] u in
  pc u' = AtConnect
  /\ (clock u + 5 <= clock u')%nat
  /\ exists t, log u' = EvRetry t :: EvConnect t false :: log u.
Proof.
  destruct u as [p q st fs t l]. cbn [pc stop_event]. intros -> H1 -> S1 S2 S3.
  unfold run, step, thread_step, others_step. cbn -[Nat.ltb].
  rewrite H1, S1. cbn -[Nat.ltb]. rewrite S2. cbn -[Nat.ltb]. rewrite S3. cbn -[Nat.ltb].
  split; [reflexivity|]. split; [lia|]. eexists. reflexivity.
Qed.

(** *** Sends that raise *)

(** A step of a connected thread on which the send raises and the stop
    event stays clear: the thread stays in the inner loop, on the same
    connection, takes no other time than the step takes, and touches no
    file. *)
Lemma failing_step (u : Thread) (i : Input) :
  (forall r rm item fs,
      fst (upload r false rm item fs) = fs
      /\ forall p, snd (upload r false rm item fs) <> Sent p) ->
  connected (pc u) -> stop_event u = false -> unbroken (log u) ->
  let u' := step upload maxsize u (failing i) in
  connected (pc u') /\ stop_event u' = false /\ unbroken (log u')
  /\ connects (log u') = connects (log u)
  /\ files u' = files u
  /\ clock u' = (clock u + elapsed i)%nat
  /\ (forall e, e ∈ log u -> e ∈ log u').
Proof.
  intros Hup. destruct u as [p q st fs t l]. unfold step, thread_step, others_step.
  cbn [pc queue stop_event files clock log failing put set_stop elapsed
       read_ok send_ok remove_ok connect_ok close_ok].
  intros Hc -> Hl. cbn [orb].
  destruct p; cbn [connected] in Hc; try destruct Hc.
  - cbn. repeat split; auto.
  - destruct (match put i with Some x => _ | None => _ end); cbn; repeat split; auto.
  - destruct (Hup true (remove_ok i) item fs) as [Hfs Ha].
    destruct (upload true false (remove_ok i) item fs) as [fs' a].
    cbn [fst snd] in *. subst fs'. cbn. repeat split; auto.
    + intros e He. apply elem_of_cons in He as [->|He]; [|apply Hl, He].
      destruct a; auto. apply (Ha path). reflexivity.
    + intros e He. apply elem_of_cons. right. exact He.
Qed.

Lemma failing_run (inputs : list Input) :
  (forall r rm item fs,
      fst (upload r false rm item fs) = fs
      /\ forall p, snd (upload r false rm item fs) <> Sent p) ->
  forall u,
    connected (pc u) -> stop_event u = false -> unbroken (log u) ->
    let u' := run upload maxsize (map failing inputs) u in
    connected (pc u') /\ stop_event u' = false /\ unbroken (log u')
    /\ connects (log u') = connects (log u)
    /\ files u' = files u
    /\ clock u' = (clock u + total_elapsed inputs)%nat
    /\ (forall e, e ∈ log u -> e ∈ log u').
Proof.
  intros Hup. induction inputs as [|i inputs IH]; intros u Hc Hs Hl; cbv zeta.
  - cbn. repeat split; auto.
  - cbn [map total_elapsed fold_right]. unfold run. cbn [fold_left].
    fold (run upload maxsize (map failing inputs) (step upload maxsize u (failing i))).
    pose proof (failing_step u i Hup Hc Hs Hl) as Hstep. cbv zeta in Hstep.
    destruct Hstep as (Hc1 & Hs1 & Hl1 & Hn1 & Hf1 & Ht1 & Hm1).
    pose proof (IH _ Hc1 Hs1 Hl1) as Hrun. cbv zeta in Hrun.
    destruct Hrun as (Hc2 & Hs2 & Hl2 & Hn2 & Hf2 & Ht2 & Hm2).
    split; [exact Hc2|]. split; [exact Hs2|]. split; [exact Hl2|].
    split; [congruence|]. split; [congruence|].
    split; [rewrite Ht2, Ht1; unfold total_elapsed; lia|].
    intros e He. apply Hm2, Hm1, He.
Qed.

End UploaderFacts.

(** C2 fails on the code: an uploader that was waiting on the empty queue
    when the stop event was set stays in [q.get()] for good when nothing is
    put on the queue any more; it never tests the stop event again and never
    returns. *)
Theorem uploader_blocked_after_stop (inputs : list Input) :
  let stuck (uploader : list Input -> Thread -> Thread) :=
    let u := uploader ([calm; calm; calm; halt] ++ map quiet inputs)
                      (start [] false ∅ 0) in
    stop_event u = true /\ pc u = AtGet /\ pc u <> AtExit in
  stuck ws_uploader /\ stuck ws_uploader_continuous.
Proof.
  cbv zeta. unfold ws_uploader, ws_uploader_continuous. rewrite !run_app.
  repeat split; try (rewrite stop_event_run; reflexivity);
    try (rewrite blocked_forever; [discriminate | reflexivity | reflexivity]);
    apply blocked_forever; reflexivity.
Qed.

(** A send that raises, on a run: the error is caught in the loop body,
    the thread neither sleeps nor connects again, and the next item is sent
    on the same connection. *)
Lemma send_error_keeps_connection :
  let u := ws_uploader [calm; calm; calm; calm; send_fails; calm; calm; calm]
             (start ["/a.mp3"; "/b.mp3"] false
                    {["/a.mp3" := "A"; "/b.mp3" := "B"]} 0) in
  log u = [ EvAttempt (Sent "/b.mp3"); EvAttempt (SendFailed "/a.mp3");
            EvConnect 0 true; EvLed DATA_LED_UPLOADING ]
  /\ clock u = 0%nat
  /\ pc u = AtInnerCheck.
Proof. vm_compute. repeat split; reflexivity. Qed.

(** What holds of the reconnect loop of both uploaders: every connect
    attempt that follows an entry of the handler of connection errors (a
    failed connect or a failed close) is made at least five seconds after
    it, a failed connect is followed by a new attempt unless the stop event
    is set, and the thread does not return before the stop event is set. *)
Lemma reconnect_after_delay_until_stopped (inputs : list Input) (q : list string)
    (fs : gmap string string) (now : nat) :
  let holds (upload : bool -> bool -> bool -> string -> gmap string string
                      -> gmap string string * Attempt)
            (maxsize : nat) :=
    let u := run upload maxsize inputs (start q false fs now) in
    spaced (log u)
    /\ (pc u = AtExit -> existsb set_stop inputs = true)
    /\ (forall i1 i2 i3,
           pc u = AtConnect -> connect_ok i1 = false ->
           stop_event u = false ->
           set_stop i1 = false -> set_stop i2 = false -> set_stop i3 = false ->
           let u' := run upload maxsize [i1; i2; i3] u in
           pc u' = AtConnect /\ (clock u + 5 <= clock u')%nat) in
  holds ws_upload_file 20%nat /\ holds ws_upload_data 50%nat.
Proof.
  cbv zeta.
  assert (H : forall upload maxsize,
             let u := run upload maxsize inputs (start q false fs now) in
             spaced (log u)
             /\ (pc u = AtExit -> existsb set_stop inputs = true)
             /\ (forall i1 i2 i3,
                    pc u = AtConnect -> connect_ok i1 = false ->
                    stop_event u = false ->
                    set_stop i1 = false -> set_stop i2 = false -> set_stop i3 = false ->
                    let u' := run upload maxsize [i1; i2; i3] u in
                    pc u' = AtConnect /\ (clock u + 5 <= clock u')%nat)).
  { intros upload maxsize u. split; [|split].
    - apply spaced_run, spaced_start.
    - intros Hexit.
      pose proof (exit_run upload maxsize inputs (start q false fs now)
                    ltac:(discriminate) Hexit) as Hstop.
      rewrite stop_event_run in Hstop. exact Hstop.
    - intros i1 i2 i3 Hpc Hfail Hs S1 S2 S3.
      pose proof (retry_after_failure upload maxsize u i1 i2 i3 Hpc Hfail Hs S1 S2 S3) as Hr.
      cbv zeta in Hr. destruct Hr as (? & ? & _). auto. }
  split; apply H.
Qed.

Lemma ws_upload_file_fails (r rm : bool) (item : string) (fs : gmap string string) :
  fst (ws_upload_file r false rm item fs) = fs
  /\ forall p, snd (ws_upload_file r false rm item fs) <> Sent p.
Proof.
  unfold ws_upload_file, read_file.
  destruct (fs !! item); [destruct r|]; cbn; split; congruence.
Qed.

Lemma ws_upload_data_fails (r rm : bool) (item : string) (fs : gmap string string) :
  fst (ws_upload_data r false rm item fs) = fs
  /\ forall p, snd (ws_upload_data r false rm item fs) <> Sent p.
Proof. unfold ws_upload_data. cbn. split; congruence. Qed.

(** C3 fails on the code: a send that raises does not make the uploader
    discard its connection.  A thread that has connected and finds an item
    on the queue, when the send of this item and of every later item raises
    (whatever else happens, as long as the stop event is not set): the
    error is caught in the loop body, so the thread stays in the inner loop
    on the connection it made at the start, it never enters the handler of
    connection errors, never closes the connection and never connects
    again, it spends no time in a sleep, no send ever returns, and no file
    is removed. *)
Theorem send_errors_never_reconnect (item data : string) (q : list string)
    (fs : gmap string string) (inputs : list Input) :
  let stuck (upload : bool -> bool -> bool -> string -> gmap string string
                      -> gmap string string * Attempt)
            (maxsize : nat) :=
    let u := run upload maxsize
               ([calm; calm; send_fails; send_fails; send_fails] ++ map failing inputs)
               (start (item :: q) false (<[item := data]> fs) 0) in
    EvAttempt (SendFailed item) ∈ log u
    /\ connected (pc u)
    /\ connects (log u) = [EvConnect 0 true]
    /\ unbroken (log u)
    /\ clock u = total_elapsed inputs
    /\ files u = <[item := data]> fs
    /\ stop_event u = false in
  stuck ws_upload_file 20%nat /\ stuck ws_upload_data 50%nat.
Proof.
  cbv zeta.
  assert (Hlog : unbroken [EvAttempt (SendFailed item); EvConnect 0 true;
                           EvLed DATA_LED_UPLOADING]).
  { intros e He. repeat (apply elem_of_cons in He as [->|He]; [exact I|]).
    apply elem_of_nil in He. destruct He. }
  assert (Hfile : ws_upload_file true false true item (<[item := data]> fs)
                  = (<[item := data]> fs, SendFailed item)).
  { unfold ws_upload_file, read_file. rewrite lookup_insert_eq. reflexivity. }
  split; rewrite run_app.
  - assert (E : run ws_upload_file 20 [calm; calm; send_fails; send_fails; send_fails]
                  (start (item :: q) false (<[item := data]> fs) 0)
                = mkThread AtInnerCheck q false (<[item := data]> fs) 0
                    [EvAttempt (SendFailed item); EvConnect 0 true;
                     EvLed DATA_LED_UPLOADING]).
    { unfold run, step, thread_step, others_step, start, calm, send_fails.
      cbn [fold_left pc queue stop_event files clock log put set_stop elapsed
           connect_ok read_ok send_ok remove_ok close_ok orb goto emit].
      rewrite Hfile. rewrite !Nat.add_0_r. reflexivity. }
    rewrite E.
    match goal with
    | |- context [run _ _ (map failing inputs) ?u] =>
        pose proof (failing_run ws_upload_file 20 inputs ws_upload_file_fails u I eq_refl Hlog) as H
    end.
    cbv zeta in H. cbn [pc stop_event log files clock connects] in H.
    destruct H as (Hc & Hs & Hl & Hn & Hf & Ht & Hm).
    repeat split; auto. apply Hm. apply elem_of_cons. left. reflexivity.
  - assert (E : run ws_upload_data 50 [calm; calm; send_fails; send_fails; send_fails]
                  (start (item :: q) false (<[item := data]> fs) 0)
                = mkThread AtInnerCheck q false (<[item := data]> fs) 0
                    [EvAttempt (SendFailed item); EvConnect 0 true;
                     EvLed DATA_LED_UPLOADING]).
    { unfold run, step, thread_step, others_step, start, calm, send_fails, ws_upload_data.
      cbn [fold_left pc queue stop_event files clock log put set_stop elapsed
           connect_ok read_ok send_ok remove_ok close_ok orb goto emit].
      rewrite !Nat.add_0_r. reflexivity. }
    rewrite E.
    match goal with
    | |- context [run _ _ (map failing inputs) ?u] =>
        pose proof (failing_run ws_upload_data 50 inputs ws_upload_data_fails u I eq_refl Hlog) as H
    end.
    cbv zeta in H. cbn [pc stop_event log files clock connects] in H.
    destruct H as (Hc & Hs & Hl & Hn & Hf & Ht & Hm).
    repeat split; auto. apply Hm. apply elem_of_cons. left. reflexivity.
Qed.


(** ** The error blink *)

Lemma while_S {St : Type} (fuel : nat) (cond : St -> bool) (body : St -> St) (s : St) :
  while (S fuel) cond body s
  = if cond s then while fuel cond body (body s) else Returned s.
Proof. reflexivity. Qed.

(** The blink loop while the duration lasts: after [n] tests of its
    condition it has run [n] rounds, and runs on. *)
Lemma while_blink_running (d : Z) (n : nat) :
  forall b : Blink,
    Z.of_nat n <= Z.max 0 (d - running_t b) ->
    while n (fun b => running_t b <? d) blink_once b
    = Running (mkBlink (running_t b + Z.of_nat n)
                       (Nat.iter n negb (state b))
                       (did b ++ blink_rounds n (state b))).
Proof.
  induction n as [|n IH]; intros b Hn.
  - cbn [while Nat.iter blink_rounds]. rewrite app_nil_r, Z.add_0_r.
    destruct b; reflexivity.
  - rewrite while_S. destruct (Z.ltb_spec (running_t b) d) as [Hlt|Hge]; [|lia].
    assert (Hrest : Z.of_nat n <= Z.max 0 (d - running_t (blink_once b)))
      by (unfold blink_once; cbn [running_t]; lia).
    rewrite (IH (blink_once b) Hrest).
    unfold blink_once. cbn [running_t state did blink_rounds].
    f_equal. f_equal.
    + lia.
    + rewrite Nat.iter_succ_r. reflexivity.
    + rewrite <- app_assoc. reflexivity.
Qed.

(** The blink loop with enough fuel: it runs as many rounds as there are
    seconds left, and stops. *)
Lemma while_blink (d : Z) (n : nat) :
  forall (k : nat) (b : Blink),
    Z.of_nat n = Z.max 0 (d - running_t b) ->
    while (S n + k) (fun b => running_t b <? d) blink_once b
    = Returned (mkBlink (running_t b + Z.of_nat n)
                        (Nat.iter n negb (state b))
                        (did b ++ blink_rounds n (state b))).
Proof.
  induction n as [|n IH]; intros k b Hn;
    change (S ?m + k)%nat with (S (m + k)); rewrite while_S;
    destruct (Z.ltb_spec (running_t b) d) as [Hlt|Hge]; try lia.
  - cbn [Nat.iter blink_rounds]. rewrite app_nil_r, Z.add_0_r.
    destruct b; reflexivity.
  - assert (Hrest : Z.of_nat n = Z.max 0 (d - running_t (blink_once b)))
      by (unfold blink_once; cbn [running_t]; lia).
    rewrite (IH k (blink_once b) Hrest).
    unfold blink_once. cbn [running_t state did blink_rounds].
    f_equal. f_equal.
    + lia.
    + rewrite Nat.iter_succ_r. reflexivity.
    + rewrite <- app_assoc. reflexivity.
Qed.

(** The loop [while True: time.sleep(60)] never ends: after any number of
    tests it has slept as many times, and runs on. *)
Lemma while_sleep (fuel : nat) :
  forall b : Blink,
    while fuel (fun _ => true) sleep_once b
    = Running (mkBlink (running_t b) (state b) (did b ++ repeat (Sleep 60) fuel)).
Proof.
  induction fuel as [|fuel IH]; intros b.
  - cbn [while repeat]. rewrite app_nil_r. destruct b; reflexivity.
  - rewrite while_S, IH. unfold sleep_once. cbn [running_t state did repeat].
    rewrite <- app_assoc. reflexivity.
Qed.

(** Called without a duration, the function only sleeps, and does not
    return. *)
Lemma blink_error_leds_without_duration (reboot_allowed : bool) (fuel : nat) :
  blink_error_leds reboot_allowed None fuel = Running (repeat (Sleep 60) fuel).
Proof. unfold blink_error_leds. rewrite while_sleep. reflexivity. Qed.

(** C8 as the specification words it fails when reboot is disallowed:
    with a duration of two seconds the function blinks twice and returns,
    without a reboot and without blinking any further. *)
Lemma blink_returns_when_reboot_disallowed :
  blink_error_leds false (Some 2) 3
  = Returned [ SetLed REC_LED_CHS LED_ALL_ON; SetLed DATA_LED_CHS LED_ALL_ON; Sleep 1;
               SetLed REC_LED_CHS LED_ALL_OFF; SetLed DATA_LED_CHS LED_ALL_OFF; Sleep 1 ].
Proof. reflexivity. Qed.

(** C8, as the code has it: given a duration, the function sets both
    status LEDs all on and all off in turn, once per second: as long as the
    duration lasts it has not returned and has blinked once per test of its
    loop; when the duration has elapsed it returns, and it issues the
    reboot before it returns exactly when reboot is allowed.  The recovery
    path of the daemon calls it with 300 seconds and reboot allowed. *)
Theorem blink_error_leds_returns (reboot_allowed : bool) (d : Z) (k : nat) :
  (forall n : nat,
      (n <= Z.to_nat d)%nat ->
      blink_error_leds reboot_allowed (Some d) n = Running (blink_rounds n true))
  /\ blink_error_leds reboot_allowed (Some d) (S (Z.to_nat d) + k)
     = Returned (blink_rounds (Z.to_nat d) true
                 ++ if reboot_allowed then [CmdLine "sudo reboot"] else [])
  /\ blink_error_leds REBOOT_ALLOWED (Some ERROR_WAIT_REBOOT_S) (301 + k)
     = Returned (blink_rounds 300 true ++ [CmdLine "sudo reboot"]).
Proof.
  assert (H : forall ra dur, blink_error_leds ra (Some dur) (S (Z.to_nat dur) + k)
              = Returned (blink_rounds (Z.to_nat dur) true
                          ++ if ra then [CmdLine "sudo reboot"] else [])).
  { intros ra dur. unfold blink_error_leds. rewrite while_blink.
    - cbn [did app]. destruct ra; [reflexivity | rewrite app_nil_r; reflexivity].
    - cbn [running_t]. lia. }
  split; [|split; [apply H | exact (H REBOOT_ALLOWED ERROR_WAIT_REBOOT_S)]].
  intros n Hn. unfold blink_error_leds. rewrite while_blink_running.
  - reflexivity.
  - cbn [running_t]. lia.
Qed.

End BuggdFacts.

(** * More facts about strings: prefixes, substrings and lines *)

Module PyLines.
Import Py PyFacts.

(** ** Prefixes *)

Lemma startswith_app (a b : string) : startswith a (a +:+ b) = true.
Proof.
  induction a as [|c a IH]; [reflexivity|].
  rewrite append_cons. cbn [startswith]. rewrite Ascii.eqb_refl. exact IH.
Qed.

Lemma startswith_trans (a : string) :
  forall b c, startswith a b = true -> startswith b c = true -> startswith a c = true.
Proof.
  induction a as [|x a IH]; intros b c Hab Hbc; [reflexivity|].
  destruct b as [|y b]; [discriminate|]. destruct c as [|z c]; [discriminate|].
  cbn [startswith] in *.
  apply andb_true_iff in Hab as [Hxy Hab]. apply andb_true_iff in Hbc as [Hyz Hbc].
  apply Ascii.eqb_eq in Hxy. apply Ascii.eqb_eq in Hyz. subst.
  rewrite Ascii.eqb_refl. cbn. eapply IH; eauto.
Qed.

(** ** Substrings and the lines of a file *)

Lemma contains_cons (p : string) (c : ascii) (s : string) :
  contains p s = true -> contains p (String c s) = true.
Proof. intros H. cbn [contains]. rewrite H. apply orb_true_r. Qed.

Lemma contains_startswith (p s : string) :
  startswith p s = true -> contains p s = true.
Proof.
  intros H. destruct s as [|c s]; [exact H|].
  cbn [contains]. rewrite H. reflexivity.
Qed.

Lemma startswith_LF (p s : string) :
  char_in LF p = false -> startswith p (String LF s) = true -> p = EmptyString.
Proof.
  destruct p as [|x q]; [reflexivity|]. cbn [startswith char_in].
  intros HLF H. apply andb_true_iff in H as [H _].
  apply orb_false_iff in HLF as [H' _]. congruence.
Qed.

Lemma contains_empty (s : string) : contains EmptyString s = true.
Proof. destruct s; reflexivity. Qed.

(** Translating the line ends brings no text without line ends into being:
    what the translation starts with, the text started with. *)
Lemma startswith_translate (p : string) :
  char_in LF p = false -> char_in CR p = false ->
  forall s, startswith p (translate_newlines false s) = true -> startswith p s = true.
Proof.
  induction p as [|x p IH]; intros HLF HCR s H; [reflexivity|].
  cbn [char_in] in HLF, HCR.
  apply orb_false_iff in HLF as [HxLF HLF]. apply orb_false_iff in HCR as [HxCR HCR].
  destruct s as [|c s]; [discriminate H|].
  cbn [translate_newlines] in H.
  destruct (Ascii.eqb c CR) eqn:ECR.
  { cbn [startswith] in H. apply andb_true_iff in H as [H _]. congruence. }
  destruct (Ascii.eqb c LF) eqn:ELF.
  { cbn [startswith] in H. apply andb_true_iff in H as [H _]. congruence. }
  cbn [startswith] in *. apply andb_true_iff in H as [-> H].
  apply (IH HLF HCR). exact H.
Qed.

Lemma contains_translate (p : string) :
  char_in LF p = false -> char_in CR p = false ->
  forall s pending,
    contains p (translate_newlines pending s) = true -> contains p s = true.
Proof.
  intros HLF HCR.
  induction s as [|c s IH]; intros pending H; [exact H|].
  assert (Hline : forall b, contains p (String LF (translate_newlines b s)) = true
                  -> contains p (String c s) = true).
  { intros b H'. cbn [contains] in H'. apply orb_true_iff in H' as [H'|H'].
    - rewrite (startswith_LF _ _ HLF H'). apply contains_empty.
    - apply contains_cons. eapply IH; eauto. }
  cbn [translate_newlines] in H.
  destruct (Ascii.eqb c CR) eqn:ECR; [exact (Hline _ H)|].
  destruct (Ascii.eqb c LF) eqn:ELF.
  { destruct pending; [apply contains_cons; eapply IH; eauto | exact (Hline _ H)]. }
  cbn [contains] in H. apply orb_true_iff in H as [H|H].
  - apply contains_startswith. apply (startswith_translate p HLF HCR).
    cbn [translate_newlines]. rewrite ECR, ELF. exact H.
  - apply contains_cons. eapply IH; eauto.
Qed.

Lemma keepends_nil (s : string) : keepends s = [] -> s = EmptyString.
Proof.
  destruct s as [|c s]; [reflexivity|]. cbn [keepends].
  destruct (Ascii.eqb c LF); [discriminate|]. destruct (keepends s); discriminate.
Qed.

(** The first line of a text is a prefix of the text. *)
Lemma keepends_head (s : string) :
  forall line lines, keepends s = line :: lines -> startswith line s = true.
Proof.
  induction s as [|c s IH]; intros line lines H; [discriminate|].
  cbn [keepends] in H. destruct (Ascii.eqb c LF) eqn:ELF.
  - injection H as <- _. apply Ascii.eqb_eq in ELF. subst c.
    unfold nl. cbn [startswith]. rewrite Ascii.eqb_refl. reflexivity.
  - destruct (keepends s) as [|l ls] eqn:E.
    + injection H as <- _. cbn [startswith]. rewrite Ascii.eqb_refl. reflexivity.
    + injection H as <- _. cbn [startswith]. rewrite Ascii.eqb_refl.
      rewrite andb_true_l. eapply IH; eauto.
Qed.

(** A line of a text holds no text without a line feed that the text does
    not hold. *)
Lemma contains_keepends (p : string) :
  char_in LF p = false ->
  forall s line, In line (keepends s) -> contains p line = true -> contains p s = true.
Proof.
  intros HLF.
  induction s as [|c s IH]; intros line Hin Hp; [destruct Hin|].
  cbn [keepends] in Hin. destruct (Ascii.eqb c LF) eqn:ELF.
  - destruct Hin as [<-|Hin].
    + unfold nl in Hp. cbn [contains] in Hp. apply orb_true_iff in Hp as [Hp|Hp].
      * rewrite (startswith_LF _ _ HLF Hp). apply contains_empty.
      * destruct p; [apply contains_empty | discriminate Hp].
    + apply contains_cons. eapply IH; eauto.
  - destruct (keepends s) as [|l ls] eqn:E.
    + apply keepends_nil in E. subst s.
      destruct Hin as [<-|[]]. exact Hp.
    + destruct Hin as [<-|Hin].
      * cbn [contains] in Hp. apply orb_true_iff in Hp as [Hp|Hp].
        -- apply contains_startswith.
           apply (startswith_trans p (String c l) (String c s) Hp).
           cbn [startswith]. rewrite Ascii.eqb_refl, andb_true_l.
           eapply keepends_head; eauto.
        -- apply contains_cons. apply (IH l); [left; reflexivity | exact Hp].
      * apply contains_cons. apply (IH line); [right; exact Hin | exact Hp].
Qed.

(** ** What a prefix of a text holds *)

Lemma contains_prefix (p a : string) :
  forall s, startswith a s = true -> contains p a = true -> contains p s = true.
Proof.
  induction a as [|c a IH]; intros s Hs Hp.
  - cbn [contains] in Hp. destruct p; [apply contains_empty | discriminate Hp].
  - destruct s as [|c' s]; [discriminate Hs|].
    cbn [startswith] in Hs. apply andb_true_iff in Hs as [Hc Hs].
    apply Ascii.eqb_eq in Hc. subst c'.
    cbn [contains] in Hp. apply orb_true_iff in Hp as [Hp|Hp].
    + apply contains_startswith.
      apply (startswith_trans p (String c a) (String c s) Hp).
      cbn [startswith]. rewrite Ascii.eqb_refl. exact Hs.
    + apply contains_cons. apply IH; assumption.
Qed.

Lemma startswith_substring (n : nat) :
  forall s, startswith (substring 0 n s) s = true.
Proof.
  induction n as [|n IH]; intros [|c s]; try reflexivity.
  cbn [substring startswith]. rewrite Ascii.eqb_refl. apply IH.
Qed.

Lemma startswith_drop_last (k : nat) (s : string) : startswith (drop_last k s) s = true.
Proof. apply startswith_substring. Qed.

Lemma startswith_refl (s : string) : startswith s s = true.
Proof.
  induction s as [|c s IH]; [reflexivity|].
  cbn [startswith]. rewrite Ascii.eqb_refl. exact IH.
Qed.

(** What the reader has made available is a prefix of what it has taken
    in. *)
Lemma startswith_withheld (s : string) : startswith (withheld s) s = true.
Proof.
  unfold withheld.
  set (whole := if utf8_text s then s
                else if utf8_text (drop_last 1 s) then drop_last 1 s
                     else if utf8_text (drop_last 2 s) then drop_last 2 s
                          else drop_last 3 s).
  assert (Hwhole : startswith whole s = true).
  { subst whole. destruct (utf8_text s); [apply startswith_refl|].
    destruct (utf8_text (drop_last 1 s)); [apply startswith_drop_last|].
    destruct (utf8_text (drop_last 2 s)); apply startswith_drop_last. }
  destruct (endswith whole _); [|exact Hwhole].
  apply (startswith_trans _ whole s); [apply startswith_drop_last | exact Hwhole].
Qed.

(** The lines the reader yields of a file it has taken [taken] of hold no
    text without line ends that the file does not hold. *)
Lemma contains_complete_lines (p taken content line : string) :
  char_in LF p = false -> char_in CR p = false ->
  startswith taken content = true ->
  In line (complete_lines (translate_newlines false (withheld taken))) ->
  contains p line = true -> contains p content = true.
Proof.
  intros HLF HCR Htaken Hin Hp. unfold complete_lines in Hin.
  apply List.filter_In in Hin as [Hin _].
  apply (contains_prefix p taken content Htaken).
  apply (contains_prefix p (withheld taken) taken (startswith_withheld taken)).
  apply (contains_translate p HLF HCR _ false).
  apply (contains_keepends p HLF _ line Hin Hp).
Qed.

(** [os.path.join(a, b)] extends [a] when [b] is not an absolute path. *)
Lemma path_join_extends (a b : string) :
  startswith "/" b = false -> startswith a (path_join a b) = true.
Proof.
  intros Hb. unfold path_join. rewrite Hb.
  destruct (_ || _); apply startswith_app.
Qed.

End PyLines.

(** * What the LEDs show *)

Module LedsShow.
Import Leds LedsFacts.

(** ** Writes to the port *)

Lemma Driver_set_length (ch : Channel) (v : Z) (drv : Driver) :
  length (Driver_set ch v drv) = length drv.
Proof.
  unfold Driver_set. destruct (_ && _); [apply length_insert | reflexivity].
Qed.

Lemma Driver_set_other (ch : Channel) (v : Z) (drv : Driver) (j : nat) :
  Z.of_nat j <> channel_int ch -> Driver_set ch v drv !! j = drv !! j.
Proof.
  intros Hne. unfold Driver_set. destruct (_ && _) eqn:E; [|reflexivity].
  apply andb_true_iff in E as [E1 E2]. apply Z.leb_le in E1.
  apply list_lookup_insert_ne. lia.
Qed.

Lemma Driver_set_pin (n : nat) (v : Z) (drv : Driver) :
  (n < 8)%nat -> (n < length drv)%nat ->
  Driver_set (Pin (Z.of_nat n)) v drv !! n = Some (negb (truthy v)).
Proof.
  intros H8 Hlen. unfold Driver_set, channel_int.
  destruct (Z.leb_spec 0 (Z.of_nat n)); [|lia].
  destruct (Z.ltb_spec (Z.of_nat n) 8); [|lia]. cbn [andb].
  rewrite Nat2Z.id. apply list_lookup_insert_eq. exact Hlen.
Qed.

(** [Driver.set] outside [range(8)] changes nothing. *)
Lemma Driver_set_out_of_range (n : Z) (v : Z) (drv : Driver) :
  n < 0 \/ 8 <= n -> Driver_set (Pin n) v drv = drv.
Proof.
  intros H. unfold Driver_set, channel_int.
  destruct (Z.leb_spec 0 n); destruct (Z.ltb_spec n 8); cbn [andb]; try reflexivity; lia.
Qed.


(** What [LED.set] does on an LED whose three channels are pins. *)
Lemma LED_set_pins (led : LED) (pr pg pb : Z) (colour : Colour) (drv : Driver) :
  ch_r led = Pin pr -> ch_g led = Pin pg -> ch_b led = Pin pb ->
  LED_set led colour drv
  = (let '(r, g, b) := COLOUR_THEORY colour in
     Driver_set (Pin pb) b (Driver_set (Pin pg) g (Driver_set (Pin pr) r drv)), inr tt).
Proof.
  intros Hr Hg Hb. unfold LED_set, channels_items. rewrite Hr, Hg, Hb.
  destruct colour; reflexivity.
Qed.

(** X1: An LED on three different pins of the port shows the colour it was set
    to, whatever it showed before; the set never raises, and no other pin of
    the port changes. *)
Theorem LED_set_then_shows (led : LED) (pr pg pb : nat) (colour : Colour) (drv : Driver) :
  ch_r led = Pin (Z.of_nat pr) -> ch_g led = Pin (Z.of_nat pg) ->
  ch_b led = Pin (Z.of_nat pb) ->
  (pr < 8)%nat -> (pg < 8)%nat -> (pb < 8)%nat ->
  pr <> pg -> pg <> pb -> pr <> pb ->
  length drv = 8%nat ->
  let '(drv', result) := LED_set led colour drv in
  result = inr tt
  /\ LED_shows led drv' = Some colour
  /\ length drv' = 8%nat
  /\ (forall j : nat, j <> pr -> j <> pg -> j <> pb -> drv' !! j = drv !! j).
Proof.
  intros Hr Hg Hb Br Bg Bb Nrg Ngb Nrb Hlen.
  rewrite (LED_set_pins led _ _ _ colour drv Hr Hg Hb).
  destruct (COLOUR_THEORY colour) as [[r g] b] eqn:Hc.
  split; [reflexivity|]. split; [|split].
  - unfold LED_shows, pin_lit. rewrite Hr, Hg, Hb.
    destruct (Z.leb_spec 0 (Z.of_nat pr)); [|lia].
    destruct (Z.leb_spec 0 (Z.of_nat pg)); [|lia].
    destruct (Z.leb_spec 0 (Z.of_nat pb)); [|lia].
    rewrite !Nat2Z.id.
    rewrite (Driver_set_other (Pin (Z.of_nat pb))) by (cbn; lia).
    rewrite (Driver_set_other (Pin (Z.of_nat pg)) _ _ pr) by (cbn; lia).
    rewrite (Driver_set_other (Pin (Z.of_nat pb)) _ _ pg) by (cbn; lia).
    rewrite !Driver_set_pin by (rewrite ?Driver_set_length; lia).
    cbn [fmap option_fmap option_map].
    destruct colour; cbn in Hc; injection Hc as <- <- <-; reflexivity.
  - rewrite !Driver_set_length. exact Hlen.
  - intros j Jr Jg Jb. rewrite !Driver_set_other by (cbn; lia). reflexivity.
Qed.

Lemma LED_set_then_shows_witness :
  let '(drv', result) := LED_set (top LEDs_new) CYAN port_reset in
  result = inr tt
  /\ LED_shows (top LEDs_new) drv' = Some CYAN
  /\ length drv' = 8%nat
  /\ (forall j : nat, j <> 7%nat -> j <> 6%nat -> j <> 5%nat -> drv' !! j = port_reset !! j).
Proof.
  apply (LED_set_then_shows (top LEDs_new) 7 6 5 CYAN port_reset);
    first [reflexivity | lia].
Defined.

(** X2: The colour named in the error of [LED.set] is the colour that was asked
    for: the table of colours read backwards sends the triple of every colour
    to that colour. *)
Theorem inv_map_get_COLOUR_THEORY (colour : Colour) :
  inv_map_get (COLOUR_THEORY colour) = Some colour
  /\ (forall (led : LED) (drv : Driver) (e : ValueError),
         snd (LED_set led colour drv) = inl e -> err_colour e = Some colour).
Proof.
  split; [destruct colour; reflexivity|].
  intros led drv e. unfold LED_set.
  destruct colour; cbv zeta; cbn [COLOUR_THEORY];
    (destruct (stuck_channel 0 (channels_items led) _) as [[name wired]|];
     cbn [snd]; intros H; [injection H as <-; reflexivity | discriminate]).
Qed.


(** ** The three LEDs of the device *)

(** Takes the LEDs apart: the three records and the eight pins. *)
Ltac open_leds l H :=
  destruct l as [port [tr tg tb tf] [mr mg mb mf] [br bg bb bf]];
  destruct H as (Ht & Hm & Hb & Hlen);
  cbn [channels top middle bottom driver ch_r ch_g ch_b] in Ht, Hm, Hb, Hlen;
  injection Ht as -> -> ->; injection Hm as -> -> ->; injection Hb as -> -> ->;
  do 9 (destruct port as [|? port]; try discriminate Hlen); clear Hlen.

(** X3: The bottom LED, whose red channel is hard-wired on, takes the colours
    with a red component and no other: for these [set] returns, for the
    others it raises on the channel "red" and leaves the port as it was. *)
Theorem bottom_LED_takes_red (l : LEDs) (colour : Colour) :
  wired_as_LEDs l ->
  let '(l', result) := LEDs_set bottom colour l in
  (red_of colour = 1 -> result = inr tt /\ shown Bottom l' = Some colour)
  /\ (red_of colour <> 1 ->
      exists e, result = inl e /\ l' = l
                /\ err_channel e = "red" /\ err_wired e = true
                /\ err_colour e = Some colour).
Proof.
  intros H. open_leds l H.
  destruct colour; cbn; split; intros Hred; try (exfalso; lia; fail);
    try (split; reflexivity); try (eexists; repeat split; reflexivity).
Qed.

Lemma bottom_LED_takes_red_witness :
  let '(l', result) := LEDs_set bottom YELLOW LEDs_new in
  (red_of YELLOW = 1 -> result = inr tt /\ shown Bottom l' = Some YELLOW)
  /\ (red_of YELLOW <> 1 ->
      exists e, result = inl e /\ l' = LEDs_new
                /\ err_channel e = "red" /\ err_wired e = true
                /\ err_colour e = Some YELLOW).
Proof.
  apply (bottom_LED_takes_red LEDs_new YELLOW). repeat split.
Defined.

(** X4: Setting one of the three LEDs leaves the colours of the other two as
    they were, whether the set returns or raises; the wiring and the flags
    stay as they are. *)
Theorem LEDs_set_leaves_others (l : LEDs) (p q : Position) (colour : Colour) :
  wired_as_LEDs l ->
  p <> q ->
  let l' := fst (LEDs_set (which p) colour l) in
  shown q l' = shown q l
  /\ wired_as_LEDs l'
  /\ (top l', middle l', bottom l') = (top l, middle l, bottom l).
Proof.
  intros H Hpq. open_leds l H.
  destruct p, q; try congruence; destruct colour; cbn;
    (split; [reflexivity | split; [repeat split | reflexivity]]).
Qed.

Lemma LEDs_set_leaves_others_witness :
  let l' := fst (LEDs_set (which Bottom) WHITE LEDs_new) in
  shown Top l' = shown Top LEDs_new
  /\ wired_as_LEDs l'
  /\ (top l', middle l', bottom l') = (top LEDs_new, middle LEDs_new, bottom LEDs_new).
Proof.
  apply (LEDs_set_leaves_others LEDs_new Bottom Top WHITE); [repeat split | discriminate].
Defined.

(** X5: [all_off] never raises on the LEDs of the device; afterwards the top and
    the middle LED are off and the bottom LED is red. *)
Theorem LEDs_all_off_shows (l : LEDs) :
  wired_as_LEDs l ->
  let '(l', result) := LEDs_all_off l in
  result = inr tt
  /\ shown Top l' = Some BLACK /\ shown Middle l' = Some BLACK
  /\ shown Bottom l' = Some RED
  /\ wired_as_LEDs l'.
Proof.
  intros H. open_leds l H. cbn. repeat split.
Qed.

Lemma LEDs_all_off_shows_witness :
  let '(l', result) := LEDs_all_off LEDs_new in
  result = inr tt
  /\ shown Top l' = Some BLACK /\ shown Middle l' = Some BLACK
  /\ shown Bottom l' = Some RED
  /\ wired_as_LEDs l'.
Proof. apply (LEDs_all_off_shows LEDs_new). repeat split. Defined.

(** X6: [at_exit] never raises on the LEDs of the device; an LED flagged
    [stay_on_at_exit] keeps its colour, the others are turned off, which for
    the bottom LED is red. *)
Theorem LEDs_at_exit_keeps_flagged (l : LEDs) :
  wired_as_LEDs l ->
  let '(l', result) := LEDs_at_exit l in
  result = inr tt
  /\ shown Top l' = (if stay_on_at_exit (top l) then shown Top l else Some BLACK)
  /\ shown Middle l' = (if stay_on_at_exit (middle l) then shown Middle l else Some BLACK)
  /\ shown Bottom l' = (if stay_on_at_exit (bottom l) then shown Bottom l else Some RED).
Proof.
  intros H. open_leds l H.
  destruct tf, mf, bf; cbn; repeat split.
Qed.

Lemma LEDs_at_exit_keeps_flagged_witness :
  let '(l', result) := LEDs_at_exit LEDs_new in
  result = inr tt
  /\ shown Top l' = (if stay_on_at_exit (top LEDs_new) then shown Top LEDs_new else Some BLACK)
  /\ shown Middle l'
     = (if stay_on_at_exit (middle LEDs_new) then shown Middle LEDs_new else Some BLACK)
  /\ shown Bottom l'
     = (if stay_on_at_exit (bottom LEDs_new) then shown Bottom LEDs_new else Some RED).
Proof. apply (LEDs_at_exit_keeps_flagged LEDs_new). repeat split. Defined.

End LedsShow.

(** * The groups of tests, the results file and the next boot *)

Module SelfTestFacts.
Import Leds Py PyFacts PyLines Factory FactoryFacts.

(** ** The groups of tests *)

Lemma spares_ret (c : Category) {A} (a : A) : spares c (ret a).
Proof. intros w. reflexivity. Qed.

Lemma spares_raise (c : Category) {A} : spares c (@raise A).
Proof. intros w. reflexivity. Qed.

Lemma spares_call (c : Category) {A} (o : Outcome A) : spares c (call o).
Proof. intros w. reflexivity. Qed.

Lemma spares_sleep (c : Category) (s : Z) : spares c (sleep s).
Proof. intros w. reflexivity. Qed.

Lemma spares_call_soundcard (c : Category) {A} (call : SoundcardCall A) :
  spares c (call_soundcard call).
Proof. intros w. reflexivity. Qed.

Lemma spares_bind (c : Category) {A B} (m : M A) (k : A -> M B) :
  spares c m -> (forall a, spares c (k a)) -> spares c (bind m k).
Proof.
  intros Hm Hk w. unfold bind. specialize (Hm w).
  destruct (m w) as [w1 [|a]]; cbn [fst] in *; [exact Hm|].
  rewrite (Hk a w1). exact Hm.
Qed.

Lemma spares_try_except (c : Category) {A} (body handler : M A) :
  spares c body -> spares c handler -> spares c (try_except body handler).
Proof.
  intros Hb Hh w. unfold try_except. specialize (Hb w).
  destruct (body w) as [w1 [|a]]; cbn [fst] in *; [|exact Hb].
  rewrite (Hh w1). exact Hb.
Qed.

Lemma spares_poll_rssi (c : Category) (hw : Hardware) (tries : nat) :
  forall n rssi, spares c (poll_rssi hw tries n rssi).
Proof.
  intros n rssi w. rewrite poll_rssi_results. reflexivity.
Qed.

Ltac spares_step :=
  first
    [ apply spares_ret | apply spares_raise | apply spares_call
    | apply spares_call_soundcard
    | apply spares_sleep | apply spares_poll_rssi
    | apply spares_try_except
    | apply spares_bind; [|intros ?]
    | match goal with
      | |- spares _ (if ?b then _ else _) => destruct b
      | |- spares _ (match ?x with _ => _ end) => destruct x
      | |- spares _ (modify (set_results _)) => intros ?; reflexivity
      end ].

(** *** The files *)

Lemma keeps_files_ret {A} (a : A) : keeps_files (ret a).
Proof. intros w. reflexivity. Qed.

Lemma keeps_files_raise {A} : keeps_files (@raise A).
Proof. intros w. reflexivity. Qed.

Lemma keeps_files_call {A} (o : Outcome A) : keeps_files (call o).
Proof. intros w. reflexivity. Qed.

Lemma keeps_files_set_results (f : Results -> Results) :
  keeps_files (modify (set_results f)).
Proof. intros w. reflexivity. Qed.

Lemma keeps_files_sleep (s : Z) : keeps_files (sleep s).
Proof. intros w. reflexivity. Qed.

Lemma keeps_files_bind {A B} (m : M A) (k : A -> M B) :
  keeps_files m -> (forall a, keeps_files (k a)) -> keeps_files (bind m k).
Proof.
  intros Hm Hk w. unfold bind. specialize (Hm w).
  destruct (m w) as [w1 [|a]]; cbn [fst] in *; [exact Hm|].
  rewrite (Hk a w1). exact Hm.
Qed.

Lemma keeps_files_try_except {A} (body handler : M A) :
  keeps_files body -> keeps_files handler -> keeps_files (try_except body handler).
Proof.
  intros Hb Hh w. unfold try_except. specialize (Hb w).
  destruct (body w) as [w1 [|a]]; cbn [fst] in *; [|exact Hb].
  rewrite (Hh w1). exact Hb.
Qed.

Ltac keeps_files_step :=
  first
    [ apply keeps_files_ret | apply keeps_files_raise | apply keeps_files_call
    | apply keeps_files_set_results | apply keeps_files_sleep
    | apply keeps_files_try_except
    | apply keeps_files_bind; [|intros ?]
    | match goal with
      | |- keeps_files (if ?b then _ else _) => destruct b
      | |- keeps_files (match ?x with _ => _ end) => destruct x
      end ].

Lemma keeps_files_poll_rssi (hw : Hardware) (tries : nat) :
  forall n rssi, keeps_files (poll_rssi hw tries n rssi).
Proof.
  induction tries as [|tries IH]; intros n rssi; cbn [poll_rssi].
  - apply keeps_files_ret.
  - repeat keeps_files_step. apply IH.
Qed.

Lemma keeps_files_test_modem (hw : Hardware) : keeps_files (test_modem hw).
Proof.
  unfold test_modem, test_modem_tests.
  repeat first [apply keeps_files_poll_rssi | keeps_files_step].
Qed.

Lemma keeps_files_test_i2c_devices (hw : Hardware) : keeps_files (test_i2c_devices hw).
Proof. unfold test_i2c_devices. repeat keeps_files_step. Qed.

(** X7: Each group of tests returns whatever the hardware does, and assigns no
    entry of the results outside its own category: the modem tests leave the
    entries of the bus devices and of the recording as they are, and so on.
    None of them touches the verdict or the LEDs.  The modem tests and the
    tests of the bus devices leave the files as they are; the recording test
    leaves every file as it is but the files of the soundcard (its lock
    file, its state file and the two files of the test recording), and what
    it leaves of these is what the calls into the soundcard driver leave,
    one after the other. *)
Theorem test_groups_keep_to_their_category (hw : Hardware) (w : World) :
  (exists completed, snd (test_modem hw w) = Return completed)
  /\ (exists completed, snd (test_i2c_devices hw w) = Return completed)
  /\ (exists completed, snd (test_recording hw w) = Return completed)
  /\ (forall c, c <> Modem ->
        tests_of c (results (fst (test_modem hw w))) = tests_of c (results w))
  /\ (forall c, c <> Bus ->
        tests_of c (results (fst (test_i2c_devices hw w))) = tests_of c (results w))
  /\ (forall c, c <> Recording ->
        tests_of c (results (fst (test_recording hw w))) = tests_of c (results w))
  /\ (forall group, In group [test_modem hw; test_i2c_devices hw; test_recording hw] ->
        all_passed (fst (group w)) = all_passed w
        /\ leds (fst (group w)) = leds w
        /\ forall path, path ∉ soundcard_files ->
                        fs (fst (group w)) !! path = fs w !! path)
  /\ fs (fst (test_modem hw w)) = fs w
  /\ fs (fst (test_i2c_devices hw w)) = fs w
  /\ (outcome (Soundcard_new hw) = Return tt ->
      outcome (soundcard_channels hw) = Return tt ->
      fs (fst (test_recording hw w))
      = let files1 := leave (leaves (Soundcard_new hw) (fs w)) (fs w) in
        let files2 := leave (leaves (soundcard_channels hw) files1) files1 in
        let files3 := leave (leaves (measure_variance hw) files2) files2 in
        match outcome (measure_variance hw) with
        | Return (Some _) => leave (leaves (soundcard_close hw) files3) files3
        | _ => files3
        end).
Proof.
  split; [apply returns_test_modem|].
  split; [apply returns_test_i2c_devices|].
  split; [apply returns_test_recording|].
  split; [|split; [|split; [|split; [|split; [|split]]]]].
  - intros c Hc. revert w.
    change (spares c (test_modem hw)). unfold test_modem, test_modem_tests.
    destruct c; [congruence| |]; repeat spares_step.
  - intros c Hc. revert w.
    change (spares c (test_i2c_devices hw)). unfold test_i2c_devices.
    destruct c; [|congruence|]; repeat spares_step.
  - intros c Hc. revert w.
    change (spares c (test_recording hw)). unfold test_recording.
    destruct c; [| |congruence]; repeat spares_step.
  - intros group [<-|[<-|[<-|[]]]].
    + apply keeps_test_modem.
    + apply keeps_test_i2c_devices.
    + apply keeps_test_recording.
  - apply keeps_files_test_modem.
  - apply keeps_files_test_i2c_devices.
  - intros Hnew Hchannels.
    unfold test_recording, try_except, bind, call_soundcard, modify, ret.
    rewrite Hnew, Hchannels. cbn [fs set_fs].
    destruct (outcome (measure_variance hw)) as [|[[internal external]|]];
      try destruct (outcome (soundcard_close hw)) as [|[]]; reflexivity.
Qed.

(** X8: The modem test waits one second after each reading of the signal
    strength and nowhere else: it sleeps six seconds at most, whatever the
    modem answers and whether the test runs to its end or not. *)
Theorem test_modem_sleeps_at_most_six (hw : Hardware) (w : World) :
  slept w <= slept (fst (test_modem hw w)) <= slept w + 6.
Proof.
  unfold test_modem, test_modem_tests, try_except, bind, call, ret, raise, modify.
  repeat match goal with
    | |- context [match ?o with Raise => _ | Return _ => _ end] =>
        lazymatch o with
        | context [poll_rssi] => fail
        | _ => destruct o as [|[]]
        end
    end; cbn [fst snd slept set_results]; try lia.
  all: match goal with
       | |- context [poll_rssi ?h 6 0 None ?w1] =>
           pose proof (poll_rssi_slept h 6 0 None w1) as Hs;
           destruct (poll_rssi h 6 0 None w1) as [w2 [|[r|]]]
       end; cbn [fst snd slept set_results] in *; try lia.
  all: destruct (power_off_final hw) as [|[]]; cbn [fst snd slept set_results]; lia.
Qed.

Lemma towers_found_reading_witness :
  exists (m : nat) (v : Z),
    (m < 6)%nat /\ get_rssi good_unit m = Return (Some v) /\ v <> 99.
Proof.
  apply (towers_found_reading good_unit (FactoryTest_new LEDs_new ∅)); reflexivity.
Defined.

(** ** A results file without the key *)

Lemma scan_results_no_key (lines : list string) :
  Forall (fun line => contains "all_tests_passed" line = false) lines ->
  scan_results lines = Return None.
Proof.
  induction 1 as [|line lines Hline _ IH]; [reflexivity|].
  cbn [scan_results]. rewrite Hline. exact IH.
Qed.

(** X10: A results file that holds the text [all_tests_passed] nowhere: when
    the file is text (its bytes decode as UTF-8), [passed_at_factory] falls
    off the end of its loop and returns neither [True] nor [False] but
    [None]; when it is not, the loop ends in [UnicodeDecodeError] and the
    function returns [False].  Whatever else the file holds, and whatever
    the number of bytes it is read by. *)
Theorem passed_at_factory_without_key (chunk : nat) (w : World) (content : string) :
  fs w !! results_file = Some content ->
  contains "all_tests_passed" content = false ->
  passed_at_factory chunk w = if utf8_text content then None else Some false.
Proof.
  intros Hfile Hkey. unfold passed_at_factory. rewrite Hfile.
  assert (Hlines : forall taken,
             startswith taken content = true ->
             scan_results (complete_lines (translate_newlines false (withheld taken)))
             = Return None).
  { intros taken Htaken. apply scan_results_no_key.
    apply List.Forall_forall. intros line Hin.
    destruct (contains "all_tests_passed" line) eqn:Hline; [|reflexivity].
    rewrite <- Hkey. symmetry.
    apply (contains_complete_lines "all_tests_passed" taken content line
             eq_refl eq_refl Htaken Hin Hline). }
  unfold read_text_lines, utf8_text.
  destruct (utf8_run Whole content 0) as [[|more lo hi]|index].
  - rewrite scan_results_no_key; [reflexivity|].
    apply List.Forall_forall. intros line Hin.
    destruct (contains "all_tests_passed" line) eqn:Hline; [|reflexivity].
    rewrite <- Hkey. symmetry.
    apply (contains_translate "all_tests_passed" eq_refl eq_refl content false).
    apply (contains_keepends "all_tests_passed" eq_refl _ line Hin Hline).
  - rewrite (Hlines content (startswith_refl content)). reflexivity.
  - rewrite (Hlines _ (startswith_substring _ content)). reflexivity.
Qed.

Lemma passed_at_factory_without_key_witness :
  passed_at_factory CHUNK_SIZE
    (FactoryTest_new LEDs_new {[results_file := "Factory Self-Test Results:"]})
  = (if utf8_text "Factory Self-Test Results:" then None else Some false).
Proof.
  apply (passed_at_factory_without_key CHUNK_SIZE _ "Factory Self-Test Results:"); reflexivity.
Defined.

(** ** A run and the next boot *)

(** [passed_at_factory] looks at the results file only. *)
Lemma passed_at_factory_file (chunk : nat) (w w0 : World) :
  fs w !! results_file = fs w0 !! results_file ->
  passed_at_factory chunk w = passed_at_factory chunk w0.
Proof. intros H. unfold passed_at_factory. rewrite H. reflexivity. Qed.

Lemma run_files (hw : Hardware) (serial : string) (files : gmap string string) :
  exists (w' : World) (completed : bool),
    run hw serial (FactoryTest_new LEDs_new files) = (w', Return completed)
    /\ (completed = true ->
        all_passed w' = all (values (results w'))
        /\ fs w' !! results_file
           = match results_write hw with
             | WriteOk | ChmodRaises => Some (get_results_string serial w')
             | OpenRaises => files !! results_file
             | WriteRaises kept => Some (substring 0 kept (get_results_string serial w'))
             end)
    /\ (completed = false -> fs w' !! results_file = files !! results_file).
Proof.
  destruct (run_from_tests hw serial files)
    as (wb & w2 & completed & Estart & E2 & W2 & Hpassed & Hfiles & Erun).
  pose proof results_file_apart as Hapart.
  destruct (all completed) eqn:Hall.
  - destruct (run_completed hw serial w2 W2) as (w4 & E4 & R4 & P4).
    rewrite E4 in Erun. eexists _, true. split; [exact Erun|].
    split; [|discriminate]. intros _.
    cbn [results all_passed fs set_fs]. split; [rewrite P4, R4; reflexivity|].
    rewrite written_results_file.
    destruct (results_write hw); try reflexivity. apply Hfiles, Hapart.
  - destruct (run_incomplete w2 W2) as (wd & Ed & Rd & Pd & Fd).
    rewrite Ed in Erun. exists wd, false. split; [exact Erun|].
    split; [discriminate|]. intros _. rewrite Fd. apply Hfiles, Hapart.
Qed.

(** X11: A run of the factory test followed by the check a new [FactoryTest]
    object makes at the next boot, on a device whose serial is text and
    holds no underscore.  When the run reports that all groups of tests ran
    to their end and the write of the results file does not fail, the check
    returns the conjunction of the entries of the results, whatever an older
    results file said; when [open] raises in the write, the check returns
    what it returned before the run, and when the write itself raises, the
    file holds the part of the results string that was written.  When the
    run reports [False], the check returns what it returned before the
    run. *)
Theorem run_then_passed_at_factory (hw : Hardware) (serial : string) (chunk : nat)
    (files : gmap string string) :
  utf8_text serial = true ->
  contains "_" serial = false ->
  let next_boot (files' : gmap string string) :=
    passed_at_factory chunk (FactoryTest_new LEDs_new files') in
  let '(w', completed) := run hw serial (FactoryTest_new LEDs_new files) in
  (completed = Return true
   /\ match results_write hw with
      | WriteOk | ChmodRaises => next_boot (fs w') = Some (all (values (results w')))
      | OpenRaises => next_boot (fs w') = next_boot files
      | WriteRaises kept =>
          fs w' !! results_file
          = Some (substring 0 kept (get_results_string serial w'))
      end)
  \/ (completed = Return false /\ next_boot (fs w') = next_boot files).
Proof.
  intros Htext Hserial. cbv zeta.
  destruct (run_files hw serial files) as (w' & completed & -> & Htrue & Hfalse).
  destruct completed.
  - left. split; [reflexivity|]. destruct (Htrue eq_refl) as [Hall Hfs].
    destruct (results_write hw).
    + rewrite <- Hall. apply (passed_at_factory_reads chunk serial _ _ Htext Hserial).
      exact Hfs.
    + apply passed_at_factory_file. exact Hfs.
    + exact Hfs.
    + rewrite <- Hall. apply (passed_at_factory_reads chunk serial _ _ Htext Hserial).
      exact Hfs.
  - right. split; [reflexivity|]. apply passed_at_factory_file. exact (Hfalse eq_refl).
Qed.

Lemma run_then_passed_at_factory_witness :
  let next_boot (files' : gmap string string) :=
    passed_at_factory CHUNK_SIZE (FactoryTest_new LEDs_new files') in
  let '(w', completed) :=
    run good_unit "10000000a1b2c3d4" (FactoryTest_new LEDs_new ∅) in
  (completed = Return true
   /\ match results_write good_unit with
      | WriteOk | ChmodRaises => next_boot (fs w') = Some (all (values (results w')))
      | OpenRaises => next_boot (fs w') = next_boot ∅
      | WriteRaises kept =>
          fs w' !! results_file
          = Some (substring 0 kept (get_results_string "10000000a1b2c3d4" w'))
      end)
  \/ (completed = Return false /\ next_boot (fs w') = next_boot ∅).
Proof.
  apply (run_then_passed_at_factory good_unit "10000000a1b2c3d4" CHUNK_SIZE ∅); reflexivity.
Defined.

End SelfTestFacts.

(** * The queue, the order and the files of the uploaders *)

Module UploadFacts.
Import Py PyFacts PyLines Buggd BuggdFacts.

(** ** The queue and the items *)

Section UploaderMore.

Variable upload :
  bool -> bool -> bool -> string -> gmap string string -> gmap string string * Attempt.
Variable maxsize : nat.

Hypothesis upload_item :
  forall r ok rm item fs, item_of (snd (upload r ok rm item fs)) = item.

Lemma conservation_step (u : Thread) (i : Input) :
  handled (log (step upload maxsize u i)) ++ held (pc (step upload maxsize u i))
    ++ queue (step upload maxsize u i)
  = handled (log u) ++ held (pc u) ++ queue u ++ arrival maxsize i u.
Proof.
  destruct u as [p q st fs t l]. unfold step, thread_step, others_step, arrival.
  cbn [pc queue stop_event files clock log].
  set (q' := match put i with
             | Some x => if (length q <? maxsize)%nat then q ++ [x] else q
             | None => q
             end).
  assert (Hq' : q' = q ++ match put i with
                          | Some x => if (length q <? maxsize)%nat then [x] else []
                          | None => []
                          end).
  { subst q'. destruct (put i); [destruct (_ <? _)%nat|]; rewrite ?app_nil_r; reflexivity. }
  destruct p; cbn -[Nat.ltb length].
  - destruct (st || set_stop i); cbn; rewrite Hq'; reflexivity.
  - destruct (connect_ok i); cbn; rewrite Hq'; reflexivity.
  - destruct (st || set_stop i); cbn; rewrite Hq'; reflexivity.
  - rewrite <- Hq'. destruct q' as [|item rest]; cbn; reflexivity.
  - pose proof (upload_item (read_ok i) (send_ok i) (remove_ok i) item fs) as Hitem.
    destruct (upload (read_ok i) (send_ok i) (remove_ok i) item fs) as [fs' a].
    cbn in *. subst item.
    rewrite Hq', <- !app_assoc. reflexivity.
  - destruct (close_ok i); cbn; rewrite Hq'; reflexivity.
  - cbn. rewrite Hq'. reflexivity.
  - cbn. rewrite Hq'. reflexivity.
Qed.

Lemma conservation_run (inputs : list Input) :
  forall u,
    handled (log (run upload maxsize inputs u)) ++ held (pc (run upload maxsize inputs u))
      ++ queue (run upload maxsize inputs u)
    = handled (log u) ++ held (pc u) ++ queue u ++ arrivals upload maxsize inputs u.
Proof.
  induction inputs as [|i inputs IH]; intros u.
  - cbn. rewrite app_nil_r. reflexivity.
  - unfold run. cbn [fold_left arrivals]. fold (run upload maxsize inputs (step upload maxsize u i)).
    rewrite IH. pose proof (conservation_step u i) as Hs.
    rewrite !app_assoc in Hs. rewrite !app_assoc. rewrite Hs. reflexivity.
Qed.

End UploaderMore.

(** X12: Both uploaders handle the items in the order of the queue, each item
    once: at every moment the items handled so far, the item held and the
    items still queued are, in this order, the items that were on the queue
    at the start followed by the items the queue took since. *)
Theorem uploader_keeps_order (inputs : list Input) (q : list string)
    (fs : gmap string string) (now : nat) :
  (let u := ws_uploader inputs (start q false fs now) in
   handled (log u) ++ held (pc u) ++ queue u
   = q ++ arrivals ws_upload_file 20 inputs (start q false fs now))
  /\ (let u := ws_uploader_continuous inputs (start q false fs now) in
      handled (log u) ++ held (pc u) ++ queue u
      = q ++ arrivals ws_upload_data 50 inputs (start q false fs now)).
Proof.
  split; cbv zeta.
  - unfold ws_uploader. rewrite conservation_run; [reflexivity|].
    intros r ok rm item files. unfold ws_upload_file, read_file, os_remove.
    destruct (files !! item); [destruct r, ok, rm|]; reflexivity.
  - unfold ws_uploader_continuous. rewrite conservation_run; [reflexivity|].
    intros r ok rm item files. unfold ws_upload_data. destruct ok; reflexivity.
Qed.


(** ** The files of a run *)






(** ** The walk of a sync pass *)

Section SyncWalk.

Variable Net : Type.
Variable post : Net -> string -> string -> string -> Net * Outcome Z.
Variable readable : Net -> string -> bool.
Variable removable : Net -> string -> bool.

Lemma sync_file_items (upload_url root local_f : string)
    (st : Net * gmap string string * list Attempt) :
  map item_of (snd (sync_file Net post readable removable upload_url root local_f st))
  = map item_of (snd st)
    ++ (if endswith local_f ".log" then [] else [path_join root local_f]).
Proof.
  destruct st as [[net files] log]. unfold sync_file, read_file, os_remove.
  destruct (endswith local_f ".log"); [cbn; rewrite app_nil_r; reflexivity|].
  destruct (files !! path_join root local_f) as [data|].
  - destruct (readable net (path_join root local_f));
      [|cbn [snd]; rewrite map_app; reflexivity].
    destruct (post net upload_url local_f data) as [net' [|status]];
      [|destruct (raise_for_status status);
        [|destruct (removable net' (path_join root local_f))]];
      cbn [snd]; rewrite map_app; reflexivity.
  - cbn [snd]. rewrite map_app. reflexivity.
Qed.

Lemma sync_names_items (upload_url root : string) (names : list string) :
  forall st,
    map item_of
      (snd (fold_left (fun st local_f => sync_file Net post readable removable upload_url root local_f st)
                      names st))
    = map item_of (snd st)
      ++ map (path_join root)
           (List.filter (fun local_f => negb (endswith local_f ".log")) names).
Proof.
  induction names as [|f names IH]; intros st; cbn [fold_left List.filter map].
  - rewrite app_nil_r. reflexivity.
  - rewrite IH, sync_file_items.
    destruct (endswith f ".log"); cbn [negb map]; rewrite <- app_assoc; reflexivity.
Qed.

Lemma sync_pass_items (server_url : string) (walk : list (string * list string)) :
  forall st,
    map item_of (snd (sync_pass Net post readable removable server_url walk st))
    = map item_of (snd st) ++ uploadable walk.
Proof.
  unfold sync_pass, uploadable.
  induction walk as [|[root names] walk IH]; intros st; cbn [fold_left flat_map fst snd].
  - rewrite app_nil_r. reflexivity.
  - rewrite IH, sync_names_items, <- app_assoc. reflexivity.
Qed.

End SyncWalk.

(** X15: A sync pass makes one upload attempt for every file the walk yields
    whose name does not end in [.log], in the order of the walk, and none
    for a log file; a file that is not among these is left as it was. *)
Theorem sync_pass_skips_log_files
    (Net : Type) (post : Net -> string -> string -> string -> Net * Outcome Z)
    (readable removable : Net -> string -> bool)
    (net : Net) (server_url : string) (walk : list (string * list string))
    (files : gmap string string) :
  let '(_, files', log) :=
    sync_pass Net post readable removable server_url walk (net, files, []) in
  map item_of log = uploadable walk
  /\ (forall path : string, path ∉ uploadable walk -> files' !! path = files !! path).
Proof.
  pose proof (sync_pass_items Net post readable removable server_url walk (net, files, []))
    as Hitems.
  pose proof (sync_pass_in_sync Net post readable removable files server_url walk _
                (in_sync_start Net files net)) as Hsync.
  destruct (sync_pass Net post readable removable server_url walk (net, files, []))
    as [[net' files'] log].
  cbn [snd map app] in Hitems. split; [exact Hitems|].
  intros path Hpath. destruct (Hsync path) as [H1|[_ Hin]]; [exact H1|].
  exfalso. apply Hpath. rewrite <- Hitems. cbn [snd] in Hin.
  change path with (item_of (Sent path)). apply list_elem_of_fmap_2. exact Hin.
Qed.

(** ** Stopping *)

Lemma stop_then_return_witness :
  pc (run ws_upload_file 20 [calm; calm; calm; calm; calm; calm]
        (start ["/a.mp3"] true ∅ 0)) = AtExit
  /\ (attempts (log (run ws_upload_file 20 [calm; calm; calm; calm; calm; calm]
                       (start ["/a.mp3"] true ∅ 0)))
      <= attempts (log (start ["/a.mp3"] true ∅ 0)) + 1)%nat.
Proof.
  apply (stop_then_return ws_upload_file 20 [calm; calm; calm; calm; calm; calm]
           (start ["/a.mp3"] true ∅ 0));
    [reflexivity | right; discriminate | cbn; lia].
Defined.

(** ** The directories of the daemon *)

Lemma endswith_slash_cons (c : ascii) (s : string) :
  endswith (String c s) "/"
  = match s with
    | EmptyString => Ascii.eqb c "/"
    | String _ _ => endswith s "/"
    end.
Proof.
  unfold endswith. destruct s as [|d s].
  - cbn. destruct (Ascii.eqb c "/"); reflexivity.
  - cbn [String.length Nat.leb Nat.sub andb substring]. rewrite Nat.sub_0_r.
    reflexivity.
Qed.

(** Whether a path ends in a slash is seen at its last part. *)
Lemma endswith_slash_app (a b : string) :
  b <> EmptyString -> endswith (a +:+ b) "/" = endswith b "/".
Proof.
  intros Hb. induction a as [|c a IH]; [reflexivity|].
  rewrite append_cons, endswith_slash_cons, IH.
  destruct (a +:+ b) as [|d s] eqn:E; [|reflexivity].
  destruct a; [rewrite append_nil in E; congruence | discriminate E].
Qed.

Lemma endswith_slash_char_in (s : string) :
  char_in "/" s = false -> endswith s "/" = false.
Proof.
  induction s as [|c s IH]; intros H; [reflexivity|].
  cbn [char_in] in H. apply orb_false_iff in H as [Hc Hs].
  rewrite endswith_slash_cons. destruct s; [exact Hc | apply IH, Hs].
Qed.

(** [os.path.join] of a directory that does not end in a slash and a name
    that holds none. *)
Lemma path_join_name (dir tag name : string) :
  dir <> EmptyString -> endswith dir "/" = false ->
  tag +:+ name <> EmptyString ->
  char_in "/" (tag +:+ name) = false ->
  path_join dir (tag +:+ name) = dir +:+ "/" +:+ tag +:+ name
  /\ path_join dir (tag +:+ name) <> EmptyString
  /\ endswith (path_join dir (tag +:+ name)) "/" = false.
Proof.
  intros Hdir Hend Hfull Hname. unfold path_join.
  assert (Hstart : startswith "/" (tag +:+ name) = false).
  { destruct (tag +:+ name) as [|c s]; [reflexivity|].
    cbn [char_in] in Hname. apply orb_false_iff in Hname as [Hc _].
    cbn [startswith]. rewrite Ascii.eqb_sym, Hc. reflexivity. }
  rewrite Hstart, Hend.
  destruct dir as [|c dir]; [congruence|]. cbn [String.eqb orb].
  split; [reflexivity|]. split; [rewrite append_cons; discriminate|].
  rewrite endswith_slash_app by discriminate.
  change ("/" +:+ tag +:+ name) with (String "/" (tag +:+ name)).
  rewrite endswith_slash_cons.
  destruct (tag +:+ name) as [|d s] eqn:E; [congruence|].
  apply endswith_slash_char_in, Hname.
Qed.

(** X16: The directories of the daemon, for identifiers of the project, the
    configuration and the device that hold no slash: the working directory
    is always the same directory under [/tmp]; the upload directory, which
    is the directory a sync pass walks, is the directory [audio] on the SD
    card when the card is used and the directory [audio] under the current
    directory otherwise; and the data directory, in which the recordings are
    left, is the directory [proj_<project>/bugg_<device>/conf_<config>] under
    the upload directory.  (An identifier with a slash in it is joined as it
    is.) *)
Theorem auto_sys_config_data_under_upload (use_sd_card : bool)
    (proj_id conf_id cpu_id : string) :
  char_in "/" proj_id = false ->
  char_in "/" cpu_id = false ->
  char_in "/" conf_id = false ->
  let '(working_dir, upload_dir, data_dir) :=
    auto_sys_config SD_MNT_LOC use_sd_card proj_id conf_id cpu_id in
  working_dir = "/tmp/rpi-ecosystem-monitoring_tmp"
  /\ upload_dir = (if use_sd_card then "/mnt/sd/audio" else "audio")
  /\ data_dir
     = upload_dir +:+ "/" +:+ "proj_" +:+ proj_id
       +:+ "/" +:+ "bugg_" +:+ cpu_id
       +:+ "/" +:+ "conf_" +:+ conf_id
  /\ startswith upload_dir data_dir = true.
Proof.
  intros Hproj Hcpu Hconf. unfold auto_sys_config. cbv zeta.
  set (upload_dir := if use_sd_card then path_join SD_MNT_LOC "audio" else "audio").
  assert (Hup : upload_dir = if use_sd_card then "/mnt/sd/audio" else "audio")
    by (subst upload_dir; destruct use_sd_card; reflexivity).
  assert (Hdir : upload_dir <> EmptyString /\ endswith upload_dir "/" = false)
    by (rewrite Hup; destruct use_sd_card; split; (discriminate || reflexivity)).
  destruct Hdir as [Hne Hend].
  destruct (path_join_name upload_dir "proj_" proj_id Hne Hend) as (E1 & N1 & S1).
  { rewrite append_cons. discriminate. }
  { rewrite char_in_app, Hproj. reflexivity. }
  destruct (path_join_name _ "bugg_" cpu_id N1 S1) as (E2 & N2 & S2).
  { rewrite append_cons. discriminate. }
  { rewrite char_in_app, Hcpu. reflexivity. }
  destruct (path_join_name _ "conf_" conf_id N2 S2) as (E3 & _ & _).
  { rewrite append_cons. discriminate. }
  { rewrite char_in_app, Hconf. reflexivity. }
  split; [reflexivity|]. split; [exact Hup|].
  assert (Hdata : path_join (path_join (path_join upload_dir ("proj_" +:+ proj_id))
                                       ("bugg_" +:+ cpu_id)) ("conf_" +:+ conf_id)
                  = upload_dir +:+ "/" +:+ "proj_" +:+ proj_id
                    +:+ "/" +:+ "bugg_" +:+ cpu_id
                    +:+ "/" +:+ "conf_" +:+ conf_id).
  { rewrite E3, E2, E1. rewrite !append_assoc. reflexivity. }
  split; [exact Hdata|]. rewrite Hdata. apply startswith_app.
Qed.

Lemma auto_sys_config_data_under_upload_witness :
  let '(working_dir, upload_dir, data_dir) :=
    auto_sys_config SD_MNT_LOC true "na" "na" "10000000a1b2c3d4" in
  working_dir = "/tmp/rpi-ecosystem-monitoring_tmp"
  /\ upload_dir = "/mnt/sd/audio"
  /\ data_dir
     = upload_dir +:+ "/" +:+ "proj_" +:+ "na"
       +:+ "/" +:+ "bugg_" +:+ "10000000a1b2c3d4"
       +:+ "/" +:+ "conf_" +:+ "na"
  /\ startswith upload_dir data_dir = true.
Proof.
  apply (auto_sys_config_data_under_upload true "na" "na" "10000000a1b2c3d4");
    reflexivity.
Defined.

End UploadFacts.

(** * Start and exit of the daemon *)

Module DaemonFacts.
Import Leds Py Factory Daemon LedsShow.



(** A results file whose value is set off by a no-break space and ends in
    a carriage return and a line feed reads as passed: [strip] takes every
    whitespace of Unicode away.  A file that is not text reads as not
    passed when the bytes that do not decode come before the line with the
    key, or with it in the one read. *)
Lemma passed_at_factory_samples :
  let boot (content : string) :=
    passed_at_factory CHUNK_SIZE (FactoryTest_new LEDs_new {[results_file := content]}) in
  boot ("all_tests_passed:" +:+ bytes [194; 160]%nat +:+ "True" +:+ bytes [13; 10]%nat)
  = Some true
  /\ boot (bytes [255]%nat +:+ nl +:+ "all_tests_passed: True" +:+ nl) = Some false
  /\ boot ("all_tests_passed: True" +:+ nl +:+ bytes [255]%nat) = Some false
  /\ boot ("all_tests_passed: False" +:+ nl) = Some false
  /\ boot ("all_tests_passed: yes: True" +:+ nl) = Some false
  /\ boot "Factory Self-Test Results:" = None.
Proof. vm_compute. repeat split; reflexivity. Qed.

(** X18: At boot the daemon shows the outcome of the factory test: magenta on
    top, red at the bottom, and in the middle green when the results file
    says that all tests passed and red in every other case (no file, no line
    with the key, a line that does not parse, a file that does not decode,
    or [False]).  After the four seconds the top and the middle LED are off
    and the bottom LED is red.  Nothing raises, and the results and the
    files are left alone. *)
Theorem boot_status_shows (chunk : nat) (w : World) :
  wired_as_LEDs (leds w) ->
  let '(w1, r1) := boot_status chunk w in
  let '(w2, r2) := boot_status_display chunk w in
  r1 = Return tt
  /\ shown Top (leds w1) = Some MAGENTA
  /\ shown Bottom (leds w1) = Some RED
  /\ shown Middle (leds w1)
     = Some (match passed_at_factory chunk (FactoryTest_new (leds w) (fs w)) with
             | Some true => GREEN
             | _ => RED
             end)
  /\ r2 = Return tt
  /\ shown Top (leds w2) = Some BLACK
  /\ shown Middle (leds w2) = Some BLACK
  /\ shown Bottom (leds w2) = Some RED
  /\ slept w2 = slept w + 4
  /\ fs w2 = fs w /\ results w2 = results w.
Proof.
  intros H. destruct w as [res ap l files sl]. cbn [leds fs] in *. open_leds l H.
  unfold boot_status_display, boot_status, bind, get, on_leds, sleep, modify.
  cbn -[passed_at_factory].
  match goal with
  | |- context [passed_at_factory chunk ?x] =>
      change (passed_at_factory chunk x)
        with (passed_at_factory chunk (FactoryTest_new LEDs_new files))
  end.
  destruct (passed_at_factory _ _) as [[|]|]; cbn; repeat split.
Qed.

Lemma boot_status_shows_witness :
  let '(w1, r1) := boot_status CHUNK_SIZE (FactoryTest_new LEDs_new ∅) in
  let '(w2, r2) := boot_status_display CHUNK_SIZE (FactoryTest_new LEDs_new ∅) in
  r1 = Return tt
  /\ shown Top (leds w1) = Some MAGENTA
  /\ shown Bottom (leds w1) = Some RED
  /\ shown Middle (leds w1)
     = Some (match passed_at_factory CHUNK_SIZE
                     (FactoryTest_new (leds (FactoryTest_new LEDs_new ∅))
                                      (fs (FactoryTest_new LEDs_new ∅))) with
             | Some true => GREEN | _ => RED end)
  /\ r2 = Return tt
  /\ shown Top (leds w2) = Some BLACK
  /\ shown Middle (leds w2) = Some BLACK
  /\ shown Bottom (leds w2) = Some RED
  /\ slept w2 = slept (FactoryTest_new LEDs_new ∅) + 4
  /\ fs w2 = fs (FactoryTest_new LEDs_new ∅)
  /\ results w2 = results (FactoryTest_new LEDs_new ∅).
Proof. apply (boot_status_shows CHUNK_SIZE (FactoryTest_new LEDs_new ∅)). repeat split. Defined.

End DaemonFacts.

(** * Facts about the soundcard *)

Module SoundcardFacts.
Import Py Soundcard.

(** ** The register of the gain chip *)

















(** ** Samples *)

Lemma to_N_byte (b : Byte.byte) : 0 <= Z.of_N (Byte.to_N b) <= 255.
Proof. pose proof (Byte.to_N_bounded b). lia. Qed.

Lemma sample_of_one (b : Byte.byte) : -128 <= from_bytes_little_signed [b] <= 127.
Proof.
  unfold from_bytes_little_signed. cbn [from_bytes_little length].
  pose proof (to_N_byte b).
  change (8 * Z.of_nat 1) with 8. change (2 ^ (8 - 1)) with 128. change (2 ^ 8) with 256.
  cbn [Z.ltb Z.compare andb]. destruct (Z.leb_spec 128 (Z.of_N (Byte.to_N b) + 256 * 0)); lia.
Qed.

Lemma sample_of_two (b0 b1 : Byte.byte) :
  -32768 <= from_bytes_little_signed [b0; b1] <= 32767
  /\ from_bytes_little_signed [b0; b1] mod 65536
     = Z.of_N (Byte.to_N b0) + 256 * Z.of_N (Byte.to_N b1).
Proof.
  unfold from_bytes_little_signed. cbn [from_bytes_little length].
  pose proof (to_N_byte b0). pose proof (to_N_byte b1).
  change (8 * Z.of_nat 2) with 16. change (2 ^ (16 - 1)) with 32768.
  change (2 ^ 16) with 65536. cbn [Z.ltb Z.compare andb].
  set (u := Z.of_N (Byte.to_N b0) + 256 * (Z.of_N (Byte.to_N b1) + 256 * 0)).
  assert (Hu : 0 <= u < 65536) by (unfold u; lia).
  assert (Eu : Z.of_N (Byte.to_N b0) + 256 * Z.of_N (Byte.to_N b1) = u) by (unfold u; lia).
  rewrite Eu. destruct (Z.leb_spec 32768 u).
  - split; [lia|]. replace (u - 65536) with (u + (-1) * 65536) by lia.
    rewrite Z.mod_add by lia. apply Z.mod_small. lia.
  - split; [lia|]. apply Z.mod_small. lia.
Qed.

Lemma samples_of_spec (content : list Byte.byte) :
  (length (samples_of content) = Nat.div2 (S (length content))
   /\ Forall (fun v => -32768 <= v <= 32767) (samples_of content))
  /\ forall b, length (samples_of (b :: content)) = Nat.div2 (S (S (length content)))
               /\ Forall (fun v => -32768 <= v <= 32767) (samples_of (b :: content)).
Proof.
  induction content as [|b1 content [IH1 IH2]].
  - split; [split; [reflexivity | constructor]|].
    intros b. split; [reflexivity|]. constructor; [|constructor].
    pose proof (sample_of_one b). lia.
  - split; [apply IH2|]. intros b. destruct IH1 as [L F].
    change (samples_of (b :: b1 :: content))
      with (from_bytes_little_signed [b; b1] :: samples_of content).
    split.
    + cbn [length]. rewrite L. reflexivity.
    + constructor; [apply sample_of_two | exact F].
Qed.

(** The sample at an index. *)
Lemma samples_of_lookup (i : nat) :
  forall content : list Byte.byte,
    match content !! (2 * i)%nat, content !! (2 * i + 1)%nat with
    | Some lo, Some hi => samples_of content !! i = Some (from_bytes_little_signed [lo; hi])
    | Some lo, None => samples_of content !! i = Some (from_bytes_little_signed [lo])
    | None, _ => samples_of content !! i = None
    end.
Proof.
  induction i as [|i IH]; intros content.
  - destruct content as [|b0 [|b1 rest]]; reflexivity.
  - replace (2 * S i)%nat with (S (S (2 * i))) by lia.
    replace (S (S (2 * i)) + 1)%nat with (S (S (2 * i + 1))) by lia.
    destruct content as [|b0 [|b1 rest]]; try reflexivity.
    exact (IH rest).
Qed.

Lemma sample_of_one_mod (b : Byte.byte) :
  from_bytes_little_signed [b] mod 256 = Z.of_N (Byte.to_N b).
Proof.
  unfold from_bytes_little_signed. cbn [from_bytes_little length].
  pose proof (to_N_byte b).
  change (8 * Z.of_nat 1) with 8. change (2 ^ (8 - 1)) with 128. change (2 ^ 8) with 256.
  cbn [Z.ltb Z.compare andb]. rewrite Z.mul_0_r, Z.add_0_r.
  destruct (Z.leb_spec 128 (Z.of_N (Byte.to_N b))).
  - replace (Z.of_N (Byte.to_N b) - 256) with (Z.of_N (Byte.to_N b) + (-1) * 256) by lia.
    rewrite Z.mod_add by lia. apply Z.mod_small. lia.
  - apply Z.mod_small. lia.
Qed.

(** X22: Reading a raw file gives one sample for every two bytes, and one more for
    an odd last byte, in the order of the file.  The sample at index [i] is
    made of the bytes at [2 i] and [2 i + 1]: it is the signed 16-bit
    integer whose value modulo 65536 is the low byte plus 256 times the
    high byte; an odd last byte gives the signed 8-bit integer of this
    value modulo 256.  A missing file raises. *)
Theorem read_16bit_signed_pcm_samples (file_path : string)
    (files : gmap string (list Byte.byte)) :
  match files !! file_path with
  | None => read_16bit_signed_pcm file_path files = Raise
  | Some content =>
      exists samples,
        read_16bit_signed_pcm file_path files = Return samples
        /\ length samples = Nat.div2 (S (length content))
        /\ Forall (fun v => -32768 <= v <= 32767) samples
        /\ (forall (i : nat) (lo hi : Byte.byte),
              content !! (2 * i)%nat = Some lo ->
              content !! (2 * i + 1)%nat = Some hi ->
              exists v, samples !! i = Some v
                /\ -32768 <= v <= 32767
                /\ v mod 65536 = Z.of_N (Byte.to_N lo) + 256 * Z.of_N (Byte.to_N hi))
        /\ (forall (i : nat) (lo : Byte.byte),
              content !! (2 * i)%nat = Some lo ->
              content !! (2 * i + 1)%nat = None ->
              exists v, samples !! i = Some v
                /\ -128 <= v <= 127
                /\ v mod 256 = Z.of_N (Byte.to_N lo))
  end.
Proof.
  unfold read_16bit_signed_pcm. destruct (files !! file_path) as [content|]; [|reflexivity].
  exists (samples_of content). split; [reflexivity|].
  destruct (samples_of_spec content) as [[L F] _]. split; [exact L|]. split; [exact F|].
  split.
  - intros i lo hi Hlo Hhi. pose proof (samples_of_lookup i content) as H.
    rewrite Hlo, Hhi in H. eexists. split; [exact H|]. apply sample_of_two.
  - intros i lo Hlo Hhi. pose proof (samples_of_lookup i content) as H.
    rewrite Hlo, Hhi in H. eexists. split; [exact H|].
    split; [apply sample_of_one | apply sample_of_one_mod].
Qed.

End SoundcardFacts.

